(** * Zgoubidoo: the parametric input-sequence model

    A shallow embedding of [zgoubidoo/input.py] (classes [ParametricMapping],
    [Input], [ZgoubiInputValidator]) and of [zgoubidoo/commands/commands.py]
    (class [Command] and its kinds), with the properties of the specification
    stated and settled against the embedded code.

    Conventions.  Python dictionaries whose iteration order is observable are
    association lists in insertion order; [Command] objects live in a store
    addressed by locations, since several sequences may hold the same object;
    code that can raise returns an [outcome]. *)

From Stdlib Require Import ZArith Lia String Ascii.
From stdpp Require Import base decidable option list strings gmap pretty.

Local Open Scope Z_scope.
Local Open Scope list_scope.

(** ** Python dictionaries in insertion order *)

Module PyDict.
Section dict.
Context {K V : Type} `{EqDecision K}.

(** [d[k] = v]: a key already present keeps its position. *)
Fixpoint dict_set (k : K) (v : V) (d : list (K * V)) : list (K * V) :=
  match d with
  | [] => [(k, v)]
  | (k', v') :: d' =>
      if decide (k = k') then (k, v) :: d' else (k', v') :: dict_set k v d'
  end.

(** [d.get(k)]. *)
Fixpoint dict_get (k : K) (d : list (K * V)) : option V :=
  match d with
  | [] => None
  | (k', v') :: d' => if decide (k = k') then Some v' else dict_get k d'
  end.

(** [dict(pairs)]: later pairs overwrite earlier ones. *)
Definition dict_of_pairs (kvs : list (K * V)) : list (K * V) :=
  fold_left (fun d kv => dict_set kv.1 kv.2 d) kvs [].

Definition keys (d : list (K * V)) : list K := map fst d.
Definition values (d : list (K * V)) : list V := map snd d.
End dict.
End PyDict.
Export PyDict.

(** ** [ParametricMapping] *)

Module ParametricMapping.
Section mapping.
Context {K V : Type} `{EqDecision K}.

(** One element of [mappings]: compound key -> list of candidate values. *)
Definition group : Type := list (K * list V).

Record t : Type := Build { mappings : list group }.

(** [flatten = itertools.chain.from_iterable]. *)
Definition flatten {A} (xss : list (list A)) : list A := concat xss.

(** [zip] applied to the unpacked columns: tuples of the i-th elements,
    stopping at the shortest column; no column at all gives no tuple. *)
Fixpoint zip_star (cols : list (list V)) : list (list V) :=
  match cols with
  | [] => []
  | c :: cs =>
      match cs with
      | [] => map (fun x => [x]) c
      | _ :: _ => zip_with cons c (zip_star cs)
      end
  end.

(** [itertools.product] of the unpacked pools, as the library documents it:
    [result = [[]]; for pool in pools: result = [x+[y] for x in result for y in pool]]. *)
Definition product {A} (args : list (list A)) : list (list A) :=
  fold_left
    (fun result pool => flat_map (fun x => map (fun y => x ++ [y]) pool) result)
    args [[]].

(** Property [labels]: iterating a dict yields its keys. *)
Definition labels (pm : t) : list K := flatten (map keys (mappings pm)).

(** Property [pools]. *)
Definition pools (pm : t) : list (list (list V)) :=
  map (fun arg => zip_star (values arg)) (mappings pm).

(** Property [combinations]; the final [or [{}]] replaces an empty list. *)
Definition combinations (pm : t) : list (list (K * V)) :=
  let pool_values := map flatten (product (pools pm)) in
  match map (fun v => dict_of_pairs (zip (labels pm) v)) pool_values with
  | [] => [[]]
  | l => l
  end.

(** *** The specification's reading *)

(** All value-lists of the group have the same length. *)
Definition aligned (g : group) : Prop :=
  exists n : nat, Forall (fun kv => length kv.2 = n) g.

(** The per-value-list length of a group (of its first list). *)
Definition group_len (g : group) : nat :=
  match g with
  | [] => 0%nat
  | (_, vs) :: _ => length vs
  end.

(** The lockstep pool: row [i] holds position [i] of every value-list. *)
Definition lockstep (g : group) : list (list V) :=
  map (fun i => omap (fun kv => kv.2 !! i) g) (seq 0 (group_len g)).

(** Nested loops, the first pool being the outer loop. *)
Fixpoint cartesian {A} (ps : list (list A)) : list (list A) :=
  match ps with
  | [] => [[]]
  | p :: ps' => flat_map (fun r => map (cons r) (cartesian ps')) p
  end.

Definition spec_combinations (pm : t) : list (list (K * V)) :=
  map (fun term => dict_of_pairs (zip (labels pm) (flatten term)))
      (cartesian (map lockstep (mappings pm))).

Definition lengths_product (pm : t) : nat :=
  foldr Nat.mul 1%nat (map group_len (mappings pm)).

(** *** Addition

    [self + other] rebinds or extends in place the list object that
    [self.mappings] refers to, and returns [self].  Two objects may refer to
    one list, so the objects and the lists are kept in a store: an object is
    bound to the location of its list. *)
Record objects : Type := Objects {
  mappings_ref : gmap nat nat;
  lists : gmap nat (list group);
}.

(** The present value of the object [o]. *)
Definition deref (st : objects) (o : nat) : t :=
  Build (lists st !!! (mappings_ref st !!! o)).

(** [ParametricMapping.__add__(self, other)]. *)
Definition __add__ (self other : nat) (st : objects) : nat * objects :=
  if (length (labels (deref st self)) =? 0)%nat then
    (self, Objects (<[self := mappings_ref st !!! other]> (mappings_ref st)) (lists st))
  else if (length (labels (deref st other)) =? 0)%nat then
    (self, st)
  else
    let l := mappings_ref st !!! self in
    (self,
     Objects (mappings_ref st)
       (<[l := lists st !!! l ++ lists st !!! (mappings_ref st !!! other)]> (lists st))).
End mapping.
Arguments t : clear implicits.
Arguments group : clear implicits.
Arguments objects : clear implicits.
End ParametricMapping.

(** ** Python results and text *)

(** The exceptions the modelled code raises or lets through.  [OutOfModel]
    marks the few runs this development does not follow (an assignment that
    replaces a typed private field by an arbitrary object, a lookup that
    resolves to a method or property instead of a parameter). *)
Inductive exn : Type :=
| AttributeError
| IndexError
| TypeError
| ValueError
| AssertionError
| UndefinedUnitError
| ZgoubidooException
| ZgoubiInputException (message : string)
| OtherException (name : string)
| OutOfModel.

Inductive outcome (A : Type) : Type :=
| Returns (a : A)
| Raises (e : exn).
Arguments Returns {A} a.
Arguments Raises {A} e.

Definition obind {A B} (x : outcome A) (f : A -> outcome B) : outcome B :=
  match x with
  | Returns a => f a
  | Raises e => Raises e
  end.

Notation "'let?' x := e1 'in' e2" := (obind e1 (fun x => e2))
  (at level 10, x pattern, e1 at level 200, e2 at level 200).

(** [map(f, xs)] forced into a list, stopping at the first exception. *)
Fixpoint mapM {A B} (f : A -> outcome B) (xs : list A) : outcome (list B) :=
  match xs with
  | [] => Returns []
  | x :: xs' =>
      let? y := f x in
      let? ys := mapM f xs' in
      Returns (y :: ys)
  end.

Module PyStr.
Local Open Scope string_scope.

Definition nl : string := String (ascii_of_nat 10) EmptyString.

(** The indentation the triple-quoted templates of [commands.py] carry. *)
Definition indent : string := "        ".

Definition is_empty (s : string) : bool :=
  match s with EmptyString => true | _ => false end.

Definition mem (a : ascii) (cs : list ascii) : bool :=
  existsb (Ascii.eqb a) cs.



Fixpoint rstrip (cs : list ascii) (s : string) : string :=
  match s with
  | EmptyString => EmptyString
  | String a s' =>
      let r := rstrip cs s' in
      if is_empty r && mem a cs then EmptyString else String a r
  end.


(** [len(s)]: the number of characters.  A text is kept as its UTF-8 bytes;
    each character is one byte outside 128..191 followed by its continuation
    bytes, which are the bytes from 128 to 191. *)
Definition len (s : string) : nat :=
  length (filter (fun a => ((nat_of_ascii a <? 128) || (191 <? nat_of_ascii a))%nat = true)
                 (list_ascii_of_string s)).

Definition startswith (s p : string) : bool := String.prefix p s.

(** [s.split(sep)] for a non-empty separator: cut at each occurrence met
    from the left; [skip] counts the separator characters still to drop. *)
Fixpoint split_go (sep : string) (skip : nat) (cur : string) (s : string)
  : list string :=
  match s with
  | EmptyString => [cur]
  | String a s' =>
      match skip with
      | S k => split_go sep k cur s'
      | O =>
          if String.prefix sep s
          then cur :: split_go sep (String.length sep - 1) EmptyString s'
          else split_go sep 0 (cur ++ String a EmptyString) s'
      end
  end.

Definition split (sep s : string) : list string := split_go sep 0 EmptyString s.

Definition join (sep : string) (parts : list string) : string :=
  String.concat sep parts.

(** [s.replace(old, new)] for a non-empty [old]. *)
Definition replace (old new s : string) : string := join new (split old s).

Definition upper_ascii (a : ascii) : ascii :=
  let n := nat_of_ascii a in
  if (97 <=? n)%nat && (n <=? 122)%nat then ascii_of_nat (n - 32) else a.

Definition lower_ascii (a : ascii) : ascii :=
  let n := nat_of_ascii a in
  if (65 <=? n)%nat && (n <=? 90)%nat then ascii_of_nat (n + 32) else a.

Fixpoint map_ascii (f : ascii -> ascii) (s : string) : string :=
  match s with
  | EmptyString => EmptyString
  | String a s' => String (f a) (map_ascii f s')
  end.

(** [s.capitalize()] on ASCII text. *)
Definition capitalize (s : string) : string :=
  match s with
  | EmptyString => EmptyString
  | String a s' => String (upper_ascii a) (map_ascii lower_ascii s')
  end.

(** [os.path.join(a, b)]. *)
Definition path_join (a b : string) : string :=
  if startswith b "/" then b
  else if is_empty a || String.eqb (String.substring (String.length a - 1) 1 a) "/"
       then a ++ b
       else a ++ "/" ++ b.
End PyStr.

(** ** Parameter values *)

Set Warnings "-register-all".

(** What a parameter of a command can hold.  A float is carried as its
    literal and a quantity as magnitude and unit text: their arithmetic
    belongs to the unit system, which this development takes as given. *)
Inductive value : Type :=
| VNone
| VBool (b : bool)
| VInt (z : Z)
| VFloat (literal : string)
| VStr (s : string)
| VTuple (items : list value)
| VList (items : list value)
| VQuantity (magnitude : value) (units : string).

Definition is_quantity (v : value) : bool :=
  match v with VQuantity _ _ => true | _ => false end.

Definition is_empty_str (v : value) : bool :=
  match v with VStr s => PyStr.is_empty s | _ => false end.

Definition magnitude_of (q : value) : value :=
  match q with VQuantity m _ => m | v => v end.

Definition units_of (q : value) : string :=
  match q with VQuantity _ u => u | _ => EmptyString end.

(** The unit system ([pint]) and Python's formatting of numbers, taken as
    given.  [Q_ v] is the call [Q_(v)]: the quantity built, or the exception
    raised. *)
Class Units : Type := {
  Q_ : value -> outcome value;
  dimensionless_units : string -> bool;
  quantity_eq : value -> value -> bool;
  format_value : value -> string;
}.

Section values.
Context `{Units}.

(** [v == w].  Comparisons that involve a float or a quantity are the unit
    system's. *)
Fixpoint py_eq (v w : value) : bool :=
  let fix all2 (xs ys : list value) : bool :=
    match xs, ys with
    | [], [] => true
    | x :: xs', y :: ys' => py_eq x y && all2 xs' ys'
    | _, _ => false
    end in
  match v, w with
  | VQuantity _ _, _ | _, VQuantity _ _ | VFloat _, _ | _, VFloat _ =>
      quantity_eq v w
  | VNone, VNone => true
  | VBool a, VBool b => Bool.eqb a b
  | VBool a, VInt z | VInt z, VBool a => (z =? (if a then 1 else 0))%Z
  | VInt a, VInt b => (a =? b)%Z
  | VStr a, VStr b => String.eqb a b
  | VTuple xs, VTuple ys => all2 xs ys
  | VList xs, VList ys => all2 xs ys
  | _, _ => false
  end.

(** [str(v)] as an f-string inserts it; text is inserted as it is. *)
Definition py_format (v : value) : string :=
  match v with
  | VStr s => s
  | VNone => "None"
  | _ => format_value v
  end.
End values.

(** ** Command kinds and objects *)

(** A class of [commands.py]: its name, the names of the class and of all its
    bases (its method resolution order), and the class attributes [KEYWORD]
    and [PARAMETERS] as attribute lookup on the class finds them. *)
Record class : Type := MkClass {
  cls_name : string;
  cls_mro : list string;
  KEYWORD : string;
  PARAMETERS : list (string * value);
}.

(** Locations of the store. *)
Abbreviation loc := nat.

Record Command : Type := MkCommand {
  cmd_class : class;
  _attributes : gmap string value;
  _output : value;
}.

Module Kinds.
Local Open Scope string_scope.

(** [Command.PARAMETERS]. *)
Definition Command_PARAMETERS : list (string * value) :=
  [("LABEL1", VStr ""); ("LABEL2", VStr "")].

Definition Command_class : class :=
  MkClass "Command" ["Command"; "object"] "" Command_PARAMETERS.

(** A kind that only sets its [KEYWORD]. *)
Definition plain (name keyword : string) : class :=
  MkClass name [name; "Command"; "object"] keyword Command_PARAMETERS.

Definition End : class := plain "End" "END".
Definition Fin : class := plain "Fin" "FIN".
Definition Marker : class := plain "Marker" "MARKER".
Definition Faisceau : class := plain "Faisceau" "FAISCEAU".

Definition Collimateur : class :=
  MkClass "Collimateur" ["Collimateur"; "Command"; "object"] "COLLIMA"
    [ ("IA", VTuple [VInt 2;
                   VStr ("Element active or not (0 - inactive, 1 - active, "
                         ++ "2 - active and prints information.")]);
      ("IFORM", VTuple [VInt 1; VStr "Aperture shape."]);
      ("J", VTuple [VInt 0; VStr "Description of the aperture coordinates system."]);
      ("C1", VTuple [VQuantity (VInt 0) "cm"; VStr "Half opening (Y)."]);
      ("C2", VTuple [VQuantity (VInt 0) "cm"; VStr "Half opening (Z)."]);
      ("C3", VTuple [VQuantity (VInt 0) "cm"; VStr "Center of the aperture (Y)."]);
      ("C4", VTuple [VQuantity (VInt 0) "cm"; VStr "Center of the aperture (Z)."]) ].

Definition FaiStore : class :=
  MkClass "FaiStore" ["FaiStore"; "Command"; "object"] "FAISTORE"
    [("FNAME", VStr "zgoubi.fai"); ("IP", VInt 1)].

Definition Rebelote : class :=
  MkClass "Rebelote" ["Rebelote"; "Command"; "object"] "REBELOTE"
    [ ("NPASS", VInt 1); ("KWRIT", VFloat "1.1"); ("K", VInt 99);
      ("N", VNone); ("LABL1", VNone); ("LABL2", VNone); ("NPRM", VInt 1) ].

Definition Faiscnl : class :=
  MkClass "Faiscnl" ["Faiscnl"; "Command"; "object"] "FAISCNL"
    [("FNAME", VStr "zgoubi.fai"); ("B_FNAME", VStr "b_zgoubi.fai");
     ("binary", VBool false)].

Definition Focale : class :=
  MkClass "Focale" ["Focale"; "Command"; "object"] "FOCALE"
    [("XL", VTuple [VQuantity (VFloat "0.0") "centimeter";
                    VStr "Distance from the location of the keyword."])].

Definition FocaleZ : class :=
  MkClass "FocaleZ" ["FocaleZ"; "Command"; "object"] "FOCALEZ"
    [("XL", VTuple [VQuantity (VFloat "0.0") "centimeter";
                    VStr "Distance from the location of the keyword."])].

Definition GasScattering : class :=
  MkClass "GasScattering" ["GasScattering"; "Command"; "object"] "GASCAT"
    [("KGA", VInt 0); ("AI", VFloat "0.0"); ("DEN", VFloat "0.0")].

Definition GetFitVal : class :=
  MkClass "GetFitVal" ["GetFitVal"; "Command"; "object"] "GETFITVAL"
    [("FNAME", VStr "zgoubi.res")].

Definition Matrix : class :=
  MkClass "Matrix" ["Matrix"; "Command"; "object"] "MATRIX"
    [("IORD", VInt 1);
     ("IFOC", VTuple [VInt 11; VStr "If IFOC=11, periodic parameters (single pass)"])].

Definition Twiss : class :=
  MkClass "Twiss" ["Twiss"; "Command"; "object"] "TWISS"
    [("KTW", VInt 1); ("FACD", VFloat "1.0");
     ("FACA", VTuple [VFloat "0.0"; VStr "Unused"])].

Definition ChangeRef : class :=
  MkClass "ChangeRef" ["ChangeRef"; "Command"; "Patchable"; "object"] "CHANGREF"
    [("TRANSFORMATIONS", VList [])].

Definition Ymy : class :=
  MkClass "Ymy" ["Ymy"; "Command"; "Patchable"; "object"] "YMY" Command_PARAMETERS.

(** The kinds that only set their [KEYWORD]. *)
Definition plain_kinds : list (string * string) :=
  [ ("AutoRef", "AUTOREF"); ("BeamBeam", "BEAMBEAM"); ("Binary", "BINARY");
    ("Chambre", "CHAMBR"); ("Cible", "CIBLE"); ("End", "END"); ("ESL", "ESL");
    ("Faisceau", "FAISCEAU"); ("Fin", "FIN"); ("Histo", "HISTO");
    ("Image", "IMAGE"); ("Images", "IMAGES"); ("ImageZ", "IMAGEZ");
    ("ImagesZ", "IMAGESZ"); ("Marker", "MARKER");
    ("MCDesintegration", "MCDESINT"); ("Optics", "OPTICS"); ("Ordre", "ORDRE");
    ("Pickups", "PICKUPS"); ("PlotData", "PLOTDATA"); ("Reset", "RESET");
    ("Scaling", "SCALING"); ("Separa", "SEPARA");
    ("SynchrotronRadiationLosses", "SRLOSS");
    ("SynchrotronRadiationPrint", "SRPRNT"); ("SynchrotronRadiation", "SYNRAD");
    ("Target", "TARGET"); ("TransferMatrix", "TRANSMAT");
    ("TranslationRotation", "TRAROT"); ("WienFilter", "WIENFILT") ].

(** The names the module [commands.py] binds to command classes, aliases
    included ([Fit] and [Fit2], whose defaults are lists of dictionaries,
    are left out). *)
Definition module_names : list (string * class) :=
  (map (fun p => (p.1, plain p.1 p.2)) plain_kinds
   ++ [ ("Command", Command_class);
        ("Chamber", plain "Chambre" "CHAMBR"); ("Chambr", plain "Chambre" "CHAMBR");
        ("ChangeRef", ChangeRef); ("ChangRef", ChangeRef);
        ("Collimateur", Collimateur); ("Collimator", Collimateur);
        ("Faiscnl", Faiscnl); ("FaiStore", FaiStore); ("Focale", Focale);
        ("FocaleZ", FocaleZ); ("GasScattering", GasScattering);
        ("GetFitVal", GetFitVal); ("Matrix", Matrix); ("Rebelote", Rebelote);
        ("Twiss", Twiss); ("Ymy", Ymy) ])%list.

(** Names that ordinary lookup finds on every [Command] before
    [__getattr__] is consulted. *)
Definition native_names : list string :=
  [ "_attributes"; "_output"; "KEYWORD"; "PARAMETERS"; "plotable"; "output";
    "attach_output"; "process_output" ].
End Kinds.

(** [isinstance(c, classes)], the classes being given by name. *)
Definition isinstance (c : Command) (classes : list string) : bool :=
  existsb (fun k => bool_decide (k ∈ cls_mro (cmd_class c))) classes.

Module Cmd.
Section command.
Context `{Units}.
Local Open Scope string_scope.

(** [dict(d, **p)]. *)
Definition dict_update (d : gmap string value) (p : list (string * value))
  : gmap string value :=
  fold_left (fun m kv => <[kv.1 := kv.2]> m) p d.

(** [Command.__init__(self, label1, label2, *params, **kwargs)]; [uuid] is
    the text of [uuid.uuid4().hex]. *)
Definition __init__ (cls : class) (uuid : string) (label1 label2 : string)
    (params : list (list (string * value))) (kwargs : list (string * value))
  : Command :=
  let label := if PyStr.is_empty label1 then String.substring 0 10 uuid else label1 in
  let dicts :=
    ([Kinds.Command_PARAMETERS; PARAMETERS cls] ++ params
     ++ [[("LABEL1", VStr label); ("LABEL2", VStr label2)]])%list in
  let attributes := fold_left dict_update dicts ∅ in
  let attributes :=
    fold_left
      (fun (m : gmap string value) kv =>
         match m !! kv.1 with
         | None => m
         | Some _ => <[kv.1 := kv.2]> m
         end)
      kwargs attributes in
  MkCommand cls attributes VNone.

(** The body of [Command.__getattr__] once the entry is known not to be
    [None]: the first item of a tuple, then the attempt to read it as a
    quantity. *)
Definition coerce (raw : value) : outcome value :=
  let? attr :=
    match raw with
    | VTuple [] => Raises IndexError
    | VTuple (first :: _) => Returns first
    | _ => Returns raw
    end in
  if negb (is_empty_str attr) && negb (is_quantity attr) then
    match Q_ attr with
    | Returns q =>
        if dimensionless_units (units_of q)
        then Returns (magnitude_of q)
        else Returns q
    | Raises TypeError | Raises ValueError | Raises UndefinedUnitError =>
        Returns attr
    | Raises e => Raises e
    end
  else Returns attr.

(** What an entry [self._attributes.get(a)] reads as. *)
Definition read_entry (entry : option value) : outcome value :=
  match entry with
  | None | Some VNone => Returns VNone
  | Some raw => coerce raw
  end.

(** [Command.__getattr__(self, a)]. *)
Definition __getattr__ (c : Command) (a : string) : outcome value :=
  read_entry (_attributes c !! a).

(** [Command.__setattr__(self, a, v)].  Replacing the whole table
    ([_attributes]) by an arbitrary object is not followed. *)
Definition __setattr__ (c : Command) (a : string) (v : value) : outcome Command :=
  if String.eqb a "_attributes" then Raises OutOfModel
  else if String.eqb a "_output" then Returns (MkCommand (cmd_class c) (_attributes c) v)
  else Returns (MkCommand (cmd_class c) (<[a := v]> (_attributes c)) (_output c)).

(** [getattr(c, a)]: ordinary lookup first, then [__getattr__]. *)
Definition getattr (c : Command) (a : string) : outcome value :=
  if String.eqb a "KEYWORD" then Returns (VStr (KEYWORD (cmd_class c)))
  else if String.eqb a "_output" || String.eqb a "output" then Returns (_output c)
  else if bool_decide (a ∈ Kinds.native_names) || PyStr.startswith a "__"
  then Raises OutOfModel
  else __getattr__ c a.

(** [Command.__str__(self)], which the kinds without a format of their own
    inherit. *)
Definition __str__ (c : Command) : outcome string :=
  let? label1 := getattr c "LABEL1" in
  let? label2 := getattr c "LABEL2" in
  Returns (PyStr.nl ++ PyStr.indent ++ "'" ++ KEYWORD (cmd_class c) ++ "' "
           ++ py_format label1 ++ " " ++ py_format label2
           ++ PyStr.nl ++ PyStr.indent).

(** [Marker.__init__(self, label1, label2, *params, with_plt, **kwargs)]: the
    constructor of [Command] with the kind's [PARAMETERS] as first
    dictionary, then [self.LABEL2 = '.plt' if with_plt else '']. *)
Definition Marker__init__ (uuid : string) (label1 label2 : string)
    (params : list (list (string * value))) (with_plt : bool)
    (kwargs : list (string * value)) : outcome Command :=
  __setattr__
    (__init__ Kinds.Marker uuid label1 label2
       (PARAMETERS Kinds.Marker :: params) kwargs)
    "LABEL2" (VStr (if with_plt then ".plt" else "")).

(** [Command.attach_output(self, output)]; [process_output] does nothing. *)
Definition attach_output (c : Command) (output : value) : Command :=
  MkCommand (cmd_class c) (_attributes c) output.

(** [GasScattering.__str__(selfs)]: the f-string first formats the header,
    [super().__str__().rstrip()], then looks up the name [s], which neither
    the method nor the module binds. *)
Definition GasScattering__str__ (c : Command) : outcome string :=
  let? header := __str__ c in
  Raises (OtherException "NameError").
End command.
End Cmd.

(** ** The input sequence *)

(** A key of a mapping of parameters: the text ["label.parameter"] or a tuple
    of texts. *)
Inductive key : Type :=
| KStr (s : string)
| KTuple (parts : list string).

Global Instance key_eq_dec : EqDecision key.
Proof. solve_decision. Defined.

(** [MappedParametersType]: one concrete assignment, in insertion order. *)
Definition mapping : Type := list (key * value).

(** An element of [Input._paths]: the assignment, the temporary directory
    (by name) and whether Zgoubi ran there. *)
Record path_entry : Type := MkPath {
  pe_mapping : mapping;
  pe_dir : string;
  pe_executed : bool;
}.

(** The instance attributes of an [Input]; [_line] holds the locations of its
    commands, in order.  [_private] keeps any other underscore-named attribute
    assigned to the object. *)
Record Input : Type := MkInput {
  _name : string;
  _line : list loc;
  _paths : list path_entry;
  _optical_length : value;
  _reference_frame : value;
  _private : gmap string value;
}.

(** A validator: it returns [True] or raises. *)
Definition validator : Type := Input -> gmap loc Command -> outcome bool.

(** What the sources use and do not define: the namespace of the package
    [zgoubidoo.commands], the formats of the kinds that override [__str__],
    the factory [build] of a kind, the search of the [parse] library, the
    [mappings] of a [Beam], and the operating system's fresh names. *)
Class Package : Type := {
  commands_namespace : string -> option class;
  str_override : Command -> option (outcome string);
  class_build : class -> string -> bool -> outcome Command;
  parse_search_keyword : string -> option string;
  beam_mappings_of : Command -> list mapping;
  mkdtemp : option string -> nat -> string;
  uuid4_hex : nat -> string;
}.

(** The mutable world of a run: the command objects, the files written, and
    the counters behind fresh directory names and labels. *)
Record world : Type := MkWorld {
  objects : gmap loc Command;
  files : list (string * string);
  tmp_count : nat;
  uuid_count : nat;
}.

Global Instance Command_inhabited : Inhabited Command :=
  populate (MkCommand Kinds.Command_class ∅ VNone).

(** What [Input.__getitem__] accepts. *)
Inductive slice_bound : Type :=
| BNone
| BInt (z : Z)
| BStr (label : string)
| BCmd (l : loc).

Inductive item : Type :=
| ItemStr (s : string)
| ItemClass (cls : class).

Inductive selector : Type :=
| SelIndex (z : Z)
| SelSlice (start stop : slice_bound) (step : option Z)
| SelOne (i : item)
| SelMany (items : list item).

Inductive selected : Type :=
| OneCommand (l : loc)
| NewInput (inp : Input).

(** A command named by its [LABEL1] or given as the object itself: what
    [index], [replace], the insertions and [-=] accept. *)
Inductive operand : Type :=
| ByLabel (label : string)
| ByCommand (l : loc).

Module Inp.
Section input.
Context `{Units} `{Package}.
Local Open Scope string_scope.

Abbreviation heap := (gmap loc Command).

(** [Input.__init__(self, name, line)]: the line is copied into a new deque. *)
Definition __init__ (name : string) (line : list loc) : Input :=
  MkInput name line [] (VQuantity (VInt 0) "m") VNone ∅.

Definition __len__ (self : Input) : nat := length (_line self).
Definition line (self : Input) : list loc := _line self.
Definition name (self : Input) : string := _name self.
Definition paths (self : Input) : list path_entry := _paths self.

(** Property [mappings]. *)
Definition mappings (self : Input) : list mapping := map pe_mapping (paths self).


(** [get_attributes(self, attribute)]: [getattr] with [None] as default,
    which replaces an [AttributeError] only. *)
Definition get_attributes (self : Input) (attribute : string) (h : heap)
  : outcome (list value) :=
  mapM (fun l =>
          match Cmd.getattr (h !!! l) attribute with
          | Raises AttributeError => Returns VNone
          | r => r
          end) (_line self).

Definition labels (self : Input) (h : heap) : outcome (list value) :=
  get_attributes self "LABEL1" h.

(** [Input.__iadd__(self, command)]. *)
Definition __iadd__ (self : Input) (command : loc) : Input :=
  MkInput (_name self) (_line self ++ [command])%list (_paths self)
    (_optical_length self) (_reference_frame self) (_private self).

Definition set_line (self : Input) (l : list loc) : Input :=
  MkInput (_name self) l (_paths self)
    (_optical_length self) (_reference_frame self) (_private self).

Definition set_paths (self : Input) (ps : list path_entry) : Input :=
  MkInput (_name self) (_line self) ps
    (_optical_length self) (_reference_frame self) (_private self).

(** The scan of [Input.__getattr__(self, item)]. *)
Fixpoint find_label (h : heap) (line : list loc) (item : string) : outcome loc :=
  match line with
  | [] => Raises AttributeError
  | e :: rest =>
      let? label := Cmd.getattr (h !!! e) "LABEL1" in
      if py_eq label (VStr item) then Returns e else find_label h rest item
  end.

Definition __getattr__ (self : Input) (item : string) (h : heap) : outcome loc :=
  find_label h (_line self) item.

(** Names that ordinary lookup finds on an [Input] object or its class. *)
Definition native_names : list string :=
  [ "_name"; "_line"; "_paths"; "_optical_length"; "_reference_frame";
    "_generate"; "_filter"; "apply"; "cleanup"; "validate"; "update";
    "adjust"; "index"; "zgoubi_index"; "replace"; "insert_before";
    "insert_after"; "remove"; "get_attributes"; "labels"; "labels1";
    "labels2"; "name"; "paths"; "mappings"; "keywords"; "line";
    "optical_length"; "valid_survey"; "survey_reference_frame"; "beam";
    "beam_mappings"; "increase_optical_length"; "reset_optical_lenght";
    "survey"; "clear_survey"; "plot"; "save"; "from_sequence"; "write";
    "build"; "parse" ].

(** [getattr(self, item)] where a command is expected: a name bound on the
    object or its class does not reach [__getattr__] and is not followed. *)
Definition getattr (self : Input) (item : string) (h : heap) : outcome loc :=
  if bool_decide (item ∈ native_names) || PyStr.startswith item "__"
     || bool_decide (is_Some (_private self !! item))
  then Raises OutOfModel
  else __getattr__ self item h.

(** [self.__dict__[key] = value] for an underscore-named [key]. *)
Definition set_private (self : Input) (key : string) (v : value) : outcome Input :=
  if String.eqb key "_name" then
    match v with
    | VStr s => Returns (MkInput s (_line self) (_paths self)
                           (_optical_length self) (_reference_frame self) (_private self))
    | _ => Raises OutOfModel
    end
  else if String.eqb key "_optical_length" then
    Returns (MkInput (_name self) (_line self) (_paths self) v
               (_reference_frame self) (_private self))
  else if String.eqb key "_reference_frame" then
    Returns (MkInput (_name self) (_line self) (_paths self)
               (_optical_length self) v (_private self))
  else if String.eqb key "_line" || String.eqb key "_paths" then Raises OutOfModel
  else Returns (MkInput (_name self) (_line self) (_paths self)
                  (_optical_length self) (_reference_frame self)
                  (<[key := v]> (_private self))).

(** The loop of [Input.__setattr__] over the commands; [set] is the
    [__setattr__] that [setattr(e, key, value)] dispatches to. *)
Fixpoint broadcast_with (set : Command -> string -> value -> outcome Command)
    (line : list loc) (key : string) (v : value) (h : heap)
  : outcome unit * heap :=
  match line with
  | [] => (Returns tt, h)
  | e :: rest =>
      match set (h !!! e) key v with
      | Returns c => broadcast_with set rest key v (<[e := c]> h)
      | Raises ZgoubidooException => broadcast_with set rest key v h
      | Raises x => (Raises x, h)
      end
  end.

(** Every kind of these sources inherits [Command.__setattr__]. *)
Definition broadcast : list loc -> string -> value -> heap -> outcome unit * heap :=
  broadcast_with Cmd.__setattr__.

(** [Input.__setattr__(self, key, value)]. *)
Definition __setattr__ (self : Input) (key : string) (v : value) (h : heap)
  : outcome Input * heap :=
  if PyStr.startswith key "_" then
    (set_private self key v, h)
  else
    match broadcast (_line self) key v h with
    | (Returns _, h') => (Returns self, h')
    | (Raises x, h') => (Raises x, h')
    end.

(** The parts of a key: [k.split('.')], or [k] itself when it has no
    [split]. *)
Definition key_parts (k : key) : list string :=
  match k with
  | KStr s => PyStr.split "." s
  | KTuple parts => parts
  end.

(** [Input.adjust(self, mapping)]: the loop, with the values recorded so
    far. *)
Fixpoint adjust_loop (items : mapping) (initial_values : mapping)
    (self : Input) (h : heap) : outcome mapping * Input * heap :=
  match items with
  | [] => (Returns initial_values, self, h)
  | (k, v) :: rest =>
      match key_parts k with
      | [] | [_] => adjust_loop rest initial_values self h
      | [anchor; parameter] =>
          if String.eqb anchor "ALL_LINE" then
            let initial_values := dict_set k VNone initial_values in
            match __setattr__ self parameter v h with
            | (Returns self', h') => adjust_loop rest initial_values self' h'
            | (Raises x, h') => (Raises x, self, h')
            end
          else
            match getattr self anchor h with
            | Raises x => (Raises x, self, h)
            | Returns e =>
                match Cmd.getattr (h !!! e) (PyStr.rstrip ["_"%char] parameter) with
                | Raises x => (Raises x, self, h)
                | Returns previous =>
                    let initial_values := dict_set k previous initial_values in
                    match Cmd.__setattr__ (h !!! e) parameter v with
                    | Raises x => (Raises x, self, h)
                    | Returns c => adjust_loop rest initial_values self (<[e := c]> h)
                    end
                end
            end
      | _ => (Raises AssertionError, self, h)
      end
  end.

Definition adjust (self : Input) (m : mapping) (h : heap)
  : outcome mapping * Input * heap :=
  adjust_loop m [] self h.

(** [str(c)] for a command: the format of its kind. *)
Definition str_command (c : Command) : outcome string :=
  match str_override c with
  | Some text => text
  | None => Cmd.__str__ c
  end.

(** [Input.index(self, obj)] for a command object and for a label. *)
Fixpoint index_of_loc (line : list loc) (obj : loc) : outcome nat :=
  match line with
  | [] => Raises ValueError
  | e :: rest =>
      if bool_decide (e = obj) then Returns 0%nat
      else let? i := index_of_loc rest obj in Returns (S i)
  end.

Fixpoint index_of_label (h : heap) (line : list loc) (obj : string) : outcome nat :=
  match line with
  | [] => Raises ValueError
  | e :: rest =>
      let? label := Cmd.getattr (h !!! e) "LABEL1" in
      if py_eq label (VStr obj) then Returns 0%nat
      else let? i := index_of_label h rest obj in Returns (S i)
  end.

(** [Input._filter(self, items)]: the commands kept and the classes used.
    A text is looked up, capitalized, in the package; a name the package
    does not have empties the result.  [reduce] over no class at all
    raises as soon as a command is tried. *)
Definition _filter (self : Input) (items : list item) (h : heap)
  : outcome (list loc * list class) :=
  match
    mapM (fun x =>
            match x with
            | ItemStr s =>
                match commands_namespace (PyStr.capitalize s) with
                | Some cls => Returns cls
                | None => Raises AttributeError
                end
            | ItemClass cls => Returns cls
            end) items
  with
  | Raises _ => Returns ([], [])
  | Returns classes =>
      match classes, _line self with
      | [], _ :: _ => Raises TypeError
      | _, _ =>
          Returns (filter (fun e => isinstance (h !!! e) (map cls_name classes) = true)
                          (_line self),
                   classes)
      end
  end.

(** [itertools.islice(xs, start, stop, step)]. *)
Fixpoint stride {A} (step skip : nat) (xs : list A) : list A :=
  match xs with
  | [] => []
  | x :: xs' =>
      match skip with
      | O => x :: stride step (step - 1) xs'
      | S k => stride step k xs'
      end
  end.

Definition islice {A} (xs : list A) (start stop step : option Z)
  : outcome (list A) :=
  let bad (o : option Z) (least : Z) :=
    match o with Some z => (z <? least)%Z | None => false end in
  if bad start 0%Z || bad stop 0%Z || bad step 1%Z then Raises ValueError
  else
    let a := Z.to_nat (default 0%Z start) in
    let rest := drop a xs in
    let window :=
      match stop with
      | Some b => take (Z.to_nat b - a) rest
      | None => rest
      end in
    Returns (stride (Z.to_nat (default 1%Z step)) 0 window).

(** The text an f-string inserts for [getattr(bound, 'LABEL1', bound)]. *)
Definition bound_text (b : slice_bound) (h : heap) : outcome string :=
  match b with
  | BNone => Returns "None"
  | BInt z => Returns (py_format (VInt z))
  | BStr s => Returns s
  | BCmd l =>
      match Cmd.getattr (h !!! l) "LABEL1" with
      | Raises AttributeError => str_command (h !!! l)
      | Raises x => Raises x
      | Returns label => Returns (py_format label)
      end
  end.

(** The text of a tuple of names as an f-string inserts it. *)
Definition tuple_text (names : list string) : string :=
  match names with
  | [one] => "('" ++ one ++ "',)"
  | _ => "(" ++ PyStr.join ", " (map (fun n => "'" ++ n ++ "'") names) ++ ")"
  end.

Definition filtered_name (self : Input) (items : list item) : string :=
  let names :=
    map (fun x => match x with ItemStr s => s | ItemClass cls => cls_name cls end)
        items in
  PyStr.rstrip ["_"%char]
    (PyStr.replace ")" ""
       (PyStr.replace "(" ""
          (PyStr.replace "'" ""
             (PyStr.replace " " ""
                (PyStr.replace "," "_"
                   (_name self ++ "_filtered_by_" ++ tuple_text names)))))).

Definition resolve_bound (self : Input) (b : slice_bound) (h : heap)
  : outcome (option Z) :=
  match b with
  | BNone => Returns None
  | BInt z => Returns (Some z)
  | BStr s => let? i := index_of_label h (_line self) s in Returns (Some (Z.of_nat i))
  | BCmd l => let? i := index_of_loc (_line self) l in Returns (Some (Z.of_nat i))
  end.

(** [Input.__getitem__(self, items)]. *)
Definition __getitem__ (self : Input) (items : selector) (h : heap)
  : outcome selected :=
  match items with
  | SelIndex z =>
      let n := Z.of_nat (length (_line self)) in
      let i := if (z <? 0)%Z then (z + n)%Z else z in
      if (i <? 0)%Z then Raises IndexError
      else match _line self !! Z.to_nat i with
           | Some e => Returns (OneCommand e)
           | None => Raises IndexError
           end
  | SelSlice b_start b_stop step =>
      let? start := resolve_bound self b_start h in
      let? stop := resolve_bound self b_stop h in
      let stop :=
        match b_stop with
        | BStr _ | BCmd _ => (fun z => z + 1)%Z <$> stop
        | _ => stop
        end in
      let? from_text := bound_text b_start h in
      let? to_text := bound_text b_stop h in
      let? sliced := islice (_line self) start stop step in
      Returns (NewInput (__init__ (_name self ++ "_sliced_from_" ++ from_text
                                   ++ "_to_" ++ to_text) sliced))
  | SelOne i =>
      let? r := _filter self [i] h in
      Returns (NewInput (__init__ (filtered_name self [i]) r.1))
  | SelMany l =>
      let? r := _filter self l h in
      Returns (NewInput (__init__ (filtered_name self l) r.1))
  end.

(** Property [beam]. *)
Definition beam (self : Input) (h : heap) : outcome (option loc) :=
  let? found := __getitem__ self (SelOne (ItemStr "BEAM")) h in
  match found with
  | OneCommand _ => Raises OutOfModel
  | NewInput found =>
      if (1 <? length (_line found))%nat
      then Raises (ZgoubiInputException "Multiple beams found in input.")
      else Returns (head (_line found))
  end.

(** Property [beam_mappings]. *)
Definition beam_mappings (self : Input) (h : heap) : outcome (list mapping) :=
  let? b := beam self h in
  match b with
  | None => Returns []
  | Some l => Returns (beam_mappings_of (h !!! l))
  end.

(** [Input.remove(self, prefix)]. *)
Definition remove (self : Input) (prefix : string) (h : heap) : outcome Input :=
  let? kept :=
    mapM (fun e =>
            let? label := Cmd.getattr (h !!! e) "LABEL1" in
            match label with
            | VStr s =>
                Returns (e, negb (String.eqb s prefix
                                  || PyStr.startswith s (prefix ++ "_")))
            | other =>
                if py_eq other (VStr prefix) then Returns (e, false)
                else Raises AttributeError
            end) (_line self) in
  Returns (set_line self (map fst (filter (fun p => p.2 = true) kept))).

(** [Input.build(name, line)]; [uuid] labels the [End] it may create. *)
Definition build (uuid : string) (name : string) (line : list loc) (h : heap)
  : outcome string :=
  let extra_end :=
    if (length line =? 0)%nat
       || negb (isinstance (h !!! List.last line 0%nat) [cls_name Kinds.End])
    then [Cmd.__init__ Kinds.End uuid "" "" [] []]
    else [] in
  let? texts := mapM str_command (map (fun e => h !!! e) line ++ extra_end)%list in
  Returns (PyStr.join "" (name :: texts)).

(** The specification's reading of serialization: the header, then each
    command's text in order, then a terminal block unless the last element
    is an [End]. *)
Definition ends_with_End (line : list loc) (h : heap) : bool :=
  match last line with
  | Some e => isinstance (h !!! e) ["End"]
  | None => false
  end.

Definition spec_serialize (uuid : string) (name : string) (line : list loc)
    (h : heap) : outcome string :=
  let? texts := mapM str_command (map (fun e => h !!! e) line) in
  let? terminal :=
    if ends_with_End line h then Returns ""
    else str_command (Cmd.__init__ Kinds.End uuid "" "" [] []) in
  Returns (name ++ String.concat "" texts ++ terminal).

(** [Input.__str__(self)]; a label is drawn only when an [End] is made. *)
Definition __str__ (self : Input) (w : world) : outcome string * world :=
  (build (uuid4_hex (uuid_count w)) (_name self) (_line self) (objects w),
   if ends_with_End (_line self) (objects w) then w
   else MkWorld (objects w) (files w) (tmp_count w) (S (uuid_count w))).

(** [Input.validate(self, validators)]. *)
Fixpoint run_validators (vs : list validator) (self : Input) (h : heap)
  : outcome bool :=
  match vs with
  | [] => Returns true
  | v :: vs' => let? _ := v self h in run_validators vs' self h
  end.

Definition validate (self : Input) (validators : option (list validator))
    (h : heap) : outcome bool :=
  match validators with
  | Some vs => run_validators vs self h
  | None => Returns true
  end.

(** The file at [path] with the content [text]: what [open(path, 'w')]
    leaves with the empty text, and [f.write(text)] after it with [text]. *)
Definition write_file (path text : string) (w : world) : world :=
  MkWorld (objects w) (dict_set path text (files w)) (tmp_count w) (uuid_count w).

(** [Input.write(_, filename, path, mode='w', validators)]: the validation,
    then [open], which creates the file or empties it, then [str(_)], whose
    text is written; the result of [f.write] is the number of characters. *)
Definition write (self : Input) (filename path : string)
    (validators : option (list validator)) (w : world) : outcome nat * world :=
  match validate self validators (objects w) with
  | Raises x => (Raises x, w)
  | Returns _ =>
      let target := PyStr.path_join path filename in
      match __str__ self (write_file target "" w) with
      | (Raises x, w') => (Raises x, w')
      | (Returns text, w') => (Returns (PyStr.len text), write_file target text w')
      end
  end.

(** [a == b] on two mappings: the same keys with equal values. *)
Definition mapping_eq (a b : mapping) : bool :=
  (length a =? length b)%nat
  && forallb (fun kv =>
                match dict_get kv.1 b with
                | Some v => py_eq kv.2 v
                | None => false
                end) a.

(** [{**a, **b}]. *)
Definition merge (a b : mapping) : mapping :=
  fold_left (fun d kv => dict_set kv.1 kv.2 d) b a.

(** [shutil.rmtree(dir)], as the destruction of a [TemporaryDirectory]
    does it.  The world keeps the files by path: the files of a directory are
    the paths below its name. *)
Definition below (dir path : string) : bool :=
  PyStr.startswith path (PyStr.rstrip ["/"%char] dir ++ "/").

Definition rmtree (dir : string) (w : world) : world :=
  MkWorld (objects w) (filter (fun pf => below dir pf.1 = false) (files w))
    (tmp_count w) (uuid_count w).

(** The directory of a path entry is a [tempfile.TemporaryDirectory] object,
    which its entry alone refers to.  Once the entry is deleted from
    [_paths], only the loop variable [p] still refers to it: when [p] is
    bound again, or when [_generate] returns, the object is destroyed and its
    directory removed with the files inside.  [held] is the directory of such
    an entry, if there is one. *)
Definition release (held : option string) (w : world) : world :=
  match held with
  | Some dir => rmtree dir w
  | None => w
  end.

(** The inner loop of [_generate]: [del self._paths[i]] while enumerating
    the same list; the iterator moves on by one whatever was deleted. *)
Fixpoint drop_paths (fuel i : nat) (m : mapping) (ps : list path_entry)
    (held : option string) (w : world)
  : list path_entry * option string * world :=
  match fuel with
  | O => (ps, held, w)
  | S fuel' =>
      match ps !! i with
      | None => (ps, held, w)
      | Some p =>
          let w := release held w in
          if mapping_eq (pe_mapping p) m
          then drop_paths fuel' (S i) m (delete i ps) (Some (pe_dir p)) w
          else drop_paths fuel' (S i) m ps None w
      end
  end.

(** [tempfile.TemporaryDirectory(prefix=path)]. *)
Definition TemporaryDirectory (prefix : option string) (w : world) : string * world :=
  (mkdtemp prefix (tmp_count w),
   MkWorld (objects w) (files w) (S (tmp_count w)) (uuid_count w)).

Definition with_objects (w : world) (h : heap) : world :=
  MkWorld h (files w) (tmp_count w) (uuid_count w).

(** The outer loop of [Input._generate].  [initial_state] starts as the
    empty dict and is only replaced when it [is None]. *)
Fixpoint generate_loop (ms : list mapping) (initial_state : option mapping)
    (path : option string) (filename : string) (acc : list path_entry)
    (held : option string) (self : Input) (w : world)
  : outcome (list path_entry * option mapping * option string) * Input * world :=
  match ms with
  | [] => (Returns (acc, initial_state, held), self, w)
  | m :: rest =>
      let '(self, held, w) :=
        if existsb (fun known => mapping_eq known m) (mappings self)
        then
          let '(kept, held, w) :=
            drop_paths (length (_paths self)) 0 m (_paths self) held w in
          (set_paths self kept, held, w)
        else (self, held, w) in
      match adjust self m (objects w) with
      | (Raises x, self', h') => (Raises x, self', with_objects w h')
      | (Returns previous_state, self', h') =>
          let w := with_objects w h' in
          let initial_state :=
            match initial_state with
            | None => Some previous_state
            | Some s => Some s
            end in
          let path := (fun p => PyStr.rstrip ["/"%char] p ++ "/") <$> path in
          let (target_dir, w) := TemporaryDirectory path w in
          let acc := (acc ++ [MkPath m target_dir false])%list in
          match write self' filename target_dir None w with
          | (Raises x, w') => (Raises x, self', w')
          | (Returns _, w') =>
              generate_loop rest initial_state path filename acc held self' w'
          end
      end
  end.

(** [Input._generate(self, mappings, filename, path)]. *)
Definition _generate (self : Input) (ms : option (list mapping))
    (filename : string) (path : option string) (w : world)
  : outcome (list path_entry) * Input * world :=
  let ms := match ms with None | Some [] => [[]] | Some l => l end in
  match beam_mappings self (objects w) with
  | Raises x => (Raises x, self, w)
  | Returns bms =>
      let ms :=
        if (0 <? length bms)%nat
        then flat_map (fun a => map (fun b => merge a b) bms) ms
        else ms in
      match generate_loop ms (Some []) path filename [] None self w with
      | (Raises x, self', w') => (Raises x, self', w')
      | (Returns (generated, initial_state, held), self', w') =>
          match initial_state with
          | None => (Raises AttributeError, self', w')
          | Some state =>
              match adjust self' state (objects w') with
              | (Raises x, self'', h'') => (Raises x, self'', with_objects w' h'')
              | (Returns _, self'', h'') =>
                  (Returns generated, self'', release held (with_objects w' h''))
              end
          end
      end
  end.

(** [Input.__call__(self, mappings, filename, path)]. *)
Definition __call__ (self : Input) (ms : option (list mapping))
    (filename : string) (path : option string) (w : world)
  : outcome Input * world :=
  match _generate self ms filename path w with
  | (Raises x, _, w') => (Raises x, w')
  | (Returns generated, self', w') =>
      (Returns (set_paths self' (paths self' ++ generated)%list), w')
  end.





(** [Input.__isub__(self, other)]: the commands whose [LABEL1] differs from
    the text, or the commands other than the object, in a new list. *)
Definition __isub__ (self : Input) (other : operand) (h : heap) : outcome Input :=
  match other with
  | ByLabel s =>
      let? kept :=
        mapM (fun c =>
                let? label := Cmd.getattr (h !!! c) "LABEL1" in
                Returns (c, negb (py_eq label (VStr s)))) (_line self) in
      Returns (set_line self (map fst (filter (fun p => p.2 = true) kept)))
  | ByCommand l =>
      Returns (set_line self (filter (fun c => c <> l) (_line self)))
  end.

(** [Input.__contains__(self, items)]: what is not a tuple is wrapped into
    one; the result is the number of commands kept by [_filter]. *)
Definition __contains__ (self : Input) (items : item + list item) (h : heap)
  : outcome nat :=
  let items := match items with inl i => [i] | inr l => l end in
  let? r := _filter self items h in
  Returns (length r.1).

(** [Input.index(self, obj)]. *)
Definition index (self : Input) (obj : operand) (h : heap) : outcome nat :=
  match obj with
  | ByCommand l => index_of_loc (line self) l
  | ByLabel s => index_of_label h (line self) s
  end.

(** [Input.zgoubi_index(self, obj)]: the conditional expression binds
    weaker than the sum, so that [1] is the whole result without a beam. *)
Definition zgoubi_index (self : Input) (obj : operand) (h : heap) : outcome nat :=
  let? b := beam self h in
  match b with
  | Some _ => let? i := index self obj h in Returns (i + 3)%nat
  | None => Returns 1%nat
  end.

(** [Input.replace(self, element, other)]. *)
Definition replace (self : Input) (element : operand) (other : loc) (h : heap)
  : outcome Input :=
  let? i := index self element h in
  Returns (set_line self (<[i := other]> (line self))).

(** [line.insert(i, x)] for a position within the line. *)
Definition insert_at {A} (i : nat) (x : A) (l : list A) : list A :=
  take i l ++ x :: drop i l.

(** [Input.insert_before(self, element, other)]. *)
Definition insert_before (self : Input) (element : operand) (other : loc) (h : heap)
  : outcome Input :=
  let? i := index self element h in
  Returns (set_line self (insert_at i other (line self))).

(** [Input.insert_after(self, element, other)]. *)
Definition insert_after (self : Input) (element : operand) (other : loc) (h : heap)
  : outcome Input :=
  let? i := index self element h in
  Returns (set_line self (insert_at (i + 1) other (line self))).
End input.
End Inp.

(** ** Validators *)

Module ZgoubiInputValidator.
Section validators.
Context `{Units} `{Package}.
Local Open Scope string_scope.

(** [validate_objet_is_first_command(_)]. *)
Definition validate_objet_is_first_command (inp : Input) (h : gmap loc Command)
  : outcome bool :=
  let line := Inp.line inp in
  if (0 <? Inp.__len__ inp)%nat
     && negb (isinstance (h !!! List.hd 0%nat line) ["Objet"; "MCObjet"])
  then Raises (ZgoubiInputException
                 "The first command in the input is not an Objet. (or MCObjet).")
  else Returns true.
End validators.
End ZgoubiInputValidator.

(** ** Input objects

    Two [Input] objects are two records of the store [inputs]; the commands
    they list live in [commands] and may be the same objects. *)

Record store : Type := MkStore {
  commands : gmap loc Command;
  inputs : gmap loc Input;
}.

Global Instance Input_inhabited : Inhabited Input :=
  populate (MkInput EmptyString [] [] VNone VNone ∅).

Inductive selected_object : Type :=
| CommandAt (l : loc)
| InputAt (r : loc).

Module Obj.
Section objects.
Context `{Units} `{Package}.

(** A method that may rebind attributes of [self] and mutate commands. *)
Definition method : Type :=
  Input -> gmap loc Command -> outcome Input * gmap loc Command.

(** Calling [body] on the input object at [self]. *)
Definition call (self : loc) (body : method) (st : store) : outcome unit * store :=
  match body (inputs st !!! self) (commands st) with
  | (Returns inp, h) => (Returns tt, MkStore h (<[self := inp]> (inputs st)))
  | (Raises x, h) => (Raises x, MkStore h (inputs st))
  end.

(** [self[items]]: a new [Input] is a new object of the store. *)
Definition getitem (self : loc) (items : selector) (st : store)
  : outcome selected_object * store :=
  match Inp.__getitem__ (inputs st !!! self) items (commands st) with
  | Raises x => (Raises x, st)
  | Returns (OneCommand l) => (Returns (CommandAt l), st)
  | Returns (NewInput inp) =>
      let r := fresh (dom (inputs st)) in
      (Returns (InputAt r), MkStore (commands st) (<[r := inp]> (inputs st)))
  end.

(** [self.key = v]. *)
Definition setattr (key : string) (v : value) : method :=
  fun inp h => Inp.__setattr__ inp key v h.

(** [self += command]. *)
Definition iadd (command : loc) : method :=
  fun inp h => (Returns (Inp.__iadd__ inp command), h).

(** [self.remove(prefix)]. *)
Definition remove (prefix : string) : method :=
  fun inp h => (Inp.remove inp prefix h, h).
End objects.
End Obj.

(** ** A reference environment

    One concrete unit system and package, used to run the model on examples.
    Numbers are dimensionless quantities, no text names a unit, the package
    namespace is the module [commands.py] of these sources, every kind uses
    the inherited format, and no kind has a [build] (none is defined in these
    sources, so the attribute lookup fails). *)

Module Reference.
Local Open Scope string_scope.

Fixpoint value_eqb (v w : value) : bool :=
  let fix all2 (xs ys : list value) : bool :=
    match xs, ys with
    | [], [] => true
    | x :: xs', y :: ys' => value_eqb x y && all2 xs' ys'
    | _, _ => false
    end in
  match v, w with
  | VNone, VNone => true
  | VBool a, VBool b => Bool.eqb a b
  | VInt a, VInt b => (a =? b)%Z
  | VFloat a, VFloat b => String.eqb a b
  | VStr a, VStr b => String.eqb a b
  | VTuple xs, VTuple ys => all2 xs ys
  | VList xs, VList ys => all2 xs ys
  | VQuantity m u, VQuantity m' u' => value_eqb m m' && String.eqb u u'
  | _, _ => false
  end.

Definition reference_Q_ (v : value) : outcome value :=
  match v with
  | VBool _ | VInt _ | VFloat _ => Returns (VQuantity v "dimensionless")
  | VQuantity _ _ => Returns v
  | VStr _ => Raises UndefinedUnitError
  | VNone | VTuple _ | VList _ => Raises TypeError
  end.

Fixpoint reference_format (v : value) : string :=
  match v with
  | VNone => "None"
  | VBool b => if b then "True" else "False"
  | VInt z => pretty.pretty z
  | VFloat literal => literal
  | VStr s => s
  | VTuple _ => "(...)"
  | VList _ => "[...]"
  | VQuantity m u => reference_format m ++ " " ++ u
  end.

Global Instance units : Units := {|
  Q_ := reference_Q_;
  dimensionless_units := fun u => String.eqb u "dimensionless";
  quantity_eq := value_eqb;
  format_value := reference_format;
|}.

(** The text between the first quote and the next one, one character at
    least: what the pattern ['{KEYWORD}'] finds. *)
Fixpoint until_quote (s : string) : option string :=
  match s with
  | EmptyString => None
  | String a s' =>
      if Ascii.eqb a "'"%char then Some EmptyString
      else String a <$> until_quote s'
  end.

Fixpoint search_keyword (s : string) : option string :=
  match s with
  | EmptyString => None
  | String a s' =>
      if Ascii.eqb a "'"%char then
        match s' with
        | EmptyString => None
        | String b s'' =>
            match until_quote s'' with
            | Some text => Some (String b text)
            | None => search_keyword s'
            end
        end
      else search_keyword s'
  end.

Global Instance package : Package := {|
  commands_namespace := fun name => dict_get name Kinds.module_names;
  str_override := fun _ => None;
  class_build := fun _ _ _ => Raises AttributeError;
  parse_search_keyword := search_keyword;
  beam_mappings_of := fun _ => [];
  mkdtemp := fun prefix n => default "/tmp/tmp" prefix ++ pretty.pretty n;
  uuid4_hex := fun n => "fedcba9876543210fedcba98765432" ++ pretty.pretty n;
|}.

(** The formats of the kinds: [GasScattering] has the one above, the kinds
    that only set their [KEYWORD] inherit the format of [Command], and the
    formats of the other kinds are not followed. *)
Definition formats (c : Command) : option (outcome string) :=
  let name := cls_name (cmd_class c) in
  if String.eqb name "GasScattering" then Some (Cmd.GasScattering__str__ c)
  else if bool_decide (name ∈ map fst Kinds.plain_kinds) || String.eqb name "Command"
  then None
  else Some (Raises OutOfModel).

Definition formats_package : Package := {|
  commands_namespace := fun name => dict_get name Kinds.module_names;
  str_override := formats;
  class_build := fun _ _ _ => Raises AttributeError;
  parse_search_keyword := search_keyword;
  beam_mappings_of := fun _ => [];
  mkdtemp := fun prefix n => default "/tmp/tmp" prefix ++ pretty.pretty n;
  uuid4_hex := fun n => "fedcba9876543210fedcba98765432" ++ pretty.pretty n;
|}.
End Reference.

(** ** Vocabulary of the statements *)

(** The specification's "source kind": an [Objet] or an [MCObjet]. *)
Definition source_kind (c : Command) : Prop :=
  "Objet"%string ∈ cls_mro (cmd_class c) \/ "MCObjet"%string ∈ cls_mro (cmd_class c).

(** The exceptions [Command.__getattr__] catches around [Q_]. *)
Definition caught (e : exn) : bool :=
  match e with
  | TypeError | ValueError | UndefinedUnitError => true
  | _ => false
  end.

(** The names a kind declares: its [PARAMETERS] and those of [Command]. *)
Definition declared (cls : class) : list string :=
  map fst Kinds.Command_PARAMETERS ++ map fst (PARAMETERS cls).

(** The command with [key] bound to [v] in its parameter table. *)
Definition stored (key : string) (v : value) (c : Command) : Command :=
  MkCommand (cmd_class c) (<[key := v]> (_attributes c)) (_output c).

(** A name that reaches [Command.__getattr__] and the parameter table. *)
Definition is_parameter_name (a : string) : bool :=
  negb (bool_decide (a ∈ Kinds.native_names)) && negb (PyStr.startswith a "__").

(** An entry of the parameter table of the command at a location. *)
Definition entry (h : gmap loc Command) (t : loc * string) : option value :=
  _attributes (h !!! t.1) !! t.2.

(** The assignments [command.parameter = v], in order. *)
Definition assign_all (tvs : list ((loc * string) * value)) (h : gmap loc Command)
  : gmap loc Command :=
  fold_left (fun h tv => <[tv.1.1 := stored tv.1.2 tv.2 (h !!! tv.1.1)]> h) tvs h.

(** Two stores whose commands carry the same [LABEL1] entries. *)
Definition same_labels (h h' : gmap loc Command) : Prop :=
  forall e, entry h (e, "LABEL1"%string) = entry h' (e, "LABEL1"%string).

Section addressing.
Context `{Units}.

(** The command and parameter a key addresses. *)
Definition target (self : Input) (h : gmap loc Command) (k : key)
  : outcome (loc * string) :=
  match Inp.key_parts k with
  | [anchor; parameter] =>
      let? e := Inp.getattr self anchor h in Returns (e, parameter)
  | _ => Raises AssertionError
  end.

(** A key with an anchor other than the wildcard and an ordinary parameter
    name: no trailing underscore, not [LABEL1]. *)
Definition plain_key (k : key) : Prop :=
  exists anchor parameter,
    Inp.key_parts k = [anchor; parameter]
    /\ anchor <> "ALL_LINE"%string
    /\ is_parameter_name parameter = true
    /\ PyStr.rstrip ["_"%char] parameter = parameter
    /\ parameter <> "LABEL1"%string.
End addressing.

(** ** Example data *)

Module Examples.
Local Open Scope string_scope.

(** The scenario of the specification. *)
Definition scenario : ParametricMapping.t (string * string) Z :=
  ParametricMapping.Build
    [ [(("B1", "K"), [1; 2])]; [(("B2", "K"), [10; 20; 30])] ].

Definition empty_lists : ParametricMapping.t (string * string) Z :=
  ParametricMapping.Build [ [(("B1", "K"), [])] ].

Definition mismatched : ParametricMapping.t (string * string) Z :=
  ParametricMapping.Build [ [(("B1", "K"), [1; 2]); (("B2", "K"), [10])] ].

(** Three [ParametricMapping] objects, each with a list of its own: the
    default one, and two with one label each. *)
Definition three_mappings : ParametricMapping.objects (string * string) Z :=
  ParametricMapping.Objects
    (<[0%nat := 0%nat]> (<[1%nat := 1%nat]> (<[2%nat := 2%nat]> ∅)))
    (<[0%nat := [[]]]>
       (<[1%nat := [ [(("B1", "K"), [1; 2])] ]]>
          (<[2%nat := [ [(("B2", "K"), [10; 20; 30])] ]]> ∅))).

(** A sequence of two [Faisceau] commands, and the stores that hold it. *)
Definition faisceau (label1 label2 : string) : Command :=
  Cmd.__init__ Kinds.Faisceau "fedcba9876543210fedcba9876543210" label1 label2 [] [].

Definition two_commands : gmap loc Command :=
  <[0%nat := faisceau "MARK1" "TAG1"]> (<[1%nat := faisceau "MARK2" ""]> ∅).

Definition beamline : Input := Inp.__init__ "beamline" [0%nat; 1%nat].

Definition beamline_store : store := MkStore two_commands (<[0%nat := beamline]> ∅).

Definition fresh_world : world := MkWorld two_commands [] 0 0.

Definition label2_of_MARK1 : key := KTuple ["MARK1"; "LABEL2"].
Definition label2_of_all : key := KTuple ["ALL_LINE"; "LABEL2"].

Definition retag : mapping := [(label2_of_MARK1, VStr "TAG2")].
Definition retag_all : mapping := [(label2_of_all, VStr "TAG2")].

Definition end_command : Command :=
  Cmd.__init__ Kinds.End "fedcba9876543210fedcba9876543210" "END1" "" [] [].

(** A sequence that holds a [GasScattering] between the two commands. *)
Definition gas_command : Command :=
  Cmd.__init__ Kinds.GasScattering "fedcba9876543210fedcba9876543210" "GAS1" "" [] [].

Definition with_gas : gmap loc Command := <[2%nat := gas_command]> two_commands.

End Examples.

(** * Properties *)

(** ** The combinations of a parametric mapping *)

Section combinations_facts.
Import ParametricMapping.
Context {K V : Type} `{EqDecision K}.
Implicit Types (g : group K V) (pm : ParametricMapping.t K V).

Lemma product_step_cartesian {A} (x : list A) (p : list A) (C : list (list A)) :
  flat_map (fun x' => map (app x') C) (map (fun y => x ++ [y]) p)
  = map (app x) (flat_map (fun r => map (cons r) C) p).
Proof.
  induction p as [|y p IH]; simpl; [done|].
  rewrite IH, map_app. f_equal.
  rewrite map_map. apply map_ext. intros t. by rewrite <- app_assoc.
Qed.

Lemma product_fold_cartesian {A} (args : list (list A)) (acc : list (list A)) :
  fold_left
    (fun result pool => flat_map (fun x => map (fun y => x ++ [y]) pool) result)
    args acc
  = flat_map (fun x => map (app x) (cartesian args)) acc.
Proof.
  revert acc. induction args as [|p ps IH]; intros acc; simpl.
  - induction acc as [|x acc IHacc]; simpl; [done|].
    by rewrite app_nil_r, <- IHacc.
  - rewrite IH. induction acc as [|x acc IHacc]; simpl; [done|].
    rewrite flat_map_app, IHacc. f_equal. apply product_step_cartesian.
Qed.

Lemma product_cartesian {A} (args : list (list A)) : product args = cartesian args.
Proof.
  unfold product. rewrite product_fold_cartesian. simpl.
  rewrite app_nil_r. rewrite <- (map_id (cartesian args)) at 2.
  by apply map_ext.
Qed.

Lemma cartesian_length {A} (ps : list (list A)) :
  length (cartesian ps) = foldr Nat.mul 1%nat (map length ps).
Proof.
  induction ps as [|p ps IH]; simpl; [done|].
  rewrite <- IH. induction p as [|r p IHp]; simpl; [done|].
  by rewrite length_app, length_map, IHp.
Qed.

Lemma cartesian_empty_pool {A} (ps : list (list A)) :
  [] ∈ ps -> cartesian ps = [].
Proof.
  induction ps as [|p ps IH]; intros Hin; [by apply elem_of_nil in Hin|].
  apply elem_of_cons in Hin as [<-|Hin]; simpl; [done|].
  rewrite (IH Hin). by induction p.
Qed.

Lemma lockstep_length g : length (lockstep g) = group_len g.
Proof. unfold lockstep. by rewrite length_map, length_seq. Qed.

Lemma aligned_cons k vs g :
  aligned ((k, vs) :: g) -> Forall (fun kv => length kv.2 = length vs) g.
Proof.
  intros [n Hn]. inversion Hn as [|? ? Hvs Hg]; subst. simpl in *. by subst.
Qed.

Lemma zip_star_one (c : list V) : zip_star [c] = map (fun x => [x]) c.
Proof. done. Qed.

Lemma zip_star_more (c c' : list V) cs :
  zip_star (c :: c' :: cs) = zip_with cons c (zip_star (c' :: cs)).
Proof. done. Qed.

Lemma zip_star_lockstep g : aligned g -> zip_star (values g) = lockstep g.
Proof.
  induction g as [|[k vs] g IH]; intros Hal; [done|].
  pose proof (aligned_cons _ _ _ Hal) as Hg.
  assert (zip_star (values ((k, vs) :: g))
          = match g with
            | [] => map (fun x => [x]) vs
            | _ :: _ => zip_with cons vs (lockstep g)
            end) as ->.
  { destruct g as [|kv g]; [done|].
    rewrite <- IH by (exists (length vs); done). done. }
  unfold lockstep at 2. cbn [group_len].
  apply list_eq. intros i.
  rewrite list_lookup_fmap.
  destruct (decide (i < length vs)%nat) as [Hi|Hi].
  - rewrite lookup_seq_lt by done.
    destruct (lookup_lt_is_Some_2 vs i Hi) as [x Hx].
    simpl. rewrite Hx.
    destruct g as [|kv g].
    + by rewrite list_lookup_fmap, Hx.
    + rewrite lookup_zip_with, Hx. simpl.
      unfold lockstep. rewrite list_lookup_fmap.
      assert (group_len (kv :: g) = length vs) as ->.
      { inversion Hg; subst. by destruct kv. }
      by rewrite lookup_seq_lt by done.
  - rewrite lookup_seq_ge by lia. simpl.
    apply lookup_ge_None_2.
    destruct g as [|kv g].
    + rewrite length_map. lia.
    + rewrite length_zip_with. lia.
Qed.

Lemma pools_lockstep pm :
  Forall aligned (mappings pm) -> pools pm = map lockstep (mappings pm).
Proof.
  intros Hal. unfold pools. apply map_ext_Forall.
  eapply Forall_impl; [exact Hal|]. intros g Hg. by apply zip_star_lockstep.
Qed.

Lemma combinations_unfold pm :
  Forall aligned (mappings pm) ->
  combinations pm = match spec_combinations pm with [] => [[]] | l => l end.
Proof.
  intros Hal. unfold combinations, spec_combinations.
  by rewrite product_cartesian, map_map, pools_lockstep.
Qed.

Lemma spec_combinations_length pm :
  length (spec_combinations pm) = lengths_product pm.
Proof.
  unfold spec_combinations, lengths_product.
  rewrite length_map, cartesian_length, map_map. f_equal.
  apply map_ext. intros g. apply lockstep_length.
Qed.

Lemma lengths_product_pos pm :
  Forall (fun g => 0 < group_len g)%nat (mappings pm) -> (0 < lengths_product pm)%nat.
Proof.
  unfold lengths_product. induction 1 as [|g gs Hg _ IH]; simpl; [lia|nia].
Qed.

(** C1, as amended: when the value-lists of every group have one common
    length, [combinations] is the cartesian product of the lockstep pools of
    the groups, the first group being the outer loop, provided that common
    length is not zero in any group; its length is then the product of the
    groups' lengths.  When some group has no key or empty value-lists the
    result is the single empty combination, as it is with no group at all. *)
Theorem combinations_cartesian_product pm :
  Forall aligned (mappings pm) ->
  (Forall (fun g => 0 < group_len g)%nat (mappings pm) ->
     combinations pm = spec_combinations pm
     /\ length (combinations pm) = lengths_product pm)
  /\ (Exists (fun g => group_len g = 0%nat) (mappings pm) -> combinations pm = [[]])
  /\ (mappings pm = [] -> combinations pm = [[]]).
Proof.
  intros Hal. pose proof (combinations_unfold pm Hal) as Hc.
  split; [|split].
  - intros Hpos. apply lengths_product_pos in Hpos.
    rewrite <- spec_combinations_length in Hpos.
    destruct (spec_combinations pm) as [|c cs] eqn:Hs; [simpl in Hpos; lia|].
    rewrite Hc. split; [done|]. by rewrite <- spec_combinations_length, Hs.
  - intros Hex. rewrite Hc. unfold spec_combinations.
    rewrite cartesian_empty_pool; [done|].
    apply Exists_exists in Hex as (g & Hg & Hlen).
    apply list_elem_of_fmap. exists g. split; [|first [done | by apply list_elem_of_In]].
    unfold lockstep. by rewrite Hlen.
  - intros Hnil. unfold combinations, pools, labels. by rewrite Hnil.
Qed.

Lemma zip_star_shortest (g : group K V) :
  g <> [] ->
  Forall (fun kv => length (zip_star (values g)) <= length kv.2)%nat g
  /\ Exists (fun kv => length kv.2 = length (zip_star (values g))) g.
Proof.
  induction g as [|[k vs] g IH]; intros Hne; [done|].
  destruct g as [|kv g].
  - unfold values. cbn [map snd]. rewrite zip_star_one, length_map.
    split; [repeat constructor; simpl; lia | by constructor].
  - destruct IH as [IHall IHex]; [done|].
    unfold values in *. cbn [map snd] in *.
    rewrite zip_star_more, length_zip_with.
    set (n := length (zip_star (kv.2 :: map snd g))) in *.
    split.
    + constructor; [simpl; lia|].
      eapply Forall_impl; [exact IHall|]. simpl. intros; lia.
    + destruct (decide (length vs <= n)%nat).
      * apply Exists_cons_hd. simpl. lia.
      * apply Exists_cons_tl. eapply Exists_impl; [exact IHex|].
        simpl. intros; lia.
Qed.

Lemma zip_star_rows (g : group K V) i row :
  zip_star (values g) !! i = Some row ->
  Forall2 (fun kv x => kv.2 !! i = Some x) g row.
Proof.
  revert row. induction g as [|[k vs] g IH]; intros row Hrow; [done|].
  destruct g as [|kv g].
  - unfold values in Hrow. cbn [map snd] in Hrow.
    rewrite zip_star_one, list_lookup_fmap in Hrow.
    destruct (vs !! i) as [x|] eqn:Hx; [|done]. simpl in Hrow.
    injection Hrow as <-. by repeat constructor.
  - unfold values in *. cbn [map snd] in *.
    rewrite zip_star_more, lookup_zip_with in Hrow.
    destruct (vs !! i) as [x|] eqn:Hx; [|done].
    destruct (zip_star (kv.2 :: map snd g) !! i) as [r|] eqn:Hr; [|done].
    simpl in Hrow. injection Hrow as <-. constructor; [done|]. by apply IH.
Qed.

(** C3, as amended: computing the combinations never fails.  The pool of a
    group stops at its shortest value-list: it has the length of a shortest
    list, and its row [i] holds position [i] of every list of the group. *)
Theorem pools_truncate_to_shortest pm :
  combinations pm <> []
  /\ Forall2
       (fun g pool =>
          (g = [] -> pool = [])
          /\ (g <> [] ->
              Forall (fun kv => length pool <= length kv.2)%nat g
              /\ Exists (fun kv => length kv.2 = length pool) g)
          /\ (forall i row, pool !! i = Some row ->
              Forall2 (fun kv x => kv.2 !! i = Some x) g row))
       (mappings pm) (pools pm).
Proof.
  split.
  - unfold combinations. by destruct (map _ _).
  - unfold pools. apply Forall2_fmap_r, Forall_Forall2_diag, Forall_forall.
    intros g _. split; [by intros ->|]. split.
    + apply zip_star_shortest.
    + apply zip_star_rows.
Qed.
End combinations_facts.

(** C1, witness: the scenario of the specification has six combinations, the
    first and the last as stated. *)
Lemma combinations_scenario_witness :
  length (ParametricMapping.combinations Examples.scenario) = 6%nat
  /\ head (ParametricMapping.combinations Examples.scenario)
     = Some [(("B1", "K")%string, 1); (("B2", "K")%string, 10)]
  /\ last (ParametricMapping.combinations Examples.scenario)
     = Some [(("B1", "K")%string, 2); (("B2", "K")%string, 30)].
Proof.
  assert (Hal : Forall ParametricMapping.aligned
                  (ParametricMapping.mappings Examples.scenario)).
  { repeat constructor; eexists; repeat constructor. }
  destruct (combinations_cartesian_product Examples.scenario Hal) as [Hmain _].
  destruct Hmain as [Heq Hlen].
  { repeat constructor. }
  split; [exact Hlen|]. rewrite Heq. split; reflexivity.
Defined.

(** C1, counterexample: a group whose value-lists all have length zero gives
    one combination, not zero. *)
Lemma combinations_empty_lists_counterexample :
  Forall ParametricMapping.aligned (ParametricMapping.mappings Examples.empty_lists)
  /\ ParametricMapping.lengths_product Examples.empty_lists = 0%nat
  /\ ParametricMapping.combinations Examples.empty_lists = [[]]
  /\ length (ParametricMapping.combinations Examples.empty_lists) = 1%nat.
Proof.
  split; [|repeat split].
  repeat constructor. exists 0%nat. by repeat constructor.
Qed.

(** C3, counterexample: value-lists of lengths two and one in one group, and
    one combination is produced without any error. *)
Lemma combinations_mismatched_counterexample :
  Forall (fun g => ~ ParametricMapping.aligned g)
         (ParametricMapping.mappings Examples.mismatched)
  /\ ParametricMapping.combinations Examples.mismatched
     = [ [(("B1", "K")%string, 1); (("B2", "K")%string, 10)] ].
Proof.
  split; [|reflexivity].
  repeat constructor. intros [n Hn].
  inversion Hn as [|? ? H1 Hn']; subst. inversion Hn' as [|? ? H2 _]; subst.
  simpl in *. lia.
Qed.

(** ** Serialization *)

Section serialization.
Context `{Units} `{Package}.

Lemma mapM_app {A B} (f : A -> outcome B) (xs ys : list A) :
  mapM f (xs ++ ys)
  = let? us := mapM f xs in let? vs := mapM f ys in Returns (us ++ vs).
Proof.
  induction xs as [|x xs IH]; simpl.
  - by destruct (mapM f ys).
  - destruct (f x) as [y|e]; simpl; [|done].
    rewrite IH. destruct (mapM f xs) as [us|e]; simpl; [|done].
    by destruct (mapM f ys).
Qed.

Lemma append_nil_r (s : string) : (s ++ "")%string = s.
Proof.
  induction s as [|a s IH]; [done|].
  change (String a (s ++ "")%string = String a s). by rewrite IH.
Qed.

Lemma append_assoc (s t u : string) : ((s ++ t) ++ u = s ++ (t ++ u))%string.
Proof.
  induction s as [|a s IH]; [done|].
  change (String a ((s ++ t) ++ u)%string = String a (s ++ (t ++ u))%string).
  by rewrite IH.
Qed.

Lemma concat_empty_sep_cons (x : string) (xs : list string) :
  String.concat "" (x :: xs) = (x ++ String.concat "" xs)%string.
Proof. destruct xs; simpl; [by rewrite append_nil_r|done]. Qed.

Lemma concat_empty_sep_app (xs ys : list string) :
  String.concat "" (xs ++ ys) = (String.concat "" xs ++ String.concat "" ys)%string.
Proof.
  induction xs as [|x xs IH]; [done|].
  rewrite <- app_comm_cons, !concat_empty_sep_cons, IH.
  by rewrite append_assoc.
Qed.

Lemma last_default (line : list loc) :
  line <> [] -> last line = Some (List.last line 0%nat).
Proof.
  induction line as [|e line IH]; [done|]. intros _.
  destruct line as [|e' line]; [done|].
  rewrite last_cons, IH by done. done.
Qed.

Lemma build_extra_end (line : list loc) (h : gmap loc Command) :
  (length line =? 0)%nat
    || negb (isinstance (h !!! List.last line 0%nat) [cls_name Kinds.End])
  = negb (Inp.ends_with_End line h).
Proof.
  unfold Inp.ends_with_End. destruct line as [|e line]; [done|].
  by rewrite last_default.
Qed.

(** C5: [build] yields the header, then the text of each command in order,
    then the text of a new [End] exactly when the line is empty or its last
    element is not an [End]; for the empty line this is the header and that
    one terminal block. *)
Theorem build_serializes (uuid name : string) (line : list loc)
    (h : gmap loc Command) :
  Inp.build uuid name line h = Inp.spec_serialize uuid name line h
  /\ Inp.build uuid name [] h
     = (let? terminal := Inp.str_command (Cmd.__init__ Kinds.End uuid "" "" [] []) in
        Returns (name ++ terminal)%string).
Proof.
  split.
  - unfold Inp.build, Inp.spec_serialize.
    rewrite build_extra_end, mapM_app.
    destruct (mapM Inp.str_command (map _ line)) as [texts|e]; cbn [obind]; [|done].
    destruct (Inp.ends_with_End line h); cbn [negb mapM obind].
    + unfold PyStr.join.
      by rewrite app_nil_r, concat_empty_sep_cons, append_nil_r.
    + destruct (Inp.str_command _) as [t|e]; cbn [obind]; [|done].
      unfold PyStr.join.
      rewrite concat_empty_sep_cons, concat_empty_sep_app.
      rewrite (concat_empty_sep_cons t []). cbn [String.concat].
      by rewrite (append_nil_r t).
  - unfold Inp.build. cbn [length Nat.eqb orb map app mapM].
    destruct (Inp.str_command _) as [t|e]; cbn [obind]; [|done].
    unfold PyStr.join. rewrite concat_empty_sep_cons, (concat_empty_sep_cons t []).
    cbn [String.concat]. by rewrite (append_nil_r t).
Qed.
End serialization.

(** ** Parsing *)

Section parsing.
Context `{Units} `{Package}.
Implicit Types (h : gmap loc Command).






End parsing.



(** ** The first-element validator *)

Lemma isinstance_source_kind (c : Command) :
  isinstance c ["Objet"; "MCObjet"]%string = true <-> source_kind c.
Proof.
  unfold isinstance, source_kind. cbn [existsb].
  rewrite orb_false_r, orb_true_iff, !bool_decide_eq_true. done.
Qed.

(** C8: the validator raises its structural error exactly when the line has
    a first element that is not of a source kind; it returns [True] on every
    empty line and on every line whose first element is of a source kind, and
    raises nothing else. *)
Theorem validate_objet_is_first_command_raises (inp : Input) (h : gmap loc Command) :
  ((exists message,
      ZgoubiInputValidator.validate_objet_is_first_command inp h
      = Raises (ZgoubiInputException message))
   <-> (exists e rest, _line inp = e :: rest /\ ~ source_kind (h !!! e)))
  /\ (_line inp = [] ->
      ZgoubiInputValidator.validate_objet_is_first_command inp h = Returns true)
  /\ (forall e rest, _line inp = e :: rest -> source_kind (h !!! e) ->
      ZgoubiInputValidator.validate_objet_is_first_command inp h = Returns true)
  /\ (forall x, ZgoubiInputValidator.validate_objet_is_first_command inp h = Raises x ->
      exists message, x = ZgoubiInputException message).
Proof.
  unfold ZgoubiInputValidator.validate_objet_is_first_command, Inp.__len__, Inp.line.
  destruct (_line inp) as [|e rest] eqn:Hline; cbn -[isinstance lookup_total].
  - split; [split|split; [|split]].
    + intros [message Hm]. discriminate Hm.
    + intros (e & rest & Hl & _). congruence.
    + done.
    + intros e rest Hl. congruence.
    + intros x Hx. discriminate Hx.
  - destruct (isinstance _ _) eqn:Hi; cbn [negb].
    + apply isinstance_source_kind in Hi.
      split; [split|split; [|split]].
      * intros [message Hm]. discriminate Hm.
      * intros (e' & rest' & Hl & Hn). assert (e' = e) as -> by congruence. done.
      * intros Hl. congruence.
      * done.
      * intros x Hx. discriminate Hx.
    + assert (~ source_kind (h !!! e)) as Hn.
      { intros Hs. apply isinstance_source_kind in Hs. congruence. }
      split; [split|split; [|split]].
      * intros _. by exists e, rest.
      * intros _. by eexists.
      * intros Hl. congruence.
      * intros e' rest' Hl Hs. assert (e' = e) as -> by congruence. done.
      * intros x Hx. injection Hx as <-. by eexists.
Qed.


(** ** Attributes of a command *)

Section command_attributes.
Context `{Units}.

Lemma coerce_raises raw e :
  Cmd.coerce raw = Raises e ->
  (raw = VTuple [] /\ e = IndexError)
  \/ (exists attr, Q_ attr = Raises e /\ caught e = false).
Proof.
  unfold Cmd.coerce. intros Hr.
  assert (forall attr,
    (if negb (is_empty_str attr) && negb (is_quantity attr)
     then match Q_ attr with
          | Returns q => if dimensionless_units (units_of q)
                         then Returns (magnitude_of q) else Returns q
          | Raises TypeError | Raises ValueError | Raises UndefinedUnitError =>
              Returns attr
          | Raises e => Raises e
          end
     else Returns attr) = Raises e ->
    exists attr, Q_ attr = Raises e /\ caught e = false) as Hq.
  { intros attr Ha. destruct (_ && _); [|done].
    destruct (Q_ attr) as [q|x] eqn:HQ.
    - by destruct (dimensionless_units _).
    - exists attr. destruct x; try done; by injection Ha as <-. }
  destruct raw as [| | | | |items| |]; cbn [obind] in Hr; try (right; by eapply Hq).
  destruct items as [|first items]; cbn [obind] in Hr.
  - left. by injection Hr as <-.
  - right. by eapply Hq.
Qed.

Lemma dict_update_lookup (p : list (string * value)) (d : gmap string value) a :
  a ∉ map fst p -> Cmd.dict_update d p !! a = d !! a.
Proof.
  revert d. induction p as [|[k v] p IH]; intros d Hn; [done|].
  cbn [Cmd.dict_update fold_left] in *.
  change (Cmd.dict_update (<[k:=v]> d) p !! a = d !! a).
  rewrite IH.
  - apply lookup_insert_ne. intros ->. apply Hn. simpl. by left.
  - intros Hin. apply Hn. simpl. by right.
Qed.

Lemma init_kwargs_lookup (kwargs : list (string * value)) (m : gmap string value) a :
  m !! a = None ->
  fold_left
    (fun (m : gmap string value) kv =>
       match m !! kv.1 with
       | None => m
       | Some _ => <[kv.1 := kv.2]> m
       end) kwargs m !! a = None.
Proof.
  revert m. induction kwargs as [|[k v] kwargs IH]; intros m Hm; [done|].
  cbn [fold_left]. apply IH. cbn [fst snd].
  destruct (m !! k) eqn:Hk; [|done].
  rewrite lookup_insert_ne; [done|]. intros ->. congruence.
Qed.

Lemma dicts_lookup_notin (dicts : list (list (string * value)))
    (d : gmap string value) a :
  a ∉ concat (map (map fst) dicts) -> fold_left Cmd.dict_update dicts d !! a = d !! a.
Proof.
  revert d. induction dicts as [|p dicts IH]; intros d Hn; [done|].
  cbn [map concat] in Hn. apply not_elem_of_app in Hn as [Hp Hn].
  cbn [fold_left]. rewrite IH by done. by apply dict_update_lookup.
Qed.

(** C9, as amended: [Command.__getattr__] returns [None] when the name is
    not a key of the parameter table or is bound to [None] there; it raises
    only [IndexError], on an empty tuple, or what the unit constructor
    raises besides the three exceptions caught.  On a command as
    [__init__] makes it, whatever the labels, the further dictionaries and
    the keyword arguments, a name that neither the kind declares nor a
    further dictionary binds reads as [None]. *)
Theorem getattr_absent_is_None (c : Command) (a : string) :
  (_attributes c !! a = None \/ _attributes c !! a = Some VNone ->
     Cmd.__getattr__ c a = Returns VNone)
  /\ (forall e, Cmd.__getattr__ c a = Raises e ->
        (_attributes c !! a = Some (VTuple []) /\ e = IndexError)
        \/ (exists attr, Q_ attr = Raises e /\ caught e = false))
  /\ (forall cls uuid label1 label2 params kwargs,
        a ∉ declared cls ->
        a ∉ concat (map (map fst) params) ->
        Cmd.__getattr__ (Cmd.__init__ cls uuid label1 label2 params kwargs) a
        = Returns VNone).
Proof.
  unfold Cmd.__getattr__. split; [|split].
  - by intros [-> | ->].
  - intros e He. destruct (_attributes c !! a) as [raw|] eqn:Hraw; [|done].
    assert (Cmd.coerce raw = Raises e) as Hc by (by destruct raw).
    apply coerce_raises in Hc as [[-> ->]|Hc]; [by left|by right].
  - intros cls uuid label1 label2 params kwargs Hn Hparams.
    unfold Cmd.__init__. cbn [_attributes].
    rewrite init_kwargs_lookup; [reflexivity|].
    rewrite dicts_lookup_notin; [apply lookup_empty|].
    unfold declared in Hn. rewrite elem_of_app in Hn.
    rewrite !map_app, !concat_app. cbn [map concat fst].
    rewrite !elem_of_app, elem_of_nil.
    intros [[Hin|[Hin|[]]]|[Hin|[Hin|[]]]]; [| |done|]; apply Hn.
    + by left.
    + by right.
    + left. exact Hin.
Qed.
End command_attributes.

(** C9, counterexample: a name that [End] does not declare reads as the
    quantity assigned to it, not as [None]. *)
Lemma getattr_assigned_name_counterexample :
  ("FOO"%string ∉ declared Kinds.End)
  /\ Cmd.__setattr__ Examples.end_command "FOO" (VQuantity (VInt 1) "cm")
     = Returns (stored "FOO" (VQuantity (VInt 1) "cm") Examples.end_command)
  /\ @Cmd.getattr Reference.units
       (stored "FOO" (VQuantity (VInt 1) "cm") Examples.end_command) "FOO"
     = Returns (VQuantity (VInt 1) "cm").
Proof.
  split; [|split; vm_compute; reflexivity].
  intros Hin. apply list_elem_of_In in Hin. cbn in Hin.
  repeat (destruct Hin as [Hin|Hin]; [discriminate Hin|]). exact Hin.
Qed.

(** ** Assignment through the sequence *)

Section broadcast.
Implicit Types (h : gmap loc Command) (c : Command).

Lemma stored_twice key v c : stored key v (stored key v c) = stored key v c.
Proof. unfold stored. simpl. by rewrite insert_insert_eq. Qed.

Lemma public_name_not_private (key : string) :
  PyStr.startswith key "_" = false ->
  String.eqb key "_attributes" = false /\ String.eqb key "_output" = false.
Proof.
  intros Hp. split; apply String.eqb_neq; intros ->; by vm_compute in Hp.
Qed.

Lemma command_setattr_public key v c :
  PyStr.startswith key "_" = false ->
  Cmd.__setattr__ c key v = Returns (stored key v c).
Proof.
  intros Hp. destruct (public_name_not_private key Hp) as [Ha Ho].
  unfold Cmd.__setattr__. by rewrite Ha, Ho.
Qed.

Lemma broadcast_public key v (line : list loc) h :
  PyStr.startswith key "_" = false ->
  exists h',
    Inp.broadcast line key v h = (Returns tt, h')
    /\ (forall e, e ∈ line -> h' !!! e = stored key v (h !!! e))
    /\ (forall e, e ∉ line -> h' !! e = h !! e).
Proof.
  intros Hp. revert h. induction line as [|e0 line IH]; intros h.
  - exists h. split; [done|]. split; [|done].
    intros e He. by apply elem_of_nil in He.
  - unfold Inp.broadcast in *. cbn [Inp.broadcast_with].
    rewrite command_setattr_public by done.
    destruct (IH (<[e0 := stored key v (h !!! e0)]> h)) as (h' & Hrun & Hin & Hout).
    exists h'. split; [exact Hrun|]. split.
    + intros e He.
      destruct (decide (e ∈ line)) as [Hl|Hl].
      * rewrite (Hin e Hl).
        destruct (decide (e = e0)) as [->|Hne].
        -- by rewrite lookup_total_insert_eq, stored_twice.
        -- by rewrite lookup_total_insert_ne.
      * apply elem_of_cons in He as [->|He]; [|done].
        rewrite lookup_total_alt, (Hout e0 Hl), lookup_insert_eq. done.
    + intros e He. apply not_elem_of_cons in He as [Hne Hl].
      rewrite (Hout e Hl). by apply lookup_insert_ne.
Qed.

(** C10: assigning to a name that does not start with an underscore
    returns normally and leaves the [Input] object as it was; every command
    of the line gets the value in its parameter table, and the commands
    outside the line are untouched. *)
Theorem setattr_broadcasts (self : Input) (key : string) (v : value) h :
  PyStr.startswith key "_" = false ->
  exists h',
    Inp.__setattr__ self key v h = (Returns self, h')
    /\ (forall e, e ∈ _line self -> h' !!! e = stored key v (h !!! e))
    /\ (forall e, e ∉ _line self -> h' !! e = h !! e).
Proof.
  intros Hp. unfold Inp.__setattr__. rewrite Hp.
  destruct (broadcast_public key v (_line self) h Hp) as (h' & Hrun & Hin & Hout).
  exists h'. by rewrite Hrun.
Qed.

(** The [try]/[except] of the loop, for any [__setattr__] a kind could
    define: a command whose assignment raises the library exception is
    skipped and keeps its state. *)
Lemma broadcast_with_skips (set : Command -> string -> value -> outcome Command)
    key v (line : list loc) h :
  (forall c x, set c key v = Raises x -> x = ZgoubidooException) ->
  NoDup line ->
  exists h',
    Inp.broadcast_with set line key v h = (Returns tt, h')
    /\ (forall e, e ∈ line ->
          h' !!! e = match set (h !!! e) key v with
                     | Returns c => c
                     | Raises _ => h !!! e
                     end)
    /\ (forall e, e ∉ line -> h' !! e = h !! e).
Proof.
  intros Hset. revert h. induction line as [|e0 line IH]; intros h Hnd.
  - exists h. split; [done|]. split; [|done].
    intros e He. by apply elem_of_nil in He.
  - apply NoDup_cons in Hnd as [Hfresh Hnd]. cbn [Inp.broadcast_with].
    destruct (set (h !!! e0) key v) as [c|x] eqn:Hs.
    + destruct (IH (<[e0 := c]> h) Hnd) as (h' & Hrun & Hin & Hout).
      exists h'. split; [exact Hrun|]. split.
      * intros e He. apply elem_of_cons in He as [->|He].
        -- rewrite lookup_total_alt, (Hout e0 Hfresh), lookup_insert_eq, Hs. done.
        -- rewrite (Hin e He). rewrite lookup_total_insert_ne; [done|].
           intros ->. done.
      * intros e He. apply not_elem_of_cons in He as [Hne Hl].
        rewrite (Hout e Hl). by apply lookup_insert_ne.
    + rewrite (Hset _ _ Hs).
      destruct (IH h Hnd) as (h' & Hrun & Hin & Hout).
      exists h'. split; [exact Hrun|]. split.
      * intros e He. apply elem_of_cons in He as [->|He].
        -- rewrite Hs. by rewrite !lookup_total_alt, (Hout e0 Hfresh).
        -- by apply Hin.
      * intros e He. apply not_elem_of_cons in He as [Hne Hl]. by apply Hout.
Qed.
End broadcast.

(** C10, witness. *)
Lemma setattr_broadcasts_witness :
  exists h',
    Inp.__setattr__ Examples.beamline "LABEL2" (VStr "TAG2") Examples.two_commands
    = (Returns Examples.beamline, h')
    /\ h' !!! 1%nat = stored "LABEL2" (VStr "TAG2") (Examples.two_commands !!! 1%nat).
Proof.
  destruct (setattr_broadcasts Examples.beamline "LABEL2" (VStr "TAG2")
              Examples.two_commands eq_refl)
    as (h' & Hrun & Hin & _).
  exists h'. split; [exact Hrun|]. apply Hin. apply list_elem_of_In. cbn. tauto.
Defined.

(** ** Adjusting and restoring *)

Section adjust.
Context `{Units}.
Implicit Types (h : gmap loc Command) (t : loc * string).

Lemma getattr_parameter (c : Command) a :
  is_parameter_name a = true -> Cmd.getattr c a = Cmd.__getattr__ c a.
Proof.
  unfold is_parameter_name, Cmd.getattr. intros Hp.
  apply andb_true_iff in Hp as [Hn Hd].
  apply negb_true_iff in Hn, Hd.
  assert (String.eqb a "KEYWORD" = false) as ->.
  { apply String.eqb_neq. intros ->. by vm_compute in Hn. }
  assert (String.eqb a "_output" = false) as ->.
  { apply String.eqb_neq. intros ->. by vm_compute in Hn. }
  assert (String.eqb a "output" = false) as ->.
  { apply String.eqb_neq. intros ->. by vm_compute in Hn. }
  by rewrite Hn, Hd.
Qed.

Lemma setattr_parameter (c : Command) a v :
  is_parameter_name a = true -> Cmd.__setattr__ c a v = Returns (stored a v c).
Proof.
  unfold is_parameter_name, Cmd.__setattr__. intros Hp.
  apply andb_true_iff in Hp as [Hn _]. apply negb_true_iff in Hn.
  assert (String.eqb a "_attributes" = false) as ->.
  { apply String.eqb_neq. intros ->. by vm_compute in Hn. }
  assert (String.eqb a "_output" = false) as ->.
  { apply String.eqb_neq. intros ->. by vm_compute in Hn. }
  done.
Qed.

Lemma entry_assign_eq h e p v : entry (<[e := stored p v (h !!! e)]> h) (e, p) = Some v.
Proof. unfold entry. cbn [fst snd]. rewrite lookup_total_insert_eq. apply lookup_insert_eq. Qed.

Lemma entry_assign_ne h e p v t :
  t <> (e, p) -> entry (<[e := stored p v (h !!! e)]> h) t = entry h t.
Proof.
  destruct t as [e' p']. unfold entry. cbn [fst snd]. intros Hne.
  destruct (decide (e' = e)) as [->|He].
  - rewrite lookup_total_insert_eq. cbn [stored _attributes].
    apply lookup_insert_ne. congruence.
  - by rewrite lookup_total_insert_ne.
Qed.

Lemma entry_assign_all_notin tvs h t :
  t ∉ map fst tvs -> entry (assign_all tvs h) t = entry h t.
Proof.
  revert h. induction tvs as [|[[e p] v] tvs IH]; intros h Hn; [done|].
  cbn [assign_all fold_left fst snd].
  change (entry (assign_all tvs (<[e := stored p v (h !!! e)]> h)) t = entry h t).
  rewrite IH.
  - apply entry_assign_ne. intros ->. apply Hn. cbn. by left.
  - intros Hin. apply Hn. cbn. by right.
Qed.

Lemma entry_assign_all ts vs h :
  NoDup ts -> length ts = length vs ->
  Forall2 (fun t v => entry (assign_all (zip ts vs) h) t = Some v) ts vs.
Proof.
  revert vs h. induction ts as [|[e p] ts IH]; intros vs h Hnd Hlen.
  - destruct vs; [constructor|done].
  - destruct vs as [|v vs]; [done|]. apply NoDup_cons in Hnd as [Hfresh Hnd].
    cbn [zip zip_with assign_all fold_left fst snd].
    change (Forall2 (fun t v0 => entry (assign_all (zip ts vs)
              (<[e := stored p v (h !!! e)]> h)) t = Some v0) ((e, p) :: ts) (v :: vs)).
    constructor.
    + rewrite entry_assign_all_notin; [apply entry_assign_eq|].
      intros Hin. apply Hfresh.
      apply list_elem_of_fmap in Hin as ([t v'] & -> & Hin).
      by apply elem_of_zip_l in Hin.
    + apply IH; [done|]. simpl in Hlen. lia.
Qed.

Lemma label_read h e :
  Cmd.getattr (h !!! e) "LABEL1" = Cmd.read_entry (entry h (e, "LABEL1"%string)).
Proof. by rewrite getattr_parameter. Qed.

Lemma find_label_same_labels h h' line item :
  same_labels h h' -> Inp.find_label h line item = Inp.find_label h' line item.
Proof.
  intros Hs. induction line as [|e line IH]; [done|].
  cbn [Inp.find_label]. by rewrite !label_read, Hs, IH.
Qed.

Lemma target_same_labels self h h' k :
  same_labels h h' -> target self h k = target self h' k.
Proof.
  intros Hs. unfold target, Inp.getattr, Inp.__getattr__.
  destruct (Inp.key_parts k) as [|a [|p [|? ?]]]; try done.
  destruct (_ || _); [done|]. by rewrite (find_label_same_labels h h').
Qed.

Lemma targets_same_labels self h h' ks :
  same_labels h h' -> mapM (target self h) ks = mapM (target self h') ks.
Proof.
  intros Hs. induction ks as [|k ks IH]; [done|].
  cbn [mapM]. by rewrite (target_same_labels self h h'), IH.
Qed.

Lemma same_labels_assign h e p v :
  p <> "LABEL1"%string -> same_labels h (<[e := stored p v (h !!! e)]> h).
Proof. intros Hp e'. symmetry. apply entry_assign_ne. congruence. Qed.

Lemma same_labels_assign_all tvs h :
  Forall (fun tv => tv.1.2 <> "LABEL1"%string) tvs -> same_labels h (assign_all tvs h).
Proof.
  intros Hall e. symmetry. apply entry_assign_all_notin.
  intros Hin. apply list_elem_of_fmap in Hin as ([[e' p'] v] & Heq & Hin).
  rewrite Forall_forall in Hall. specialize (Hall _ Hin). simpl in *. congruence.
Qed.

Lemma getattr_entry h t :
  Cmd.__getattr__ (h !!! t.1) t.2 = Cmd.read_entry (entry h t).
Proof. done. Qed.

Lemma readings_preserved ts ws h h' :
  (forall t, t ∈ ts -> entry h' t = entry h t) ->
  Forall2 (fun t w => Cmd.__getattr__ (h !!! t.1) t.2 = Returns w) ts ws ->
  Forall2 (fun t w => Cmd.__getattr__ (h' !!! t.1) t.2 = Returns w) ts ws.
Proof.
  intros Hsame Hall. induction Hall as [|t w ts ws Hw _ IH]; [constructor|].
  constructor.
  - rewrite getattr_entry, Hsame; [done|by left].
  - apply IH. intros t' Ht'. apply Hsame. by right.
Qed.

(** The loop of [adjust] on plain keys with distinct targets. *)
Lemma adjust_loop_plain (self : Input) (items : mapping) (iv : mapping) h ts ws :
  Forall plain_key (map fst items) ->
  mapM (target self h) (map fst items) = Returns ts ->
  NoDup ts ->
  Forall2 (fun t w => Cmd.__getattr__ (h !!! t.1) t.2 = Returns w) ts ws ->
  Inp.adjust_loop items iv self h
  = (Returns (fold_left (fun d kw => dict_set kw.1 kw.2 d) (zip (map fst items) ws) iv),
     self, assign_all (zip ts (map snd items)) h)
  /\ Forall (fun t => t.2 <> "LABEL1"%string) ts.
Proof.
  revert iv h ts ws. induction items as [|[k v] items IH]; intros iv h ts ws Hplain Ht Hnd Hw.
  - cbn in Ht. injection Ht as <-. apply Forall2_nil_inv_l in Hw as ->.
    split; [done|constructor].
  - cbn [map fst mapM] in Ht, Hplain.
    apply Forall_cons in Hplain as [(a & p & Hparts & Ha & Hp & Hstrip & Hlabel) Hplain].
    destruct (target self h k) as [t|] eqn:Htk; cbn [obind] in Ht; [|done].
    destruct (mapM (target self h) (map fst items)) as [ts'|] eqn:Hts; cbn [obind] in Ht;
      [|done].
    injection Ht as <-.
    apply Forall2_cons_inv_l in Hw as (w & ws' & Hw & Hws & ->).
    apply NoDup_cons in Hnd as [Hfresh Hnd].
    unfold target in Htk. rewrite Hparts in Htk.
    destruct (Inp.getattr self a h) as [e|] eqn:He; cbn [obind] in Htk; [|done].
    injection Htk as <-. cbn [fst snd] in *.
    cbn [Inp.adjust_loop]. rewrite Hparts.
    assert (String.eqb a "ALL_LINE" = false) as -> by (by apply String.eqb_neq).
    rewrite He, Hstrip, getattr_parameter, Hw, setattr_parameter by done.
    pose proof (same_labels_assign h e p v Hlabel) as Hsame.
    destruct (IH (dict_set k w iv) (<[e := stored p v (h !!! e)]> h) ts' ws') as [Hrun Hkeys].
    + done.
    + by rewrite <- (targets_same_labels self h).
    + done.
    + eapply readings_preserved; [|exact Hws].
      intros t Hin. apply entry_assign_ne. intros ->. done.
    + rewrite Hrun. split; [done|]. by constructor.
Qed.

Lemma dict_set_fresh (k : key) (v : value) (d : mapping) :
  k ∉ map fst d -> dict_set k v d = d ++ [(k, v)].
Proof.
  induction d as [|[k' v'] d IH]; intros Hn; [done|].
  cbn [dict_set]. destruct (decide (k = k')) as [->|Hne].
  - exfalso. apply Hn. cbn. by left.
  - rewrite IH; [done|]. intros Hin. apply Hn. cbn. by right.
Qed.

Lemma fold_dict_set_fresh (kvs d : mapping) :
  NoDup (map fst d ++ map fst kvs) ->
  fold_left (fun d kw => dict_set kw.1 kw.2 d) kvs d = d ++ kvs.
Proof.
  revert d. induction kvs as [|[k v] kvs IH]; intros d Hnd.
  - by rewrite app_nil_r.
  - cbn [fold_left fst snd]. cbn [map fst] in Hnd.
    rewrite dict_set_fresh.
    + rewrite IH.
      * by rewrite <- app_assoc.
      * rewrite map_app. cbn [map fst]. by rewrite <- app_assoc.
    + apply NoDup_app in Hnd as (_ & Hdis & _). intros Hin.
      apply (Hdis k Hin). by left.
Qed.

Lemma targets_parameters (self : Input) h ks ts :
  Forall plain_key ks ->
  mapM (target self h) ks = Returns ts ->
  length ts = length ks
  /\ Forall (fun t => is_parameter_name t.2 = true /\ t.2 <> "LABEL1"%string) ts.
Proof.
  revert ts. induction ks as [|k ks IH]; intros ts Hplain Ht.
  - cbn in Ht. injection Ht as <-. split; [done|constructor].
  - cbn [mapM] in Ht.
    apply Forall_cons in Hplain as [(a & p & Hparts & Ha & Hp & Hstrip & Hlabel) Hplain].
    destruct (target self h k) as [t|] eqn:Htk; cbn [obind] in Ht; [|done].
    destruct (mapM (target self h) ks) as [ts'|]; cbn [obind] in Ht; [|done].
    injection Ht as <-. destruct (IH ts' Hplain eq_refl) as [Hlen Hall].
    unfold target in Htk. rewrite Hparts in Htk.
    destruct (Inp.getattr self a h) as [e|]; cbn [obind] in Htk; [|done].
    injection Htk as <-. split; [simpl; lia|]. by constructor.
Qed.

Lemma map_fst_zip {A B} (xs : list A) (ys : list B) :
  length xs = length ys -> map fst (zip xs ys) = xs.
Proof.
  revert ys. induction xs as [|x xs IH]; intros [|y ys] Hlen; try done.
  cbn. rewrite IH; [done|]. simpl in Hlen. lia.
Qed.

Lemma map_snd_zip {A B} (xs : list A) (ys : list B) :
  length xs = length ys -> map snd (zip xs ys) = ys.
Proof.
  revert ys. induction xs as [|x xs IH]; intros [|y ys] Hlen; try done.
  cbn. rewrite IH; [done|]. simpl in Hlen. lia.
Qed.

Lemma readable_values (vs : list value) :
  Forall (fun v => exists w, Cmd.read_entry (Some v) = Returns w) vs ->
  exists ws, Forall2 (fun v w => Cmd.read_entry (Some v) = Returns w) vs ws.
Proof.
  induction 1 as [|v vs [w Hw] _ [ws IH]]; [by exists []|].
  exists (w :: ws). by constructor.
Qed.

Lemma Forall2_chain {A B C} (P : A -> B -> Prop) (Q : B -> C -> Prop)
    (R : A -> C -> Prop) xs ys zs :
  (forall x y z, P x y -> Q y z -> R x z) ->
  Forall2 P xs ys -> Forall2 Q ys zs -> Forall2 R xs zs.
Proof.
  intros HR HP. revert zs. induction HP as [|x y xs ys Hxy _ IH]; intros zs HQ.
  - apply Forall2_nil_inv_l in HQ as ->. constructor.
  - apply Forall2_cons_inv_l in HQ as (z & zs' & Hyz & HQ & ->).
    constructor; [by eapply HR|by apply IH].
Qed.

(** C4, as amended: let the keys of [m] be pairwise distinct, each with an
    anchor other than the wildcard and an ordinary parameter name, let
    them address pairwise distinct (command, parameter) pairs, and let the
    prior values and the new values be readable.  Then [adjust(m)] returns
    the map of each key to the value its parameter read as, [adjust] of
    that map returns too, and afterwards every touched entry holds the
    value it read as before the adjustment, so that it reads as before
    whenever that value reads as itself. *)
Theorem adjust_restores (self : Input) (m : mapping) h ts ws :
  NoDup (map fst m) ->
  Forall plain_key (map fst m) ->
  mapM (target self h) (map fst m) = Returns ts ->
  NoDup ts ->
  Forall2 (fun t w => Cmd.getattr (h !!! t.1) t.2 = Returns w) ts ws ->
  Forall (fun kv => exists w, Cmd.read_entry (Some kv.2) = Returns w) m ->
  exists h1 back h2,
    Inp.adjust self m h = (Returns (zip (map fst m) ws), self, h1)
    /\ Inp.adjust self (zip (map fst m) ws) h1 = (Returns back, self, h2)
    /\ Forall2
         (fun t w =>
            _attributes (h2 !!! t.1) !! t.2 = Some w
            /\ (Cmd.read_entry (Some w) = Returns w ->
                Cmd.getattr (h2 !!! t.1) t.2 = Returns w))
         ts ws.
Proof.
  intros Hkeys Hplain Ht Hnd Hw Hv.
  destruct (targets_parameters self h _ ts Hplain Ht) as [Hlen Hparams].
  rewrite length_map in Hlen.
  pose proof (Forall2_length _ _ _ Hw) as Hlenw.
  assert (Forall2 (fun t w => Cmd.__getattr__ (h !!! t.1) t.2 = Returns w) ts ws) as Hw'.
  { clear -Hw Hparams. induction Hw as [|t w ts0 ws0 Hr _ IH]; [constructor|].
    apply Forall_cons in Hparams as [[Hp _] Hparams].
    constructor; [by rewrite <- getattr_parameter|by apply IH]. }
  set (keys := map fst m) in *. set (vs := map snd m).
  assert (length keys = length m) as Hlenk by apply length_map.
  assert (length vs = length m) as Hlenv by apply length_map.
  (* first pass *)
  destruct (adjust_loop_plain self m [] h ts ws Hplain Ht Hnd Hw') as [Hrun1 _].
  fold keys vs in Hrun1.
  rewrite fold_dict_set_fresh in Hrun1
    by (rewrite map_fst_zip by lia; exact Hkeys).
  cbn [app] in Hrun1.
  set (h1 := assign_all (zip ts vs) h) in *.
  (* what the second pass reads *)
  assert (Forall (fun v => exists w, Cmd.read_entry (Some v) = Returns w) vs) as Hvs.
  { unfold vs. clear -Hv. induction Hv; constructor; done. }
  destruct (readable_values vs Hvs) as [ws' Hws'].
  pose proof (entry_assign_all ts vs h Hnd ltac:(lia)) as Hentries. fold h1 in Hentries.
  assert (Forall2 (fun t w => Cmd.__getattr__ (h1 !!! t.1) t.2 = Returns w) ts ws') as Hread.
  { eapply Forall2_chain; [|exact Hentries|exact Hws'].
    intros t v w He Hr. by rewrite getattr_entry, He. }
  assert (same_labels h h1) as Hsame.
  { apply same_labels_assign_all. apply Forall_forall. intros [t v] Hin.
    apply elem_of_zip_l in Hin. rewrite Forall_forall in Hparams.
    by destruct (Hparams t Hin). }
  (* second pass *)
  destruct (adjust_loop_plain self (zip keys ws) [] h1 ts ws') as [Hrun2 _].
  { by rewrite map_fst_zip by lia. }
  { rewrite map_fst_zip by lia. by rewrite <- (targets_same_labels self h). }
  { done. }
  { done. }
  rewrite map_snd_zip in Hrun2 by lia.
  exists h1, (fold_left (fun d kw => dict_set kw.1 kw.2 d)
                (zip (map fst (zip keys ws)) ws') []),
    (assign_all (zip ts ws) h1).
  split; [exact Hrun1|]. split; [exact Hrun2|].
  pose proof (entry_assign_all ts ws h1 Hnd Hlenw) as Hfinal.
  set (h2 := assign_all (zip ts ws) h1) in *. clearbody h2.
  clear -Hfinal Hparams.
  induction Hfinal as [|t w ts0 ws0 He _ IH]; [constructor|].
  apply Forall_cons in Hparams as [[Hp _] Hparams].
  constructor; [|by apply IH].
  split; [exact He|]. intros Hstable.
  by rewrite getattr_parameter, getattr_entry, He.
Qed.
End adjust.

(** C4, witness: one label of one command, changed and restored. *)
Lemma adjust_restores_witness :
  exists h1 back h2,
    @Inp.adjust Reference.units Examples.beamline Examples.retag Examples.two_commands
    = (Returns [(Examples.label2_of_MARK1, VStr "TAG1")], Examples.beamline, h1)
    /\ @Inp.adjust Reference.units Examples.beamline
         [(Examples.label2_of_MARK1, VStr "TAG1")] h1
       = (Returns back, Examples.beamline, h2)
    /\ @Cmd.getattr Reference.units (h2 !!! 0%nat) "LABEL2" = Returns (VStr "TAG1").
Proof.
  destruct (@adjust_restores Reference.units Examples.beamline Examples.retag
              Examples.two_commands [(0%nat, "LABEL2"%string)] [VStr "TAG1"])
    as (h1 & back & h2 & Hrun1 & Hrun2 & Hfinal).
  - repeat constructor; intros Hin; apply list_elem_of_In in Hin; destruct Hin.
  - repeat constructor. exists "MARK1"%string, "LABEL2"%string.
    repeat split; try done.
  - vm_compute. reflexivity.
  - repeat constructor; intros Hin; apply list_elem_of_In in Hin; destruct Hin.
  - repeat constructor.
  - repeat constructor. by exists (VStr "TAG2").
  - exists h1, back, h2. split; [exact Hrun1|]. split; [exact Hrun2|].
    apply Forall2_cons_1 in Hfinal as [[_ Hread] _]. by apply Hread.
Defined.

(** C4, counterexample: for the wildcard anchor the map returned records
    [None], and adjusting with it leaves [None] where [TAG1] was. *)
Lemma adjust_wildcard_counterexample :
  let first :=
    @Inp.adjust Reference.units Examples.beamline Examples.retag_all
      Examples.two_commands in
  let second :=
    @Inp.adjust Reference.units Examples.beamline
      [(Examples.label2_of_all, VNone)] first.2 in
  first.1.1 = Returns [(Examples.label2_of_all, VNone)]
  /\ second.1.1 = Returns [(Examples.label2_of_all, VNone)]
  /\ @Cmd.getattr Reference.units (Examples.two_commands !!! 0%nat) "LABEL2"
     = Returns (VStr "TAG1")
  /\ @Cmd.getattr Reference.units (second.2 !!! 0%nat) "LABEL2" = Returns VNone.
Proof. vm_compute. repeat split; reflexivity. Qed.

(** Why the amended statement asks for ordinary parameter names, distinct
    targets and readable values. *)

(** A trailing underscore: the prior value is read under the stripped name
    and written back under the full one. *)
Example adjust_trailing_underscore :
  let k := KTuple ["MARK1"; "LABEL2_"]%string in
  let first := @Inp.adjust Reference.units Examples.beamline [(k, VStr "TAG2")]
                 Examples.two_commands in
  let second := @Inp.adjust Reference.units Examples.beamline [(k, VStr "TAG1")] first.2 in
  first.1.1 = Returns [(k, VStr "TAG1")]
  /\ @Cmd.getattr Reference.units (Examples.two_commands !!! 0%nat) "LABEL2_"
     = Returns VNone
  /\ @Cmd.getattr Reference.units (second.2 !!! 0%nat) "LABEL2_"
     = Returns (VStr "TAG1").
Proof. vm_compute. repeat split; reflexivity. Qed.

(** [LABEL1]: once the label is changed the anchor no longer resolves. *)
Example adjust_label_is_lost :
  let k := KTuple ["MARK1"; "LABEL1"]%string in
  let first := @Inp.adjust Reference.units Examples.beamline [(k, VStr "MARK9")]
                 Examples.two_commands in
  let second := @Inp.adjust Reference.units Examples.beamline [(k, VStr "MARK1")] first.2 in
  first.1.1 = Returns [(k, VStr "MARK1")]
  /\ second.1.1 = Raises AttributeError.
Proof. vm_compute. split; reflexivity. Qed.

(** Two keys for one parameter: the second prior value recorded is the
    first new value, and it is what the restoration leaves. *)
Example adjust_same_target_twice :
  let k1 := KStr "MARK1.LABEL2" in
  let k2 := KTuple ["MARK1"; "LABEL2"]%string in
  let first := @Inp.adjust Reference.units Examples.beamline
                 [(k1, VStr "TAG2"); (k2, VStr "TAG3")] Examples.two_commands in
  let second := @Inp.adjust Reference.units Examples.beamline
                  [(k1, VStr "TAG1"); (k2, VStr "TAG2")] first.2 in
  first.1.1 = Returns [(k1, VStr "TAG1"); (k2, VStr "TAG2")]
  /\ @Cmd.getattr Reference.units (second.2 !!! 0%nat) "LABEL2"
     = Returns (VStr "TAG2").
Proof. vm_compute. split; reflexivity. Qed.

(** A new value that cannot be read back: the restoration raises. *)
Example adjust_unreadable_value :
  let k := KTuple ["MARK1"; "LABEL2"]%string in
  let first := @Inp.adjust Reference.units Examples.beamline [(k, VTuple [])]
                 Examples.two_commands in
  let second := @Inp.adjust Reference.units Examples.beamline [(k, VStr "TAG1")] first.2 in
  first.1.1 = Returns [(k, VStr "TAG1")]
  /\ second.1.1 = Raises IndexError.
Proof. vm_compute. split; reflexivity. Qed.

(** ** Materialization *)

Section generate.
Context `{Units} `{Package}.

Lemma adjust_nothing (self : Input) (h : gmap loc Command) :
  Inp.adjust self [] h = (Returns [], self, h).
Proof. done. Qed.

(** [initial_state], once a dict, is never replaced by the loop. *)
Lemma generate_loop_initial_state ms state path filename acc held self w r self' w' :
  Inp.generate_loop ms (Some state) path filename acc held self w
  = (Returns r, self', w') ->
  r.1.2 = Some state.
Proof.
  revert path acc held self w. induction ms as [|m ms IH]; intros path acc held self w.
  - cbn [Inp.generate_loop]. by intros [= <- _ _].
  - cbn [Inp.generate_loop].
    destruct (if existsb _ _ then _ else _) as [[self0 held0] w0].
    destruct (Inp.adjust _ m (objects w0)) as [[[previous|x] self1] h1]; [|done].
    destruct (Inp.TemporaryDirectory _ _) as [dir w1].
    destruct (Inp.write self1 filename dir None w1) as [[n|x] w2]; [|done].
    apply IH.
Qed.

(** What [_generate] returns is what its loop leaves: the closing
    [adjust(initial_state)] receives the empty dict and changes nothing. *)
Lemma generate_does_not_restore self ms filename path w generated self' w' :
  Inp._generate self ms filename path w = (Returns generated, self', w') ->
  exists bms state held w1,
    Inp.beam_mappings self (objects w) = Returns bms
    /\ Inp.generate_loop
         (let ms := match ms with None | Some [] => [[]] | Some l => l end in
          if (0 <? length bms)%nat
          then flat_map (fun a => map (fun b => Inp.merge a b) bms) ms
          else ms)
         (Some []) path filename [] None self w
       = (Returns (generated, state, held), self', w1)
    /\ w' = Inp.release held w1.
Proof.
  unfold Inp._generate.
  destruct (Inp.beam_mappings self (objects w)) as [bms|x]; [|done].
  destruct (Inp.generate_loop _ _ _ _ _ _ _ _) as [[[[[g st] held]|x] self1] w1] eqn:Hloop;
    [|done].
  pose proof (generate_loop_initial_state _ _ _ _ _ _ _ _ _ _ _ Hloop) as Hst.
  cbn [fst snd] in Hst. subst st. rewrite adjust_nothing.
  intros [= <- <- <-]. exists bms, (Some []), held, w1. split; [done|].
  split; [done|]. by destruct w1.
Qed.
End generate.

(** C2, the code at the failing input: after [_generate] with one variant
    that changes [LABEL2] of [MARK1] from [TAG1] to [TAG2], the command still
    holds [TAG2]. *)
Theorem generate_leaves_last_variant :
  let run :=
    @Inp._generate Reference.units Reference.package Examples.beamline
      (Some [Examples.retag]) "zgoubi.dat" None Examples.fresh_world in
  run.1.1 = Returns [MkPath Examples.retag "/tmp/tmp0" false]
  /\ @Cmd.getattr Reference.units (Examples.two_commands !!! 0%nat) "LABEL2"
     = Returns (VStr "TAG1")
  /\ @Cmd.getattr Reference.units (objects run.2 !!! 0%nat) "LABEL2"
     = Returns (VStr "TAG2").
Proof. vm_compute. repeat split; reflexivity. Qed.

(** ** Slices and filters *)

Section selection.
Context `{Units} `{Package}.
Implicit Types (h : gmap loc Command) (st : store).

Lemma stride_sublist {A} (step skip : nat) (xs : list A) :
  Inp.stride step skip xs `sublist_of` xs.
Proof.
  revert skip. induction xs as [|x xs IH]; intros skip; [constructor|].
  destruct skip as [|k]; simpl.
  - by apply sublist_skip.
  - by apply sublist_cons.
Qed.

Lemma islice_sublist {A} (xs ys : list A) start stop step :
  Inp.islice xs start stop step = Returns ys -> ys `sublist_of` xs.
Proof.
  unfold Inp.islice. destruct (_ || _); [done|]. intros [= <-].
  etrans; [apply stride_sublist|].
  destruct stop as [b|].
  - etrans; [apply sublist_take|apply sublist_drop].
  - apply sublist_drop.
Qed.

Lemma filter_sublist (self : Input) items h kept classes :
  Inp._filter self items h = Returns (kept, classes) ->
  kept `sublist_of` _line self.
Proof.
  unfold Inp._filter. destruct (mapM _ items) as [cs|x].
  - destruct cs as [|c cs], (_line self) as [|e line]; intros [= <- _];
      first [apply sublist_nil_l | apply sublist_filter].
  - intros [= <- _]. apply sublist_nil_l.
Qed.

Lemma getitem_shares_commands (self inp : Input) items h :
  Inp.__getitem__ self items h = Returns (NewInput inp) ->
  _line inp `sublist_of` _line self /\ _paths inp = [].
Proof.
  destruct items as [z|b_start b_stop step|i|items]; cbn [Inp.__getitem__].
  - destruct (_ <? 0)%Z; [done|]. by destruct (_ !! _).
  - destruct (Inp.resolve_bound self b_start h) as [start|]; cbn [obind]; [|done].
    destruct (Inp.resolve_bound self b_stop h) as [stop|]; cbn [obind]; [|done].
    destruct (Inp.bound_text b_start h); cbn [obind]; [|done].
    destruct (Inp.bound_text b_stop h); cbn [obind]; [|done].
    destruct (Inp.islice _ _ _ _) as [sliced|] eqn:Hs; cbn [obind]; [|done].
    intros [= <-]. split; [|done]. by eapply islice_sublist.
  - destruct (Inp._filter self [i] h) as [[kept classes]|] eqn:Hf; cbn [obind]; [|done].
    intros [= <-]. split; [|done]. by eapply filter_sublist.
  - destruct (Inp._filter self items h) as [[kept classes]|] eqn:Hf; cbn [obind]; [|done].
    intros [= <-]. split; [|done]. by eapply filter_sublist.
Qed.

(** C7, as amended: slicing and filtering change no command and no
    existing [Input] object; the [Input] returned is a new object whose
    line is a subsequence of the original's, made of the same command
    objects.  Whatever method is then called on the copy, every [Input]
    object that existed, the original included, keeps its attributes and
    its line; the commands they share with the copy are not protected. *)
Theorem getitem_copy_is_shallow (self r : loc) (items : selector) st st' :
  Obj.getitem self items st = (Returns (InputAt r), st') ->
  commands st' = commands st
  /\ inputs st !! r = None
  /\ (forall o, o <> r -> inputs st' !! o = inputs st !! o)
  /\ _line (inputs st' !!! r) `sublist_of` _line (inputs st !!! self)
  /\ (forall (body : Obj.method) result st'',
        Obj.call r body st' = (result, st'') ->
        forall o, is_Some (inputs st !! o) -> inputs st'' !! o = inputs st !! o).
Proof.
  unfold Obj.getitem.
  destruct (Inp.__getitem__ _ items (commands st)) as [[l|inp]|x] eqn:Hg; [done| |done].
  intros [= <- <-]. cbn [commands inputs].
  pose proof (is_fresh (dom (inputs st))) as Hfresh.
  rewrite not_elem_of_dom in Hfresh.
  apply getitem_shares_commands in Hg as [Hsub _].
  split; [done|]. split; [done|]. split; [|split].
  - intros o Ho. by rewrite lookup_insert_ne.
  - by rewrite lookup_total_insert_eq.
  - intros body result st'' Hcall o [i Ho].
    assert (o <> fresh (dom (inputs st))) as Hne by (intros ->; congruence).
    unfold Obj.call in Hcall. cbn [commands inputs] in Hcall.
    destruct (body _ _) as [[inp'|x] h'']; injection Hcall as <- <-; cbn [inputs].
    + by rewrite !lookup_insert_ne.
    + by rewrite lookup_insert_ne.
Qed.
End selection.

(** C7, witness: a slice of the two commands. *)
Lemma getitem_copy_witness :
  let sliced :=
    @Obj.getitem Reference.units Reference.package 0%nat
      (SelSlice (BInt 0) (BInt 1) None) Examples.beamline_store in
  sliced.1 = Returns (InputAt 1%nat)
  /\ commands sliced.2 = commands Examples.beamline_store
  /\ _line (inputs sliced.2 !!! 1%nat)
       `sublist_of` _line (inputs Examples.beamline_store !!! 0%nat).
Proof.
  intros sliced.
  assert (Hrun : @Obj.getitem Reference.units Reference.package 0%nat
                   (SelSlice (BInt 0) (BInt 1) None) Examples.beamline_store
                 = (Returns (InputAt 1%nat), sliced.2)) by (vm_compute; reflexivity).
  destruct (getitem_copy_is_shallow _ _ _ _ _ Hrun) as (Hc & _ & _ & Hs & _).
  split; [vm_compute; reflexivity|]. split; assumption.
Defined.

(** C7, counterexample: assigning [LABEL2] through the slice changes the
    first command of the original sequence. *)
Lemma slice_shares_commands_counterexample :
  let sliced :=
    @Obj.getitem Reference.units Reference.package 0%nat
      (SelSlice (BInt 0) (BInt 1) None) Examples.beamline_store in
  let changed := Obj.call 1%nat (Obj.setattr "LABEL2" (VStr "TAG2")) sliced.2 in
  sliced.1 = Returns (InputAt 1%nat)
  /\ changed.1 = Returns tt
  /\ _line (inputs changed.2 !!! 0%nat) = [0%nat; 1%nat]
  /\ @Cmd.getattr Reference.units (commands Examples.beamline_store !!! 0%nat) "LABEL2"
     = Returns (VStr "TAG1")
  /\ @Cmd.getattr Reference.units (commands changed.2 !!! 0%nat) "LABEL2"
     = Returns (VStr "TAG2").
Proof. vm_compute. repeat split; reflexivity. Qed.

(** * Further properties of the code *)

(** ** Adding parametric mappings *)

Section addition.
Import ParametricMapping.
Context {K V : Type} `{EqDecision K}.
Implicit Types (st : objects K V) (pm : ParametricMapping.t K V).

Lemma labels_app (gs gs' : list (group K V)) :
  labels (Build (gs ++ gs')) = labels (Build gs) ++ labels (Build gs').
Proof. unfold labels, flatten. cbn [mappings]. by rewrite map_app, concat_app. Qed.

Lemma no_label_length pm : (length (labels pm) =? 0)%nat = true <-> labels pm = [].
Proof. rewrite Nat.eqb_eq. by destruct (labels pm). Qed.

(** X1: [self + other] returns [self], whose labels are then its former
    labels followed by the labels of [other], whichever branch is taken. *)
Theorem add_concatenates_labels st (self other : nat) :
  (__add__ self other st).1 = self
  /\ labels (deref (__add__ self other st).2 self)
     = labels (deref st self) ++ labels (deref st other).
Proof.
  unfold __add__.
  destruct (length (labels (deref st self)) =? 0)%nat eqn:Hs.
  - apply no_label_length in Hs. rewrite Hs. split; [done|].
    unfold deref. cbn [fst snd mappings_ref lists]. by rewrite lookup_total_insert_eq.
  - destruct (length (labels (deref st other)) =? 0)%nat eqn:Ho.
    + apply no_label_length in Ho. rewrite Ho. by rewrite app_nil_r.
    + split; [done|]. unfold deref. cbn [fst snd mappings_ref lists].
      by rewrite lookup_total_insert_eq, labels_app.
Qed.

(** X2: when [self] has no labels, [self + other] makes [self] refer to
    the very list of [other], which keeps its mappings.  What a further
    addition [self + third] does depends on the labels at that point: when
    [other] and [third] both have labels, the shared list is extended in
    place, so the mappings of [other], like those of [self], become the
    former mappings of [other] followed by those of [third]; when [other]
    has labels and [third] has none, nothing changes; when [other] has no
    labels, [self] is bound to the list of [third] instead, and [other], if
    it is another object than [self], keeps its mappings. *)
Theorem add_shares_the_list st (a b c : nat) :
  labels (deref st a) = [] ->
  let st1 := (__add__ a b st).2 in
  let st2 := (__add__ a c st1).2 in
  mappings (deref st1 a) = mappings (deref st b)
  /\ mappings (deref st1 b) = mappings (deref st b)
  /\ (labels (deref st b) <> [] -> labels (deref st1 c) <> [] ->
      mappings (deref st2 a) = mappings (deref st b) ++ mappings (deref st1 c)
      /\ mappings (deref st2 b) = mappings (deref st b) ++ mappings (deref st1 c))
  /\ (labels (deref st b) <> [] -> labels (deref st1 c) = [] -> st2 = st1)
  /\ (labels (deref st b) = [] ->
      mappings (deref st2 a) = mappings (deref st1 c)
      /\ (b <> a -> mappings (deref st2 b) = mappings (deref st b))).
Proof.
  intros Ha st1 st2.
  assert (lists st1 = lists st) as Hl.
  { unfold st1, __add__. apply no_label_length in Ha. by rewrite Ha. }
  assert (mappings_ref st1 !!! a = mappings_ref st !!! b) as Hra.
  { unfold st1, __add__. apply no_label_length in Ha. rewrite Ha.
    cbn [snd mappings_ref]. by rewrite lookup_total_insert_eq. }
  assert (mappings_ref st1 !!! b = mappings_ref st !!! b) as Hrb.
  { destruct (decide (b = a)) as [->|Hba]; [done|].
    unfold st1, __add__. apply no_label_length in Ha. rewrite Ha.
    cbn [snd mappings_ref]. by rewrite lookup_total_insert_ne. }
  assert (deref st1 a = deref st b) as H1a by (unfold deref; by rewrite Hra, Hl).
  assert (deref st1 b = deref st b) as H1b by (unfold deref; by rewrite Hrb, Hl).
  split; [by rewrite H1a|]. split; [by rewrite H1b|]. split; [|split].
  - intros Hb Hc. unfold st2, __add__. rewrite H1a.
    destruct (length (labels (deref st b)) =? 0)%nat eqn:Eb.
    { apply no_label_length in Eb. done. }
    destruct (length (labels (deref st1 c)) =? 0)%nat eqn:Ec.
    { apply no_label_length in Ec. done. }
    unfold deref. cbn [fst snd mappings_ref lists mappings].
    by rewrite Hra, Hrb, Hl, lookup_total_insert_eq.
  - intros Hb Hc. unfold st2, __add__. rewrite H1a.
    destruct (length (labels (deref st b)) =? 0)%nat eqn:Eb.
    { apply no_label_length in Eb. done. }
    apply no_label_length in Hc. by rewrite Hc.
  - intros Hb. unfold st2, __add__. rewrite H1a.
    apply no_label_length in Hb. rewrite Hb.
    unfold deref. cbn [fst snd mappings_ref lists mappings].
    rewrite lookup_total_insert_eq. split; [done|].
    intros Hba. rewrite lookup_total_insert_ne by done. by rewrite Hrb, Hl.
Qed.
End addition.

(** X2, witness: the default mapping, then two mappings added to it; the
    first of the two has received the group of the second. *)
Lemma add_shares_the_list_witness :
  let st1 := (ParametricMapping.__add__ 0 1 Examples.three_mappings).2 in
  let st2 := (ParametricMapping.__add__ 0 2 st1).2 in
  ParametricMapping.mappings (ParametricMapping.deref Examples.three_mappings 1)
  = [ [(("B1", "K")%string, [1; 2])] ]
  /\ ParametricMapping.mappings (ParametricMapping.deref st2 1)
     = [ [(("B1", "K")%string, [1; 2])]; [(("B2", "K")%string, [10; 20; 30])] ].
Proof.
  intros st1 st2.
  destruct (add_shares_the_list Examples.three_mappings 0 1 2)
    as (_ & _ & Hshared & _).
  - vm_compute. reflexivity.
  - destruct Hshared as [_ Hshared].
    + vm_compute. discriminate.
    + vm_compute. discriminate.
    + split; [vm_compute; reflexivity|].
      unfold st2, st1. rewrite Hshared. vm_compute. reflexivity.
Defined.

(** ** The keys of a combination *)

Section combination_keys.
Import ParametricMapping.
Context {K V : Type} `{EqDecision K}.
Implicit Types (g : group K V) (pm : ParametricMapping.t K V).

Lemma cartesian_rows {A} (ps : list (list A)) (term : list A) :
  term ∈ cartesian ps -> Forall2 (fun p r => r ∈ p) ps term.
Proof.
  revert term. induction ps as [|p ps IH]; intros term; cbn [cartesian].
  - intros Hin. apply list_elem_of_In in Hin as [<-|[]]. constructor.
  - intros Hin. apply list_elem_of_In, in_flat_map in Hin as (r & Hr & Hin).
    apply in_map_iff in Hin as (rest & <- & Hrest).
    constructor; [by apply list_elem_of_In|]. apply IH. by apply list_elem_of_In.
Qed.

Lemma pool_row_length g (row : list V) :
  row ∈ zip_star (values g) -> length row = length g.
Proof.
  intros Hin. apply list_elem_of_lookup in Hin as [i Hi].
  apply zip_star_rows in Hi. by apply Forall2_length in Hi.
Qed.

Lemma term_length (gs : list (group K V)) (term : list (list V)) :
  Forall2 (fun p r => r ∈ p) (map (fun g => zip_star (values g)) gs) term ->
  length (flatten term) = length (flatten (map keys gs)).
Proof.
  revert term. induction gs as [|g gs IH]; intros term Hall.
  - apply Forall2_nil_inv_l in Hall as ->. done.
  - cbn [map] in Hall. apply Forall2_cons_inv_l in Hall as (r & term' & Hr & Hall & ->).
    unfold flatten in *. cbn [map concat]. rewrite !length_app, (IH term' Hall).
    f_equal. rewrite (pool_row_length g r Hr). unfold keys. by rewrite length_map.
Qed.

Lemma dict_set_new (k : K) (v : V) (d : list (K * V)) :
  k ∉ map fst d -> dict_set k v d = d ++ [(k, v)].
Proof.
  induction d as [|[k' v'] d IH]; intros Hn; [done|].
  cbn [dict_set]. destruct (decide (k = k')) as [->|Hne].
  - exfalso. apply Hn. cbn. by left.
  - rewrite IH; [done|]. intros Hin. apply Hn. cbn. by right.
Qed.

Lemma dict_of_pairs_from (kvs d : list (K * V)) :
  NoDup (map fst d ++ map fst kvs) ->
  fold_left (fun d kv => dict_set kv.1 kv.2 d) kvs d = d ++ kvs.
Proof.
  revert d. induction kvs as [|[k v] kvs IH]; intros d Hnd.
  - by rewrite app_nil_r.
  - cbn [fold_left fst snd]. cbn [map fst] in Hnd.
    rewrite dict_set_new.
    + rewrite IH.
      * by rewrite <- app_assoc.
      * rewrite map_app. cbn [map fst]. by rewrite <- app_assoc.
    + apply NoDup_app in Hnd as (_ & Hdis & _). intros Hin.
      apply (Hdis k Hin). by left.
Qed.

Lemma dict_of_pairs_distinct (kvs : list (K * V)) :
  NoDup (map fst kvs) -> dict_of_pairs kvs = kvs.
Proof. intros Hnd. unfold dict_of_pairs. by rewrite dict_of_pairs_from. Qed.

Lemma keys_of_zip (ks : list K) (vs : list V) :
  length ks = length vs -> map fst (zip ks vs) = ks.
Proof.
  revert vs. induction ks as [|k ks IH]; intros [|v vs] Hlen; try done.
  cbn. rewrite IH; [done|]. simpl in Hlen. lia.
Qed.

(** X3: when no label occurs twice, every combination binds exactly the
    labels of the mapping, in their order; the one exception is the single
    empty combination that stands for an empty product. *)
Theorem combinations_bind_every_label pm :
  NoDup (labels pm) ->
  combinations pm = [[]]
  \/ Forall (fun c => map fst c = labels pm) (combinations pm).
Proof.
  intros Hnd. unfold combinations.
  assert (Forall (fun c : list (K * V) => map fst c = labels pm)
            (map (fun v => dict_of_pairs (zip (labels pm) v))
                 (map flatten (product (pools pm))))) as Hall.
  { rewrite map_map. apply Forall_forall. intros c Hin.
    apply list_elem_of_fmap in Hin as (term & -> & Hterm).
    rewrite product_cartesian in Hterm. apply cartesian_rows in Hterm.
    apply term_length in Hterm.
    assert (length (labels pm) = length (flatten term)) as Hlen by done.
    rewrite dict_of_pairs_distinct; by rewrite keys_of_zip. }
  destruct (map _ (map flatten (product (pools pm)))) as [|c cs]; [by left|by right].
Qed.
End combination_keys.

(** X3, witness: the two labels of the scenario. *)
Lemma combinations_bind_every_label_witness :
  ParametricMapping.combinations Examples.scenario = [[]]
  \/ Forall (fun c => map fst c = [("B1", "K"); ("B2", "K")]%string)
            (ParametricMapping.combinations Examples.scenario).
Proof.
  apply (combinations_bind_every_label Examples.scenario).
  repeat constructor; intros Hin; apply list_elem_of_In in Hin; cbn in Hin;
    intuition discriminate.
Defined.

(** ** The parameter table of a new command *)

Section command_table.
Context `{Units}.
Local Open Scope string_scope.

Lemma dict_update_is_Some (p : list (string * value)) (d : gmap string value) a :
  is_Some (Cmd.dict_update d p !! a) <-> is_Some (d !! a) \/ a ∈ map fst p.
Proof.
  revert d. induction p as [|[k v] p IH]; intros d.
  - cbn. split; [by left|]. intros [Hd|Hin]; [done|]. by apply elem_of_nil in Hin.
  - change (Cmd.dict_update d ((k, v) :: p)) with (Cmd.dict_update (<[k:=v]> d) p).
    rewrite IH. cbn [map fst]. rewrite elem_of_cons.
    destruct (decide (a = k)) as [->|Hne].
    + rewrite lookup_insert_eq. split; [intros _; right; by left|intros _; left; by eexists].
    + rewrite lookup_insert_ne by done. tauto.
Qed.

Lemma dicts_is_Some (dicts : list (list (string * value))) (d : gmap string value) a :
  is_Some (fold_left Cmd.dict_update dicts d !! a)
  <-> is_Some (d !! a) \/ a ∈ concat (map (map fst) dicts).
Proof.
  revert d. induction dicts as [|p dicts IH]; intros d.
  - cbn. split; [by left|]. intros [Hd|Hin]; [done|]. by apply elem_of_nil in Hin.
  - cbn [fold_left map concat]. rewrite IH, dict_update_is_Some, elem_of_app. tauto.
Qed.

Lemma kwargs_is_Some (kwargs : list (string * value)) (m : gmap string value) a :
  is_Some (fold_left
             (fun (m : gmap string value) kv =>
                match m !! kv.1 with
                | None => m
                | Some _ => <[kv.1 := kv.2]> m
                end) kwargs m !! a)
  <-> is_Some (m !! a).
Proof.
  revert m. induction kwargs as [|[k v] kwargs IH]; intros m; [done|].
  cbn [fold_left fst snd]. rewrite IH.
  destruct (m !! k) eqn:Hk; [|done].
  destruct (decide (a = k)) as [->|Hne].
  - rewrite lookup_insert_eq, Hk. split; intros _; by eexists.
  - by rewrite lookup_insert_ne.
Qed.

Lemma dictionaries_names (cls : class) (label1 label2 : value)
    (params : list (list (string * value))) (a : string) :
  is_Some (fold_left Cmd.dict_update
             ([Kinds.Command_PARAMETERS; PARAMETERS cls] ++ params
              ++ [[("LABEL1", label1); ("LABEL2", label2)]])%list ∅ !! a)
  <-> a ∈ (["LABEL1"; "LABEL2"] ++ map fst (PARAMETERS cls)
             ++ concat (map (map fst) params))%list.
Proof.
  rewrite dicts_is_Some, lookup_empty.
  rewrite !map_app, !concat_app. cbn [map concat fst Kinds.Command_PARAMETERS].
  rewrite !elem_of_app, !elem_of_cons, !elem_of_nil.
  pose proof (@is_Some_None value) as Hnone. tauto.
Qed.

(** X4: the table of a new command binds [LABEL1], [LABEL2], the names of
    the [PARAMETERS] of its kind and the keys of the further dictionaries,
    and nothing else: a keyword argument never adds a name. *)
Theorem init_binds_declared_names (cls : class) (uuid label1 label2 : string)
    (params : list (list (string * value))) (kwargs : list (string * value))
    (a : string) :
  is_Some (_attributes (Cmd.__init__ cls uuid label1 label2 params kwargs) !! a)
  <-> a ∈ (["LABEL1"; "LABEL2"] ++ map fst (PARAMETERS cls)
             ++ concat (map (map fst) params))%list.
Proof.
  unfold Cmd.__init__. cbn [_attributes].
  rewrite kwargs_is_Some. apply dictionaries_names.
Qed.
End command_table.

(** ** Keyword arguments, labels and assignment *)

Section command_values.
Context `{Units}.
Local Open Scope string_scope.

Lemma kwargs_lookup_notin (kwargs : list (string * value)) (m : gmap string value) a :
  a ∉ map fst kwargs ->
  fold_left
    (fun (m : gmap string value) kv =>
       match m !! kv.1 with
       | None => m
       | Some _ => <[kv.1 := kv.2]> m
       end) kwargs m !! a = m !! a.
Proof.
  revert m. induction kwargs as [|[k v] kwargs IH]; intros m Hn; [done|].
  cbn [fold_left fst snd]. cbn [map fst] in Hn. apply not_elem_of_cons in Hn as [Hne Hn].
  rewrite IH by done. destruct (m !! k); [|done]. by rewrite lookup_insert_ne.
Qed.

Lemma kwargs_lookup_in (kwargs : list (string * value)) (m : gmap string value) a v :
  NoDup (map fst kwargs) -> (a, v) ∈ kwargs -> is_Some (m !! a) ->
  fold_left
    (fun (m : gmap string value) kv =>
       match m !! kv.1 with
       | None => m
       | Some _ => <[kv.1 := kv.2]> m
       end) kwargs m !! a = Some v.
Proof.
  revert m. induction kwargs as [|[k v0] kwargs IH]; intros m Hnd Hin Hm.
  - by apply elem_of_nil in Hin.
  - cbn [map fst] in Hnd. apply NoDup_cons in Hnd as [Hfresh Hnd].
    cbn [fold_left fst snd]. apply elem_of_cons in Hin as [Heq|Hin].
    + injection Heq as -> ->. destruct Hm as [w Hm]. rewrite Hm.
      rewrite kwargs_lookup_notin by done. apply lookup_insert_eq.
    + assert (a <> k) as Hne.
      { intros ->. apply Hfresh. apply list_elem_of_fmap. by exists (k, v). }
      apply IH; [done|done|].
      destruct (m !! k); [|done]. by rewrite lookup_insert_ne.
Qed.

Lemma init_label_entries (cls : class) (uuid label1 label2 : string)
    (params : list (list (string * value))) :
  let table :=
    fold_left Cmd.dict_update
      ([Kinds.Command_PARAMETERS; PARAMETERS cls] ++ params
       ++ [[("LABEL1", VStr (if PyStr.is_empty label1
                             then String.substring 0 10 uuid else label1));
            ("LABEL2", VStr label2)]])%list ∅ in
  table !! "LABEL1"
  = Some (VStr (if PyStr.is_empty label1 then String.substring 0 10 uuid else label1))
  /\ table !! "LABEL2" = Some (VStr label2).
Proof.
  intros table. unfold table.
  rewrite app_assoc, fold_left_app. cbn [fold_left Cmd.dict_update fst snd].
  split.
  - rewrite lookup_insert_ne by done. apply lookup_insert_eq.
  - apply lookup_insert_eq.
Qed.

(** X5: a keyword argument that names a bound parameter gives that
    parameter its value, whatever the dictionaries and the labels said;
    without such an argument [LABEL1] is the label given, or the first ten
    characters of the identifier drawn when the label is empty, and
    [LABEL2] is the second label. *)
Theorem init_keyword_arguments (cls : class) (uuid label1 label2 : string)
    (params : list (list (string * value))) (kwargs : list (string * value)) :
  NoDup (map fst kwargs) ->
  let table := _attributes (Cmd.__init__ cls uuid label1 label2 params kwargs) in
  (forall a v, (a, v) ∈ kwargs ->
     a ∈ (["LABEL1"; "LABEL2"] ++ map fst (PARAMETERS cls)
          ++ concat (map (map fst) params))%list ->
     table !! a = Some v)
  /\ ("LABEL1" ∉ map fst kwargs ->
      table !! "LABEL1"
      = Some (VStr (if PyStr.is_empty label1
                    then String.substring 0 10 uuid else label1)))
  /\ ("LABEL2" ∉ map fst kwargs -> table !! "LABEL2" = Some (VStr label2)).
Proof.
  intros Hnd table.
  destruct (init_label_entries cls uuid label1 label2 params) as [H1 H2].
  split; [|split].
  - intros a v Hin Ha. unfold table, Cmd.__init__. cbn [_attributes].
    apply kwargs_lookup_in; [done|done|]. by apply dictionaries_names.
  - intros Hn. unfold table, Cmd.__init__. cbn [_attributes].
    by rewrite kwargs_lookup_notin.
  - intros Hn. unfold table, Cmd.__init__. cbn [_attributes].
    by rewrite kwargs_lookup_notin.
Qed.

(** X6: a [Marker] ignores the second label it is given: whatever the
    labels, dictionaries and keyword arguments, its [LABEL2] is [.plt] with
    [with_plt] and the empty text without, and reads as the empty text
    then; the class and [LABEL1] are those of the common constructor. *)
Theorem marker_ignores_label2 (uuid label1 label2 : string)
    (params : list (list (string * value))) (with_plt : bool)
    (kwargs : list (string * value)) :
  exists c,
    Cmd.Marker__init__ uuid label1 label2 params with_plt kwargs = Returns c
    /\ cmd_class c = Kinds.Marker
    /\ _attributes c !! "LABEL2" = Some (VStr (if with_plt then ".plt" else ""))
    /\ (with_plt = false -> Cmd.getattr c "LABEL2" = Returns (VStr ""))
    /\ ("LABEL1" ∉ map fst kwargs ->
        _attributes c !! "LABEL1"
        = Some (VStr (if PyStr.is_empty label1
                      then String.substring 0 10 uuid else label1))).
Proof.
  unfold Cmd.Marker__init__, Cmd.__setattr__. cbn [String.eqb Ascii.eqb Bool.eqb].
  eexists. split; [reflexivity|]. cbn [cmd_class _attributes].
  split; [done|]. split; [apply lookup_insert_eq|]. split.
  - intros ->. unfold Cmd.getattr. cbn -[Cmd.__init__].
    unfold Cmd.__getattr__. cbn [_attributes]. by rewrite lookup_insert_eq.
  - intros Hn. rewrite lookup_insert_ne by done.
    unfold Cmd.__init__. cbn [_attributes]. rewrite kwargs_lookup_notin by done.
    apply (init_label_entries Kinds.Marker uuid label1 label2
             (PARAMETERS Kinds.Marker :: params)).
Qed.

(** X7: assigning an ordinary parameter name always succeeds; the name
    then reads as the value assigned does ([None], a quantity and the empty
    text read as themselves), every other attribute reads as before and the
    class is unchanged. *)
Theorem setattr_then_getattr (c : Command) (a : string) (v : value) :
  is_parameter_name a = true ->
  exists c',
    Cmd.__setattr__ c a v = Returns c'
    /\ Cmd.getattr c' a = Cmd.read_entry (Some v)
    /\ (v = VNone \/ v = VStr "" \/ is_quantity v = true -> Cmd.getattr c' a = Returns v)
    /\ (forall b, b <> a -> Cmd.getattr c' b = Cmd.getattr c b)
    /\ cmd_class c' = cmd_class c.
Proof.
  intros Hp. exists (stored a v c).
  assert (Cmd.getattr (stored a v c) a = Cmd.read_entry (Some v)) as Hread.
  { rewrite getattr_parameter by done. unfold Cmd.__getattr__, stored.
    cbn [_attributes]. by rewrite lookup_insert_eq. }
  split; [by apply setattr_parameter|]. split; [exact Hread|]. split; [|split; [|done]].
  - rewrite Hread. intros [->|[->|Hq]]; [done|done|].
    by destruct v.
  - intros b Hb. unfold Cmd.getattr, Cmd.__getattr__, stored.
    cbn [cmd_class _attributes _output]. by rewrite lookup_insert_ne.
Qed.
Lemma dict_update_lookup_in (p : list (string * value)) (d : gmap string value) a v :
  NoDup (map fst p) -> (a, v) ∈ p -> Cmd.dict_update d p !! a = Some v.
Proof.
  revert d. induction p as [|[k v0] p IH]; intros d Hnd Hin.
  - by apply elem_of_nil in Hin.
  - cbn [map fst] in Hnd. apply NoDup_cons in Hnd as [Hfresh Hnd].
    change (Cmd.dict_update d ((k, v0) :: p)) with (Cmd.dict_update (<[k:=v0]> d) p).
    apply elem_of_cons in Hin as [Heq|Hin].
    + injection Heq as -> ->. rewrite dict_update_lookup by done. apply lookup_insert_eq.
    + by apply IH.
Qed.

(** X8: a parameter that the kind declares, other than the two labels,
    starts with the default of the kind unless a further dictionary or a
    keyword argument names it. *)
Theorem init_defaults (cls : class) (uuid label1 label2 : string)
    (params : list (list (string * value))) (kwargs : list (string * value))
    (a : string) (d : value) :
  NoDup (map fst (PARAMETERS cls)) -> (a, d) ∈ PARAMETERS cls ->
  a <> "LABEL1" -> a <> "LABEL2" ->
  a ∉ concat (map (map fst) params) -> a ∉ map fst kwargs ->
  _attributes (Cmd.__init__ cls uuid label1 label2 params kwargs) !! a = Some d
  /\ Cmd.__getattr__ (Cmd.__init__ cls uuid label1 label2 params kwargs) a
     = Cmd.read_entry (Some d).
Proof.
  intros Hnd Hin H1 H2 Hparams Hkw.
  assert (_attributes (Cmd.__init__ cls uuid label1 label2 params kwargs) !! a = Some d)
    as Hentry.
  { unfold Cmd.__init__. cbn [_attributes]. rewrite kwargs_lookup_notin by done.
    rewrite app_assoc, fold_left_app. cbn [fold_left].
    rewrite dict_update_lookup.
    - rewrite fold_left_app, dicts_lookup_notin by done.
      cbn [fold_left]. by apply dict_update_lookup_in.
    - cbn [map fst]. rewrite !not_elem_of_cons. split; [done|]. split; [done|].
      apply not_elem_of_nil. }
  split; [exact Hentry|]. unfold Cmd.__getattr__. by rewrite Hentry.
Qed.
End command_values.

(** X8, witness: [IP] of a [FaiStore] is one. *)
Lemma init_defaults_witness :
  _attributes (Cmd.__init__ Kinds.FaiStore "0123456789abcdef" "STORE" "" [] [])
    !! "IP"%string = Some (VInt 1).
Proof.
  apply (@init_defaults Reference.units Kinds.FaiStore "0123456789abcdef" "STORE" ""
           [] [] "IP" (VInt 1)).
  - repeat constructor; intros Hin; apply list_elem_of_In in Hin; cbn in Hin;
      intuition discriminate.
  - apply list_elem_of_In. cbn. tauto.
  - discriminate.
  - discriminate.
  - apply not_elem_of_nil.
  - apply not_elem_of_nil.
Defined.

(** X5, witness: [IP] of a [FaiStore] given as a keyword argument. *)
Lemma init_keyword_arguments_witness :
  _attributes (Cmd.__init__ Kinds.FaiStore "0123456789abcdef" "STORE" "" []
                 [("IP"%string, VInt 5)]) !! "IP"%string = Some (VInt 5).
Proof.
  assert (NoDup (map fst [("IP"%string, VInt 5)])) as Hnd.
  { repeat constructor. intros Hin. by apply elem_of_nil in Hin. }
  destruct (init_keyword_arguments Kinds.FaiStore "0123456789abcdef" "STORE" "" []
              [("IP"%string, VInt 5)] Hnd) as [Hkw _].
  apply Hkw.
  - by left.
  - apply list_elem_of_In. cbn. tauto.
Defined.

(** X7, witness: [LABEL2] of an [End]. *)
Lemma setattr_then_getattr_witness :
  exists c',
    Cmd.__setattr__ Examples.end_command "LABEL2" (VQuantity (VInt 1) "cm") = Returns c'
    /\ @Cmd.getattr Reference.units c' "LABEL2" = Returns (VQuantity (VInt 1) "cm")
    /\ @Cmd.getattr Reference.units c' "LABEL1"
       = @Cmd.getattr Reference.units Examples.end_command "LABEL1".
Proof.
  destruct (@setattr_then_getattr Reference.units Examples.end_command "LABEL2"
              (VQuantity (VInt 1) "cm") eq_refl)
    as (c' & Hset & _ & Hself & Hothers & _).
  exists c'. split; [exact Hset|]. split.
  - apply Hself. right. right. reflexivity.
  - by apply Hothers.
Defined.

(** ** Positions in the sequence *)

Section positions.
Context `{Units} `{Package}.
Implicit Types (h : gmap loc Command) (self : Input) (line : list loc).

Lemma index_of_loc_returns line (obj : loc) (i : nat) :
  Inp.index_of_loc line obj = Returns i
  <-> line !! i = Some obj /\ obj ∉ take i line.
Proof.
  revert i. induction line as [|e line IH]; intros i; cbn [Inp.index_of_loc].
  - split; [done|]. by intros [Hl _].
  - case_bool_decide as He.
    + subst e. split.
      * intros [= <-]. split; [done|]. cbn. apply not_elem_of_nil.
      * intros [Hl Hn]. destruct i as [|i]; [done|].
        exfalso. apply Hn. cbn. by left.
    + destruct (Inp.index_of_loc line obj) as [j|x] eqn:Hj; cbn [obind].
      * split.
        -- intros [= <-]. destruct (proj1 (IH j) eq_refl) as [Hl Hn]. split; [done|].
           cbn [take]. apply not_elem_of_cons. by split; [congruence|].
        -- intros [Hl Hn]. destruct i as [|i]; [cbn in Hl; congruence|].
           cbn [take] in Hn. apply not_elem_of_cons in Hn as [_ Hn].
           assert (Returns (A := nat) j = Returns i) as Heq by (apply IH; by split).
           by injection Heq as ->.
      * split; [done|]. intros [Hl Hn]. destruct i as [|i]; [cbn in Hl; congruence|].
        cbn [take] in Hn. apply not_elem_of_cons in Hn as [_ Hn].
        assert (Raises (A := nat) x = Returns i) as Heq by (apply IH; by split).
        done.
Qed.

Lemma index_of_loc_raises line (obj : loc) :
  (forall x, Inp.index_of_loc line obj = Raises x -> x = ValueError)
  /\ (Inp.index_of_loc line obj = Raises ValueError <-> obj ∉ line).
Proof.
  induction line as [|e line [IHx IH]]; cbn [Inp.index_of_loc].
  - split; [by intros x [= <-]|]. split; [intros _; apply not_elem_of_nil|done].
  - case_bool_decide as He.
    + subst e. split; [done|]. split; [done|]. intros Hn. exfalso. apply Hn. by left.
    + destruct (Inp.index_of_loc line obj) as [j|x] eqn:Hj; cbn [obind].
      * split; [done|]. split; [done|]. intros Hn.
        apply not_elem_of_cons in Hn as [_ Hn]. apply IH in Hn. done.
      * pose proof (IHx x eq_refl) as ->. split; [by intros x [= <-]|].
        split; [|done]. intros _. apply not_elem_of_cons. split; [congruence|].
        by apply IH.
Qed.

Lemma getitem_position self h (i : nat) (e : loc) :
  _line self !! i = Some e ->
  Inp.__getitem__ self (SelIndex (Z.of_nat i)) h = Returns (OneCommand e).
Proof.
  intros Hl. cbn [Inp.__getitem__].
  assert ((Z.of_nat i <? 0)%Z = false) as Hneg by (apply Z.ltb_ge; lia).
  rewrite !Hneg. by rewrite Nat2Z.id, Hl.
Qed.

Lemma getitem_from_end self h (i : nat) (e : loc) :
  _line self !! i = Some e ->
  Inp.__getitem__ self (SelIndex (Z.of_nat i - Z.of_nat (length (_line self)))) h
  = Returns (OneCommand e).
Proof.
  intros Hl. pose proof (lookup_lt_Some _ _ _ Hl) as Hlt.
  cbn [Inp.__getitem__]. set (n := Z.of_nat (length (_line self))).
  assert ((Z.of_nat i - n <? 0)%Z = true) as -> by (apply Z.ltb_lt; lia).
  assert ((Z.of_nat i - n + n <? 0)%Z = false) as -> by (apply Z.ltb_ge; lia).
  replace (Z.of_nat i - n + n)%Z with (Z.of_nat i) by lia.
  by rewrite Nat2Z.id, Hl.
Qed.

(** X9: [index] of a command object returns the first position that holds
    it, and the element read at that position is the object; it raises
    [ValueError], and nothing else, exactly when the object is not in the
    sequence. *)
Theorem index_of_command self (l : loc) h :
  (forall i, Inp.index self (ByCommand l) h = Returns i
     <-> _line self !! i = Some l /\ l ∉ take i (_line self))
  /\ (forall i, Inp.index self (ByCommand l) h = Returns i ->
        Inp.__getitem__ self (SelIndex (Z.of_nat i)) h = Returns (OneCommand l))
  /\ (forall x, Inp.index self (ByCommand l) h = Raises x -> x = ValueError)
  /\ (Inp.index self (ByCommand l) h = Raises ValueError <-> l ∉ _line self).
Proof.
  unfold Inp.index, Inp.line.
  split; [|split; [|apply index_of_loc_raises]].
  - intros i. apply index_of_loc_returns.
  - intros i Hi. apply index_of_loc_returns in Hi as [Hl _].
    by apply getitem_position.
Qed.
Lemma index_of_label_returns h line (s : string) (i : nat) :
  Inp.index_of_label h line s = Returns i ->
  exists e label,
    line !! i = Some e
    /\ Cmd.getattr (h !!! e) "LABEL1" = Returns label
    /\ py_eq label (VStr s) = true
    /\ (forall j e', (j < i)%nat -> line !! j = Some e' ->
          exists label', Cmd.getattr (h !!! e') "LABEL1" = Returns label'
                         /\ py_eq label' (VStr s) = false).
Proof.
  revert i. induction line as [|e line IH]; intros i; cbn [Inp.index_of_label]; [done|].
  destruct (Cmd.getattr (h !!! e) "LABEL1") as [label|x] eqn:Hlabel; cbn [obind]; [|done].
  destruct (py_eq label (VStr s)) eqn:Heq.
  - intros [= <-]. exists e, label. repeat split; try done. intros j e' Hj. lia.
  - destruct (Inp.index_of_label h line s) as [k|x]; cbn [obind]; [|done].
    intros [= <-]. destruct (IH k eq_refl) as (e0 & label0 & Hl & Hg & Hp & Hbefore).
    exists e0, label0. repeat split; try done.
    intros [|j] e' Hj Hl'.
    + cbn in Hl'. injection Hl' as <-. by exists label.
    + cbn in Hl'. apply (Hbefore j e'); [lia|done].
Qed.

Lemma scans_agree h line (s : string) :
  match Inp.find_label h line s, Inp.index_of_label h line s with
  | Returns e, Returns i => line !! i = Some e
  | Raises x, Raises y => (x = AttributeError /\ y = ValueError) \/ x = y
  | _, _ => False
  end.
Proof.
  induction line as [|e line IH]; cbn [Inp.find_label Inp.index_of_label].
  - by left.
  - destruct (Cmd.getattr (h !!! e) "LABEL1") as [label|x]; cbn [obind]; [|by right].
    destruct (py_eq label (VStr s)); [done|].
    destruct (Inp.find_label h line s) as [e0|x],
             (Inp.index_of_label h line s) as [i|y]; cbn [obind]; done.
Qed.

(** X10: [index] of a label returns the first position whose command reads
    a [LABEL1] equal to it, every earlier label being readable and
    different; that command is the one attribute access on the sequence
    returns for the label, and the one read at the position.  Conversely,
    whenever attribute access finds a command, [index] finds its
    position. *)
Theorem index_of_label_agrees_with_getattr self (s : string) h :
  (forall i, Inp.index self (ByLabel s) h = Returns i ->
     exists e label,
       _line self !! i = Some e
       /\ Cmd.getattr (h !!! e) "LABEL1" = Returns label
       /\ py_eq label (VStr s) = true
       /\ (forall j e', (j < i)%nat -> _line self !! j = Some e' ->
             exists label', Cmd.getattr (h !!! e') "LABEL1" = Returns label'
                            /\ py_eq label' (VStr s) = false)
       /\ Inp.__getattr__ self s h = Returns e
       /\ Inp.__getitem__ self (SelIndex (Z.of_nat i)) h = Returns (OneCommand e))
  /\ (forall e, Inp.__getattr__ self s h = Returns e ->
        exists i, Inp.index self (ByLabel s) h = Returns i /\ _line self !! i = Some e).
Proof.
  unfold Inp.index, Inp.__getattr__, Inp.line.
  pose proof (scans_agree h (_line self) s) as Hagree.
  split.
  - intros i Hi. rewrite Hi in Hagree.
    destruct (index_of_label_returns h _ s i Hi) as (e & label & Hl & Hg & Hp & Hbefore).
    exists e, label. repeat split; try done.
    + destruct (Inp.find_label h (_line self) s) as [e0|x]; [|done]. congruence.
    + by apply getitem_position.
  - intros e He. rewrite He in Hagree.
    destruct (Inp.index_of_label h (_line self) s) as [i|y]; [|done]. by exists i.
Qed.
(** X11: an integer index reads the sequence as a Python sequence does:
    position [i] and position [i - len] are the same command, and the
    access raises [IndexError], and nothing else, exactly outside
    [-len .. len - 1]. *)
Theorem getitem_integer_index self (z : Z) h :
  let n := Z.of_nat (length (_line self)) in
  (forall i e, _line self !! i = Some e ->
     Inp.__getitem__ self (SelIndex (Z.of_nat i)) h = Returns (OneCommand e)
     /\ Inp.__getitem__ self (SelIndex (Z.of_nat i - n)) h = Returns (OneCommand e))
  /\ ((z < - n \/ n <= z)%Z
      <-> Inp.__getitem__ self (SelIndex z) h = Raises IndexError)
  /\ (forall x, Inp.__getitem__ self (SelIndex z) h = Raises x -> x = IndexError).
Proof.
  intros n. split; [|split].
  - intros i e Hl. split; [by apply getitem_position|by apply getitem_from_end].
  - cbn [Inp.__getitem__]. fold n.
    destruct (z <? 0)%Z eqn:Hz; [apply Z.ltb_lt in Hz|apply Z.ltb_ge in Hz].
    + destruct (z + n <? 0)%Z eqn:Hzn; [apply Z.ltb_lt in Hzn|apply Z.ltb_ge in Hzn].
      * split; [done|]. intros _. left. lia.
      * destruct (_line self !! Z.to_nat (z + n)) as [e|] eqn:Hl.
        -- split; [lia|done].
        -- apply lookup_ge_None in Hl. lia.
    + assert ((z <? 0)%Z = false) as -> by (apply Z.ltb_ge; lia).
      destruct (_line self !! Z.to_nat z) as [e|] eqn:Hl.
      * apply lookup_lt_Some in Hl. split; [lia|done].
      * apply lookup_ge_None in Hl. split; [done|]. intros _. right. lia.
  - intros x. cbn [Inp.__getitem__].
    destruct (_ <? 0)%Z; [by intros [= <-]|].
    destruct (_ !! _); [done|by intros [= <-]].
Qed.

Lemma taken_from {A} (x : A) (n : nat) (l : list A) : x ∈ take n l -> x ∈ l.
Proof. intros Hx. rewrite <- (take_drop n l). apply elem_of_app. by left. Qed.

Lemma set_line_same self : Inp.set_line self (_line self) = self.
Proof. by destruct self. Qed.

Lemma set_line_twice self (l l' : list loc) :
  Inp.set_line (Inp.set_line self l) l' = Inp.set_line self l'.
Proof. done. Qed.

Lemma filter_other (l : loc) (line : list loc) :
  l ∉ line -> filter (fun c => c <> l) line = line.
Proof.
  induction line as [|e line IH]; intros Hn; [done|].
  apply not_elem_of_cons in Hn as [Hne Hn].
  rewrite filter_cons_True by congruence. by rewrite IH.
Qed.

(** X12: [+=] appends: the length grows by one, the command is the last
    element, the earlier positions are unchanged; when the command was not
    in the sequence, its [index] is the former length and [-=] with it gives
    the former sequence back. *)
Theorem iadd_appends self (c : loc) h :
  Inp.__len__ (Inp.__iadd__ self c) = S (Inp.__len__ self)
  /\ Inp.__getitem__ (Inp.__iadd__ self c) (SelIndex (-1)) h = Returns (OneCommand c)
  /\ (forall i e, _line self !! i = Some e ->
        Inp.__getitem__ (Inp.__iadd__ self c) (SelIndex (Z.of_nat i)) h
        = Returns (OneCommand e))
  /\ (c ∉ _line self ->
        Inp.index (Inp.__iadd__ self c) (ByCommand c) h = Returns (Inp.__len__ self)
        /\ Inp.__isub__ (Inp.__iadd__ self c) (ByCommand c) h = Returns self).
Proof.
  unfold Inp.__len__. cbn [Inp.__iadd__ _line].
  split; [rewrite length_app; simpl; lia|]. split; [|split].
  - pose proof (getitem_from_end (Inp.__iadd__ self c) h (length (_line self)) c) as Hlast.
    cbn [Inp.__iadd__ _line] in Hlast.
    rewrite lookup_app_r in Hlast by lia. rewrite Nat.sub_diag in Hlast.
    specialize (Hlast eq_refl).
    rewrite length_app in Hlast. cbn [length] in Hlast.
    replace (Z.of_nat (length (_line self))
             - Z.of_nat (length (_line self) + 1))%Z with (-1)%Z in Hlast by lia.
    exact Hlast.
  - intros i e Hl. apply getitem_position. cbn [Inp.__iadd__ _line].
    by apply lookup_app_l_Some.
  - intros Hn. split.
    + unfold Inp.index, Inp.line. cbn [Inp.__iadd__ _line].
      apply index_of_loc_returns. split.
      * rewrite lookup_app_r by lia. by rewrite Nat.sub_diag.
      * by rewrite take_app_length.
    + cbn [Inp.__isub__ Inp.__iadd__ _line]. f_equal.
      rewrite filter_app, filter_other by done.
      rewrite filter_cons_False by (intros Hc; by apply Hc).
      rewrite filter_nil, app_nil_r. by destruct self.
Qed.

(** X13: [replace] puts the new command at the first position of the old
    one and changes no other position; when the new command was not in the
    sequence, replacing it back gives the former sequence.  [replace] of a
    command that is not in the sequence raises [ValueError]. *)
Theorem replace_round_trip self (l o : loc) h :
  (l ∉ _line self -> Inp.replace self (ByCommand l) o h = Raises ValueError)
  /\ (l ∈ _line self ->
      exists i self1,
        Inp.index self (ByCommand l) h = Returns i
        /\ Inp.replace self (ByCommand l) o h = Returns self1
        /\ _line self1 !! i = Some o
        /\ (forall j, j <> i -> _line self1 !! j = _line self !! j)
        /\ Inp.__len__ self1 = Inp.__len__ self
        /\ (o ∉ _line self ->
            Inp.index self1 (ByCommand o) h = Returns i
            /\ Inp.replace self1 (ByCommand o) l h = Returns self)).
Proof.
  split.
  - intros Hn. unfold Inp.replace, Inp.index, Inp.line.
    destruct (index_of_loc_raises (_line self) l) as [_ Habsent].
    by rewrite (proj2 Habsent Hn).
  - intros Hin. unfold Inp.replace, Inp.index, Inp.line.
    destruct (Inp.index_of_loc (_line self) l) as [i|x] eqn:Hi.
    + pose proof Hi as Hi'. apply index_of_loc_returns in Hi' as [Hl Hfirst].
      pose proof (lookup_lt_Some _ _ _ Hl) as Hlt.
      exists i, (Inp.set_line self (<[i := o]> (_line self))).
      cbn [obind Inp.set_line _line]. split; [done|]. split; [done|].
      split; [by apply list_lookup_insert_eq|].
      split; [intros j Hj; by apply list_lookup_insert_ne|].
      split; [unfold Inp.__len__, Inp.set_line; cbn [_line]; by rewrite length_insert|].
      intros Hn.
      assert (Inp.index_of_loc (<[i := o]> (_line self)) o = Returns i) as Ho.
      { apply index_of_loc_returns. split; [by apply list_lookup_insert_eq|].
        rewrite take_insert_ge by lia. intros Hx. apply Hn.
        by eapply taken_from. }
      split; [exact Ho|]. rewrite Ho. cbn [obind]. f_equal.
      rewrite list_insert_insert_eq, (list_insert_id _ _ _ Hl). by destruct self.
    + exfalso. destruct (index_of_loc_raises (_line self) l) as [Hx Habsent].
      pose proof (Hx x Hi) as ->. by apply Habsent in Hi.
Qed.
End positions.

(** ** Insertion and removal *)

Section removal.
Context `{Units} `{Package}.
Implicit Types (h : gmap loc Command) (self : Input) (line : list loc).
Local Open Scope string_scope.

Lemma mapM_ext {A B} (f g : A -> outcome B) (xs : list A) :
  (forall x, f x = g x) -> mapM f xs = mapM g xs.
Proof. intros Hfg. induction xs as [|x xs IH]; [done|]. cbn [mapM]. by rewrite Hfg, IH. Qed.

Lemma mapM_tagged {A} (tag : A -> outcome bool) (xs : list A) kept :
  mapM (fun c => let? b := tag c in Returns (c, b)) xs = Returns kept ->
  Forall (fun c => exists b, tag c = Returns b) xs
  /\ map fst (filter (fun p => p.2 = true) kept)
     = filter (fun c => match tag c with Returns b => b | Raises _ => false end = true) xs.
Proof.
  revert kept. induction xs as [|x xs IH]; intros kept; cbn [mapM].
  - intros [= <-]. split; [constructor|done].
  - destruct (tag x) as [b|e] eqn:Hx; cbn [obind]; [|done].
    destruct (mapM _ xs) as [kept'|e]; cbn [obind]; [|done].
    intros [= <-]. destruct (IH kept' eq_refl) as [Hall Heq].
    split; [constructor; [by exists b|done]|].
    destruct b.
    + rewrite filter_cons_True by done. rewrite (filter_cons_True _ x) by by rewrite Hx.
      cbn [map fst]. by rewrite Heq.
    + rewrite filter_cons_False by done. rewrite (filter_cons_False _ x) by by rewrite Hx.
      exact Heq.
Qed.

Lemma mapM_tagged_all {A} (tag : A -> outcome bool) (xs : list A) :
  Forall (fun c => tag c = Returns true) xs ->
  exists kept,
    mapM (fun c => let? b := tag c in Returns (c, b)) xs = Returns kept
    /\ map fst (filter (fun p => p.2 = true) kept) = xs.
Proof.
  induction 1 as [|x xs Hx _ (kept & Hm & Hk)]; [by exists []|].
  exists ((x, true) :: kept). cbn [mapM]. rewrite Hx, Hm. cbn [obind].
  split; [done|]. rewrite filter_cons_True by done. cbn [map fst]. by rewrite Hk.
Qed.

Lemma filter_tag_kept {A} (tag : A -> outcome bool) (xs : list A) :
  Forall (fun c => tag c = Returns true)
    (filter (fun c => match tag c with Returns b => b | Raises _ => false end = true) xs).
Proof.
  apply Forall_forall. intros c Hc. apply list_elem_of_filter in Hc as [Hc _].
  destruct (tag c) as [[|]|e]; done.
Qed.

Lemma scan_without_match h line (s : string) :
  Forall (fun c => exists label, Cmd.getattr (h !!! c) "LABEL1" = Returns label
                                 /\ py_eq label (VStr s) = false) line ->
  Inp.find_label h line s = Raises AttributeError
  /\ Inp.index_of_label h line s = Raises ValueError.
Proof.
  induction 1 as [|c line (label & Hg & Hp) _ [IH1 IH2]]; [done|].
  cbn [Inp.find_label Inp.index_of_label]. by rewrite Hg, IH1, IH2; cbn [obind]; rewrite Hp.
Qed.

Lemma index_in_range self (element : operand) h (i : nat) :
  Inp.index self element h = Returns i -> (i < length (_line self))%nat.
Proof.
  destruct element as [s|l]; unfold Inp.index, Inp.line; intros Hi.
  - destruct (index_of_label_returns h _ s i Hi) as (e & label & Hl & _).
    by eapply lookup_lt_Some.
  - apply index_of_loc_returns in Hi as [Hl _]. by eapply lookup_lt_Some.
Qed.
Lemma filter_inserted (o : loc) (k : nat) line :
  o ∉ line -> filter (fun c => c <> o) (Inp.insert_at k o line) = line.
Proof.
  intros Hn. unfold Inp.insert_at.
  rewrite filter_app, filter_cons_False by (intros Hc; by apply Hc).
  rewrite !filter_other.
  - apply take_drop.
  - intros Hx. apply Hn. rewrite <- (take_drop k line). apply elem_of_app. by right.
  - intros Hx. apply Hn. by eapply taken_from.
Qed.

Lemma index_of_inserted (o : loc) (k : nat) line :
  o ∉ line -> (k <= length line)%nat ->
  Inp.index_of_loc (Inp.insert_at k o line) o = Returns k.
Proof.
  intros Hn Hk. apply index_of_loc_returns. unfold Inp.insert_at.
  assert (length (take k line) = k) as Hlen by (rewrite length_take; lia).
  split.
  - rewrite lookup_app_r by lia. by rewrite Hlen, Nat.sub_diag.
  - rewrite take_app_ge by lia. rewrite Hlen, Nat.sub_diag. cbn [take].
    rewrite app_nil_r. intros Hx. apply Hn. by eapply taken_from.
Qed.

(** X14: [insert_before] and [insert_after] place the new command right
    before and right after the first position of the element, which gives
    what [index] returns for it afterwards; when it was not in the sequence
    before, [-=] with it gives the former sequence back.  When the element
    is not found the exception of [index] is raised. *)
Theorem insert_then_remove self (element : operand) (o : loc) h :
  (forall x, Inp.index self element h = Raises x ->
     Inp.insert_before self element o h = Raises x
     /\ Inp.insert_after self element o h = Raises x)
  /\ (forall i, Inp.index self element h = Returns i ->
      exists before after,
        Inp.insert_before self element o h = Returns before
        /\ Inp.insert_after self element o h = Returns after
        /\ _line before !! i = Some o
        /\ _line before !! S i = _line self !! i
        /\ _line after !! i = _line self !! i
        /\ _line after !! S i = Some o
        /\ Inp.__len__ before = S (Inp.__len__ self)
        /\ Inp.__len__ after = S (Inp.__len__ self)
        /\ (o ∉ _line self ->
            Inp.index before (ByCommand o) h = Returns i
            /\ Inp.index after (ByCommand o) h = Returns (S i)
            /\ Inp.__isub__ before (ByCommand o) h = Returns self
            /\ Inp.__isub__ after (ByCommand o) h = Returns self)).
Proof.
  split.
  - intros x Hx. unfold Inp.insert_before, Inp.insert_after. by rewrite Hx.
  - intros i Hi. pose proof (index_in_range self element h i Hi) as Hlt.
    unfold Inp.insert_before, Inp.insert_after. rewrite Hi. cbn [obind].
    eexists _, _. split; [reflexivity|]. split; [reflexivity|].
    unfold Inp.line, Inp.__len__, Inp.set_line, Inp.index, Inp.__isub__.
    cbn [_line _name _paths _optical_length _reference_frame _private].
    unfold Inp.line. cbn [_line].
    replace (i + 1)%nat with (S i) by lia.
    assert (length (take i (_line self)) = i) as Hi0 by (rewrite length_take; lia).
    assert (length (take (S i) (_line self)) = S i) as Hi1 by (rewrite length_take; lia).
    split; [|split; [|split; [|split; [|split; [|split]]]]].
    + unfold Inp.insert_at. rewrite lookup_app_r by lia. by rewrite Hi0, Nat.sub_diag.
    + unfold Inp.insert_at. rewrite lookup_app_r by lia.
      rewrite Hi0. replace (S i - i)%nat with 1%nat by lia.
      change ((o :: drop i (_line self)) !! 1%nat) with (drop i (_line self) !! 0%nat).
      rewrite lookup_drop. f_equal. lia.
    + unfold Inp.insert_at. rewrite lookup_app_l by lia. apply lookup_take_lt. lia.
    + unfold Inp.insert_at. rewrite lookup_app_r by lia. by rewrite Hi1, Nat.sub_diag.
    + unfold Inp.insert_at. rewrite length_app. cbn [length]. rewrite length_take, length_drop.
      lia.
    + unfold Inp.insert_at. rewrite length_app. cbn [length]. rewrite length_take, length_drop.
      lia.
    + intros Hn. rewrite !index_of_inserted by (done || lia).
      rewrite !filter_inserted by done. by destruct self.
Qed.

(** X15: [-=] with a command object never raises; it keeps, in order, the
    commands other than the object, so that every occurrence is gone and
    [index] of the object raises [ValueError] afterwards; doing it again
    changes nothing, and the name and the paths are untouched. *)
Theorem isub_by_command self (l : loc) h :
  exists self',
    Inp.__isub__ self (ByCommand l) h = Returns self'
    /\ _line self' `sublist_of` _line self
    /\ (forall e, e ∈ _line self' <-> e ∈ _line self /\ e <> l)
    /\ Inp.index self' (ByCommand l) h = Raises ValueError
    /\ Inp.__isub__ self' (ByCommand l) h = Returns self'
    /\ _name self' = _name self
    /\ _paths self' = _paths self.
Proof.
  eexists. split; [reflexivity|]. unfold Inp.set_line, Inp.index, Inp.line.
  cbn [Inp.__isub__ _line _name _paths].
  assert (l ∉ filter (fun c => c <> l) (_line self)) as Hgone.
  { intros Hin. by apply list_elem_of_filter in Hin as [Hne _]. }
  split; [apply sublist_filter|]. split; [|split; [|split; [|done]]].
  - intros e. rewrite list_elem_of_filter. tauto.
  - by apply index_of_loc_raises.
  - unfold Inp.set_line. cbn [_line _name _paths _optical_length _reference_frame _private].
    by rewrite filter_other.
Qed.

Lemma isub_label_tag h (s : string) (c : loc) :
  (let? label := Cmd.getattr (h !!! c) "LABEL1" in
   Returns (c, negb (py_eq label (VStr s))))
  = (let? b := (let? label := Cmd.getattr (h !!! c) "LABEL1" in
                Returns (negb (py_eq label (VStr s)))) in
     Returns (c, b)).
Proof. by destruct (Cmd.getattr _ _). Qed.

(** X16: when [-=] with a label returns, the sequence keeps, in order, the
    commands whose [LABEL1] reads different from the label; afterwards
    attribute access with that label raises [AttributeError], [index] of it
    raises [ValueError], and doing it again changes nothing. *)
Theorem isub_by_label self (s : string) h self' :
  Inp.__isub__ self (ByLabel s) h = Returns self' ->
  _line self' `sublist_of` _line self
  /\ (forall e, e ∈ _line self'
        <-> e ∈ _line self
            /\ exists label, Cmd.getattr (h !!! e) "LABEL1" = Returns label
                             /\ py_eq label (VStr s) = false)
  /\ Inp.__getattr__ self' s h = Raises AttributeError
  /\ Inp.index self' (ByLabel s) h = Raises ValueError
  /\ Inp.__isub__ self' (ByLabel s) h = Returns self'.
Proof.
  cbn [Inp.__isub__].
  rewrite (mapM_ext _ _ _ (isub_label_tag h s)).
  set (tag := fun c : loc =>
                let? label := Cmd.getattr (h !!! c) "LABEL1" in
                Returns (negb (py_eq label (VStr s)))).
  destruct (mapM _ (_line self)) as [kept|x] eqn:Hm; cbn [obind]; [|done].
  intros [= <-]. apply mapM_tagged in Hm as [Hall Hkept]. rewrite Hkept.
  cbn [Inp.set_line _line].
  set (line' := filter _ (_line self)).
  assert (Forall (fun c => tag c = Returns true) line') as Htrue by apply filter_tag_kept.
  assert (Forall (fun c => exists label, Cmd.getattr (h !!! c) "LABEL1" = Returns label
                                         /\ py_eq label (VStr s) = false) line') as Hdiff.
  { eapply Forall_impl; [exact Htrue|]. intros c. unfold tag.
    destruct (Cmd.getattr (h !!! c) "LABEL1") as [label|x]; cbn [obind]; [|done].
    intros [= Hneg]. exists label. split; [done|]. by apply negb_true_iff. }
  split; [apply sublist_filter|]. split; [|split; [|split]].
  - intros e. unfold line'. rewrite list_elem_of_filter. unfold tag. split.
    + intros [Hk Hin]. split; [done|].
      destruct (Cmd.getattr (h !!! e) "LABEL1") as [label|x]; cbn [obind] in Hk; [|done].
      exists label. split; [done|]. by apply negb_true_iff.
    + intros [Hin (label & Hg & Hp)]. split; [|done]. by rewrite Hg; cbn [obind]; rewrite Hp.
  - unfold Inp.__getattr__. cbn [_line]. by apply scan_without_match.
  - unfold Inp.index, Inp.line. cbn [_line]. by apply scan_without_match.
  - cbn [Inp.__isub__ _line]. rewrite (mapM_ext _ _ _ (isub_label_tag h s)).
    destruct (mapM_tagged_all tag line' Htrue) as (kept' & Hm' & Hk').
    change ((let? kept := mapM (fun c => let? b := tag c in Returns (c, b)) line' in
             Returns (Inp.set_line (Inp.set_line self line')
                        (map fst (filter (fun p => p.2 = true) kept))))
            = Returns (Inp.set_line self line')).
    rewrite Hm'. cbn [obind]. by rewrite Hk'.
Qed.
Lemma remove_tag h (prefix : string) (e : loc) :
  (let? label := Cmd.getattr (h !!! e) "LABEL1" in
   match label with
   | VStr s =>
       Returns (e, negb (String.eqb s prefix || PyStr.startswith s (prefix ++ "_")))
   | other =>
       if py_eq other (VStr prefix) then Returns (e, false) else Raises AttributeError
   end)
  = (let? b := (let? label := Cmd.getattr (h !!! e) "LABEL1" in
                match label with
                | VStr s =>
                    Returns (negb (String.eqb s prefix
                                   || PyStr.startswith s (prefix ++ "_")))
                | other =>
                    if py_eq other (VStr prefix) then Returns false
                    else Raises AttributeError
                end) in
     Returns (e, b)).
Proof.
  destruct (Cmd.getattr _ _) as [label|x]; cbn [obind]; [|done].
  destruct label; try done; by destruct (py_eq _ _).
Qed.

(** X17: when [remove(prefix)] returns, the sequence keeps, in order, the
    commands whose [LABEL1] is a text other than the prefix that does not
    start with the prefix followed by an underscore; afterwards attribute
    access with the prefix raises [AttributeError], and removing again
    changes nothing. *)
Theorem remove_prefix self (prefix : string) h self' :
  Inp.remove self prefix h = Returns self' ->
  _line self' `sublist_of` _line self
  /\ (forall e, e ∈ _line self'
        <-> e ∈ _line self
            /\ exists s, Cmd.getattr (h !!! e) "LABEL1" = Returns (VStr s)
                         /\ s <> prefix
                         /\ PyStr.startswith s (prefix ++ "_") = false)
  /\ Inp.__getattr__ self' prefix h = Raises AttributeError
  /\ Inp.remove self' prefix h = Returns self'.
Proof.
  unfold Inp.remove.
  rewrite (mapM_ext _ _ _ (remove_tag h prefix)).
  set (tag := fun e : loc =>
                let? label := Cmd.getattr (h !!! e) "LABEL1" in
                match label with
                | VStr s =>
                    Returns (negb (String.eqb s prefix
                                   || PyStr.startswith s (prefix ++ "_")))
                | other =>
                    if py_eq other (VStr prefix) then Returns false
                    else Raises AttributeError
                end).
  destruct (mapM _ (_line self)) as [kept|x] eqn:Hm; cbn [obind]; [|done].
  intros [= <-]. apply mapM_tagged in Hm as [Hall Hkept]. rewrite Hkept.
  cbn [Inp.set_line _line].
  set (line' := filter _ (_line self)).
  assert (Forall (fun c => tag c = Returns true) line') as Htrue by apply filter_tag_kept.
  assert (forall c, tag c = Returns true
            <-> exists s, Cmd.getattr (h !!! c) "LABEL1" = Returns (VStr s)
                          /\ s <> prefix
                          /\ PyStr.startswith s (prefix ++ "_") = false) as Htag.
  { intros c. unfold tag.
    destruct (Cmd.getattr (h !!! c) "LABEL1") as [label|x]; cbn [obind].
    - destruct label as [| | | |s| | |];
        try (split; [by destruct (py_eq _ _)|by intros (s0 & [= ] & _)]).
      split.
      + intros [= Hneg]. apply negb_true_iff, orb_false_iff in Hneg as [Hne Hst].
        exists s. split; [done|]. split; [by apply String.eqb_neq|done].
      + intros (s0 & [= <-] & Hne & Hst). apply String.eqb_neq in Hne.
        by rewrite Hne, Hst.
    - split; [done|]. by intros (s0 & [= ] & _). }
  split; [apply sublist_filter|]. split; [|split].
  - intros e. unfold line'. rewrite list_elem_of_filter, <- Htag. fold (tag e).
    destruct (tag e) as [[|]|x]; intuition congruence.
  - unfold Inp.__getattr__. cbn [_line]. apply scan_without_match.
    eapply Forall_impl; [exact Htrue|]. intros c Hc.
    apply Htag in Hc as (s & Hg & Hne & _). exists (VStr s). split; [done|].
    cbn. by apply String.eqb_neq.
  - destruct (mapM_tagged_all tag line' Htrue) as (kept' & Hm' & Hk').
    rewrite (mapM_ext _ _ _ (remove_tag h prefix)).
    change ((let? kept := mapM (fun c => let? b := tag c in Returns (c, b)) line' in
             Returns (Inp.set_line (Inp.set_line self line')
                        (map fst (filter (fun p => p.2 = true) kept))))
            = Returns (Inp.set_line self line')).
    rewrite Hm'. cbn [obind]. by rewrite Hk'.
Qed.
End removal.

(** X17, witness: [MARK1] is removed, [MARK2] stays. *)
Lemma remove_prefix_witness :
  exists self',
    @Inp.remove Reference.units Examples.beamline "MARK1" Examples.two_commands
    = Returns self'
    /\ _line self' = [1%nat]
    /\ @Inp.remove Reference.units self' "MARK1" Examples.two_commands = Returns self'.
Proof.
  assert (Hrun : @Inp.remove Reference.units Examples.beamline "MARK1"
                   Examples.two_commands
                 = Returns (Inp.set_line Examples.beamline [1%nat]))
    by (vm_compute; reflexivity).
  destruct (@remove_prefix Reference.units _ _ _ _ Hrun) as (_ & _ & _ & Hagain).
  eexists. split; [exact Hrun|]. split; [reflexivity|exact Hagain].
Defined.

(** X16, witness: the first of the two commands is removed by its label. *)
Lemma isub_by_label_witness :
  exists self',
    @Inp.__isub__ Reference.units Examples.beamline (ByLabel "MARK1") Examples.two_commands
    = Returns self'
    /\ _line self' = [1%nat]
    /\ @Inp.__getattr__ Reference.units self' "MARK1" Examples.two_commands
       = Raises AttributeError.
Proof.
  assert (Hrun : @Inp.__isub__ Reference.units Examples.beamline (ByLabel "MARK1")
                   Examples.two_commands
                 = Returns (Inp.set_line Examples.beamline [1%nat]))
    by (vm_compute; reflexivity).
  destruct (@isub_by_label Reference.units _ _ _ _ Hrun) as (_ & _ & Hgone & _).
  eexists. split; [exact Hrun|]. split; [reflexivity|exact Hgone].
Defined.

(** ** Filters, membership and slices *)

Section filtering.
Context `{Units} `{Package}.
Implicit Types (h : gmap loc Command) (self : Input) (line : list loc).
Local Open Scope string_scope.

Lemma filter_again {A} (P : A -> Prop) `{forall x, Decision (P x)} (l : list A) :
  filter P (filter P l) = filter P l.
Proof.
  induction l as [|x l IH]; [done|].
  destruct (decide (P x)) as [Hx|Hx].
  - rewrite !filter_cons_True by done. by rewrite IH.
  - by rewrite !filter_cons_False by done.
Qed.

Lemma filter_of_kept self (items : list item) h kept classes (name : string) :
  Inp._filter self items h = Returns (kept, classes) ->
  Inp._filter (Inp.__init__ name kept) items h = Returns (kept, classes).
Proof.
  unfold Inp._filter. cbn [Inp.__init__ _line].
  destruct (mapM _ items) as [cs|x].
  - destruct cs as [|c cs].
    + destruct (_line self) as [|e line]; [|done]. by intros [= <- <-].
    + intros [= <- <-]. rewrite filter_again.
      by destruct (filter _ (_line self)).
  - by intros [= <- <-].
Qed.

(** X18: filtering what a filter returned, with the same kinds, returns
    the same commands again. *)
Theorem filter_twice self h :
  (forall (i : item) a,
     Inp.__getitem__ self (SelOne i) h = Returns (NewInput a) ->
     exists b, Inp.__getitem__ a (SelOne i) h = Returns (NewInput b)
               /\ _line b = _line a)
  /\ (forall (l : list item) a,
        Inp.__getitem__ self (SelMany l) h = Returns (NewInput a) ->
        exists b, Inp.__getitem__ a (SelMany l) h = Returns (NewInput b)
                  /\ _line b = _line a).
Proof.
  split.
  - intros i a. cbn [Inp.__getitem__].
    destruct (Inp._filter self [i] h) as [[kept classes]|x] eqn:Hf; cbn [obind]; [|done].
    intros [= <-].
    rewrite (filter_of_kept self [i] h kept classes _ Hf). cbn [obind fst].
    by eexists.
  - intros l a. cbn [Inp.__getitem__].
    destruct (Inp._filter self l h) as [[kept classes]|x] eqn:Hf; cbn [obind]; [|done].
    intros [= <-].
    rewrite (filter_of_kept self l h kept classes _ Hf). cbn [obind fst].
    by eexists.
Qed.

Lemma filter_one self (i : item) h :
  Inp._filter self [i] h
  = Returns
      match match i with
            | ItemStr s => commands_namespace (PyStr.capitalize s)
            | ItemClass cls => Some cls
            end with
      | Some cls =>
          (filter (fun e => isinstance (h !!! e) [cls_name cls] = true) (_line self),
           [cls])
      | None => ([], [])
      end.
Proof.
  unfold Inp._filter. cbn [mapM].
  destruct i as [s|cls].
  - destruct (commands_namespace (PyStr.capitalize s)) as [cls|]; cbn [obind map]; [|done].
    by destruct (_line self).
  - cbn [obind map]. by destruct (_line self).
Qed.

(** X19: membership of one kind never raises: it counts the commands that
    filtering by that kind selects, namely the commands of the sequence
    that are instances of the kind; a name that the package does not bind
    counts zero. *)
Theorem contains_counts_instances self (i : item) h :
  exists a,
    Inp.__getitem__ self (SelOne i) h = Returns (NewInput a)
    /\ Inp.__contains__ self (inl i) h = Returns (length (_line a))
    /\ Inp.__contains__ self (inr [i]) h = Returns (length (_line a))
    /\ (forall s, i = ItemStr s -> commands_namespace (PyStr.capitalize s) = None ->
          _line a = [])
    /\ (forall cls,
          i = ItemClass cls
          \/ (exists s, i = ItemStr s
                        /\ commands_namespace (PyStr.capitalize s) = Some cls) ->
          _line a `sublist_of` _line self
          /\ forall e, e ∈ _line a
                <-> e ∈ _line self /\ cls_name cls ∈ cls_mro (cmd_class (h !!! e))).
Proof.
  unfold Inp.__contains__. cbn [Inp.__getitem__]. rewrite (filter_one self i h).
  cbn [obind]. eexists. split; [reflexivity|]. cbn [Inp.__init__ _line].
  split; [done|]. split; [done|]. split.
  - intros s -> Hnone. by rewrite Hnone.
  - intros cls Hcls.
    assert (match i with
            | ItemStr s => commands_namespace (PyStr.capitalize s)
            | ItemClass cls => Some cls
            end = Some cls) as ->.
    { destruct Hcls as [->|(s & -> & Hs)]; done. }
    cbn [fst]. split; [apply sublist_filter|].
    intros e. rewrite list_elem_of_filter. unfold isinstance. cbn [existsb].
    rewrite orb_false_r, bool_decide_eq_true. tauto.
Qed.

(** X20: without a beam in the sequence [zgoubi_index] is [1] for every
    object, found or not: the package binds no [Beam], or no command is an
    instance of it.  With a beam it is three more than [index]. *)
Theorem zgoubi_index_without_beam self (obj : operand) h :
  (commands_namespace "Beam" = None
   \/ exists cls, commands_namespace "Beam" = Some cls
        /\ Forall (fun e => cls_name cls ∉ cls_mro (cmd_class (h !!! e))) (_line self)) ->
  Inp.beam self h = Returns None
  /\ Inp.zgoubi_index self obj h = Returns 1%nat.
Proof.
  intros Hbeam.
  assert (Inp.beam self h = Returns None) as Hnone.
  { unfold Inp.beam. cbn [Inp.__getitem__]. rewrite filter_one.
    change (PyStr.capitalize "BEAM") with "Beam".
    destruct Hbeam as [->|(cls & -> & Hall)]; cbn [obind Inp.__init__ _line fst]; [done|].
    assert (filter (fun e => isinstance (h !!! e) [cls_name cls] = true) (_line self) = [])
      as ->; [|done].
    induction Hall as [|e line He _ IH]; [done|].
    rewrite filter_cons_False; [done|].
    unfold isinstance. cbn [existsb]. rewrite orb_false_r, bool_decide_eq_true. done. }
  split; [done|]. unfold Inp.zgoubi_index. by rewrite Hnone.
Qed.
End filtering.

(** X20, witness: the package of these sources binds no [Beam], and a label
    that no command carries gets the index [1]. *)
Lemma zgoubi_index_without_beam_witness :
  @Inp.index Reference.units Examples.beamline (ByLabel "NOWHERE") Examples.two_commands
  = Raises ValueError
  /\ @Inp.zgoubi_index Reference.units Reference.package Examples.beamline
       (ByLabel "NOWHERE") Examples.two_commands
     = Returns 1%nat.
Proof.
  split; [vm_compute; reflexivity|].
  apply (@zgoubi_index_without_beam Reference.units Reference.package).
  left. vm_compute. reflexivity.
Defined.

Section slicing.
Context `{Units} `{Package}.
Implicit Types (h : gmap loc Command) (self : Input).
Local Open Scope string_scope.

Lemma stride_one {A} (xs : list A) : Inp.stride 1 0 xs = xs.
Proof. induction xs as [|x xs IH]; [done|]. cbn. by rewrite IH. Qed.

Lemma islice_window {A} (xs : list A) (a b : nat) :
  Inp.islice xs (Some (Z.of_nat a)) (Some (Z.of_nat b)) None
  = Returns (take (b - a) (drop a xs)).
Proof.
  unfold Inp.islice.
  assert ((Z.of_nat a <? 0)%Z = false) as -> by (apply Z.ltb_ge; lia).
  assert ((Z.of_nat b <? 0)%Z = false) as -> by (apply Z.ltb_ge; lia).
  cbn [orb default from_option]. unfold id. rewrite !Nat2Z.id.
  change (Z.to_nat 1) with 1%nat. by rewrite stride_one.
Qed.

(** X21: a slice between two labels runs from the position of the first
    to the position of the second, the second included, whereas a slice
    between two integers stops before the second; the slice without bounds
    holds the whole sequence; a negative integer bound raises
    [ValueError]. *)
Theorem slice_bounds self h :
  (forall s t i j,
     Inp.index self (ByLabel s) h = Returns i ->
     Inp.index self (ByLabel t) h = Returns j ->
     Inp.__getitem__ self (SelSlice (BStr s) (BStr t) None) h
     = Returns (NewInput (Inp.__init__
                            (_name self ++ "_sliced_from_" ++ s ++ "_to_" ++ t)
                            (take (S j - i) (drop i (_line self))))))
  /\ (forall a b : nat,
        Inp.__getitem__ self (SelSlice (BInt (Z.of_nat a)) (BInt (Z.of_nat b)) None) h
        = Returns (NewInput (Inp.__init__
                               (_name self ++ "_sliced_from_"
                                ++ py_format (VInt (Z.of_nat a)) ++ "_to_"
                                ++ py_format (VInt (Z.of_nat b)))
                               (take (b - a) (drop a (_line self))))))
  /\ Inp.__getitem__ self (SelSlice BNone BNone None) h
     = Returns (NewInput (Inp.__init__ (_name self ++ "_sliced_from_None_to_None")
                            (_line self)))
  /\ (forall z, (z < 0)%Z ->
        Inp.__getitem__ self (SelSlice (BInt z) BNone None) h = Raises ValueError
        /\ Inp.__getitem__ self (SelSlice BNone (BInt z) None) h = Raises ValueError).
Proof.
  split; [|split; [|split]].
  - intros s t i j Hi Hj. unfold Inp.index, Inp.line in Hi, Hj.
    cbn [Inp.__getitem__ Inp.resolve_bound Inp.bound_text]. rewrite Hi, Hj.
    cbn [obind fmap option_fmap option_map].
    replace (Z.of_nat j + 1)%Z with (Z.of_nat (S j)) by lia.
    by rewrite islice_window.
  - intros a b. cbn [Inp.__getitem__ Inp.resolve_bound Inp.bound_text obind].
    by rewrite islice_window.
  - cbn [Inp.__getitem__ Inp.resolve_bound Inp.bound_text obind].
    unfold Inp.islice. cbn [orb default from_option]. unfold id.
    change (Z.to_nat 0) with 0%nat.
    change (Z.to_nat 1) with 1%nat. cbn [drop]. by rewrite stride_one.
  - intros z Hz. apply Z.ltb_lt in Hz.
    cbn [Inp.__getitem__ Inp.resolve_bound Inp.bound_text obind].
    unfold Inp.islice. rewrite Hz. cbn [orb obind]. done.
Qed.
End slicing.

(** ** Validation and writing *)

Section writing.
Context `{Units} `{Package}.
Implicit Types (h : gmap loc Command) (self : Input) (w : world).

Lemma run_validators_returns (vs : list validator) self h (b : bool) :
  Inp.run_validators vs self h = Returns b ->
  b = true /\ Forall (fun v => exists b', v self h = Returns b') vs.
Proof.
  induction vs as [|v vs IH]; cbn [Inp.run_validators].
  - intros [= <-]. by split.
  - destruct (v self h) as [b'|x] eqn:Hv; cbn [obind]; [|done].
    intros Hr. destruct (IH Hr) as [-> Hall]. split; [done|].
    constructor; [by exists b'|done].
Qed.

Lemma run_validators_all (vs : list validator) self h :
  Forall (fun v => exists b, v self h = Returns b) vs ->
  Inp.run_validators vs self h = Returns true.
Proof.
  induction 1 as [|v vs [b Hv] _ IH]; [done|].
  cbn [Inp.run_validators]. by rewrite Hv.
Qed.

Lemma run_validators_raises (vs : list validator) self h (x : exn) :
  Inp.run_validators vs self h = Raises x
  <-> exists before v after,
        vs = before ++ v :: after
        /\ Forall (fun v => exists b, v self h = Returns b) before
        /\ v self h = Raises x.
Proof.
  induction vs as [|v vs IH]; cbn [Inp.run_validators].
  - split; [done|]. intros (before & v & after & Hvs & _). by destruct before.
  - destruct (v self h) as [b|y] eqn:Hv; cbn [obind].
    + rewrite IH. split.
      * intros (before & v' & after & -> & Hall & Hx).
        exists (v :: before), v', after. split; [done|]. split; [|done].
        constructor; [by exists b|done].
      * intros (before & v' & after & Hvs & Hall & Hx).
        destruct before as [|v0 before]; cbn in Hvs; injection Hvs as <- ->.
        -- congruence.
        -- apply Forall_cons in Hall as [_ Hall]. by exists before, v', after.
    + split.
      * intros [= <-]. exists [], v, vs. by repeat split.
      * intros (before & v' & after & Hvs & Hall & Hx).
        destruct before as [|v0 before]; cbn in Hvs; injection Hvs as <- ->.
        -- congruence.
        -- apply Forall_cons in Hall as [[b Hb] _]. congruence.
Qed.

(** X22: [validate] returns [True] exactly when no validator raises,
    whatever the validators return, and never returns [False]; it raises
    what the first raising validator raises, the later ones not being run;
    without validators it returns [True]. *)
Theorem validate_ignores_results self (vs : list validator) h :
  Inp.validate self None h = Returns true
  /\ (Inp.validate self (Some vs) h = Returns true
      <-> Forall (fun v => exists b, v self h = Returns b) vs)
  /\ Inp.validate self (Some vs) h <> Returns false
  /\ (forall x, Inp.validate self (Some vs) h = Raises x
        <-> exists before v after,
              vs = before ++ v :: after
              /\ Forall (fun v => exists b, v self h = Returns b) before
              /\ v self h = Raises x).
Proof.
  cbn [Inp.validate]. split; [done|]. split; [|split].
  - split; [by intros [_ Hall]%run_validators_returns|apply run_validators_all].
  - by intros [Hb _]%run_validators_returns.
  - intros x. apply run_validators_raises.
Qed.

Lemma dict_get_set_eq {K V} `{EqDecision K} (k : K) (v : V) (d : list (K * V)) :
  dict_get k (dict_set k v d) = Some v.
Proof.
  induction d as [|[k' v'] d IH]; cbn [dict_set dict_get].
  - by rewrite decide_True.
  - destruct (decide (k = k')) as [->|Hne]; cbn [dict_get].
    + by rewrite decide_True.
    + by rewrite decide_False.
Qed.

Lemma dict_get_set_ne {K V} `{EqDecision K} (k k' : K) (v : V) (d : list (K * V)) :
  k' <> k -> dict_get k' (dict_set k v d) = dict_get k' d.
Proof.
  intros Hne. induction d as [|[k0 v0] d IH]; cbn [dict_set dict_get].
  - by rewrite decide_False.
  - destruct (decide (k = k0)) as [->|Hk]; cbn [dict_get].
    + by rewrite !decide_False.
    + destruct (decide (k' = k0)); [done|exact IH].
Qed.

Lemma str_keeps_files self w :
  files (Inp.__str__ self w).2 = files w
  /\ objects (Inp.__str__ self w).2 = objects w
  /\ tmp_count (Inp.__str__ self w).2 = tmp_count w.
Proof. unfold Inp.__str__. cbn [snd]. by destruct (Inp.ends_with_End _ _). Qed.

Lemma str_of_opened self (target : string) w :
  (Inp.__str__ self (Inp.write_file target "" w)).1 = (Inp.__str__ self w).1.
Proof. done. Qed.

Lemma write_returns self (filename path : string) validators w (n : nat) w' :
  Inp.write self filename path validators w = (Returns n, w') ->
  exists text,
    (Inp.__str__ self w).1 = Returns text
    /\ n = PyStr.len text
    /\ files w'
       = dict_set (PyStr.path_join path filename) text
           (dict_set (PyStr.path_join path filename) "" (files w))
    /\ objects w' = objects w
    /\ tmp_count w' = tmp_count w.
Proof.
  unfold Inp.write.
  destruct (Inp.validate self validators (objects w)) as [b|x]; [|done].
  set (target := PyStr.path_join path filename).
  destruct (str_keeps_files self (Inp.write_file target "" w)) as (Hf & Ho & Ht).
  pose proof (str_of_opened self target w) as Hs.
  destruct (Inp.__str__ self (Inp.write_file target "" w)) as [[text|x] w1]; [|done].
  intros [= <- <-]. exists text. cbn [fst snd Inp.write_file files objects tmp_count] in *.
  by rewrite Hf, Ho, Ht.
Qed.

(** X23: [write] validates first: when a validator raises, that exception
    is raised and the world is left as it was, no label being drawn and no
    file opened.  When [write] returns, validation returned [True], the file
    of that name in that directory holds the text of the sequence, the
    number returned is the number of characters of that text, every other
    file is as before and no command has changed.  When the validation
    passes and the text cannot be made, [write] raises what making the text
    raises, and the file, which is opened before, is left empty; every other
    file and every command is as before.  (Opening the file is taken to
    succeed.) *)
Theorem write_validates_then_writes self (filename path : string) validators w :
  (forall x, Inp.validate self validators (objects w) = Raises x ->
     Inp.write self filename path validators w = (Raises x, w))
  /\ (forall n w', Inp.write self filename path validators w = (Returns n, w') ->
        Inp.validate self validators (objects w) = Returns true
        /\ exists text,
             (Inp.__str__ self w).1 = Returns text
             /\ n = PyStr.len text
             /\ dict_get (PyStr.path_join path filename) (files w') = Some text
             /\ (forall p, p <> PyStr.path_join path filename ->
                   dict_get p (files w') = dict_get p (files w))
             /\ objects w' = objects w)
  /\ (forall x w', Inp.write self filename path validators w = (Raises x, w') ->
        (Inp.validate self validators (objects w) = Raises x /\ w' = w)
        \/ (Inp.validate self validators (objects w) = Returns true
            /\ (Inp.__str__ self w).1 = Raises x
            /\ dict_get (PyStr.path_join path filename) (files w') = Some ""%string
            /\ (forall p, p <> PyStr.path_join path filename ->
                  dict_get p (files w') = dict_get p (files w))
            /\ objects w' = objects w)).
Proof.
  assert (forall b, Inp.validate self validators (objects w) = Returns b -> b = true)
    as Htrue.
  { intros b Hv. destruct validators as [vs|]; [|by injection Hv].
    by apply run_validators_returns in Hv as [-> _]. }
  split; [|split].
  - intros x Hx. unfold Inp.write. by rewrite Hx.
  - intros n w' Hw. split.
    + unfold Inp.write in Hw.
      destruct (Inp.validate self validators (objects w)) as [b|x] eqn:Hv; [|done].
      by rewrite (Htrue b eq_refl).
    + destruct (write_returns _ _ _ _ _ _ _ Hw) as (text & Hs & Hn & Hf & Ho & _).
      exists text. rewrite Hf. split; [done|]. split; [done|].
      split; [apply dict_get_set_eq|]. split; [|done].
      intros p Hp. by rewrite !dict_get_set_ne.
  - intros x w'. unfold Inp.write.
    destruct (Inp.validate self validators (objects w)) as [b|y] eqn:Hv.
    + rewrite (Htrue b eq_refl). set (target := PyStr.path_join path filename).
      destruct (str_keeps_files self (Inp.write_file target "" w)) as (Hf & Ho & _).
      pose proof (str_of_opened self target w) as Hs.
      destruct (Inp.__str__ self (Inp.write_file target "" w)) as [[text|y] w1]; [done|].
      intros [= -> <-]. right. cbn [fst snd Inp.write_file files objects] in *.
      rewrite Hf. split; [done|]. split; [done|].
      split; [apply dict_get_set_eq|]. split; [|done].
      intros p Hp. by apply dict_get_set_ne.
    + intros [= -> <-]. by left.
Qed.
End writing.

(** ** The entries and files of a materialization *)

Section materialization.
Context `{Units} `{Package}.
Implicit Types (h : gmap loc Command) (self : Input) (w : world).

Lemma dict_get_set_is_Some (p q text : string) (d : list (string * string)) :
  is_Some (dict_get p d) -> is_Some (dict_get p (dict_set q text d)).
Proof.
  intros Hp. destruct (decide (p = q)) as [->|Hne].
  - rewrite dict_get_set_eq. by eexists.
  - by rewrite dict_get_set_ne.
Qed.

Lemma set_private_keeps_paths self (key : string) (v : value) self' :
  Inp.set_private self key v = Returns self' -> _paths self' = _paths self.
Proof.
  unfold Inp.set_private.
  repeat (destruct (String.eqb _ _)); cbn [orb];
    try (destruct v); try done; by intros [= <-].
Qed.

Lemma adjust_loop_keeps_paths (items : mapping) (iv : mapping) self h r self' h' :
  Inp.adjust_loop items iv self h = (r, self', h') -> _paths self' = _paths self.
Proof.
  revert iv self h. induction items as [|[k v] items IH]; intros iv self h.
  - cbn [Inp.adjust_loop]. by intros [= _ <- _].
  - cbn [Inp.adjust_loop].
    destruct (Inp.key_parts k) as [|a [|p [|q parts]]]; try apply IH.
    + destruct (String.eqb a "ALL_LINE").
      * unfold Inp.__setattr__. destruct (PyStr.startswith p "_").
        -- destruct (Inp.set_private self p v) as [self1|x] eqn:Hs.
           ++ intros Hrun. rewrite (IH _ _ _ Hrun). by eapply set_private_keeps_paths.
           ++ by intros [= _ <- _].
        -- destruct (Inp.broadcast _ _ _ _) as [[[]|x] h1]; [apply IH|].
           by intros [= _ <- _].
      * destruct (Inp.getattr self a h) as [e|x]; [|by intros [= _ <- _]].
        destruct (Cmd.getattr _ _) as [previous|x]; [|by intros [= _ <- _]].
        destruct (Cmd.__setattr__ _ _ _) as [c|x]; [apply IH|by intros [= _ <- _]].
    + by intros [= _ <- _].
Qed.

Lemma drop_paths_tmp_count (fuel i : nat) (m : mapping) (ps : list path_entry) held w :
  tmp_count (Inp.drop_paths fuel i m ps held w).2 = tmp_count w.
Proof.
  revert i ps held w. induction fuel as [|fuel IH]; intros i ps held w; [done|].
  cbn [Inp.drop_paths]. destruct (ps !! i) as [p|]; [|done].
  destruct (Inp.mapping_eq _ _); rewrite IH; by destruct held.
Qed.

Lemma generate_loop_entries (ms : list mapping) state path (filename : string) acc
    held self w generated state' held' self' w' :
  Inp.generate_loop ms state path filename acc held self w
  = (Returns (generated, state', held'), self', w') ->
  exists new,
    generated = acc ++ new
    /\ map pe_mapping new = ms
    /\ Forall (fun p => pe_executed p = false) new
    /\ tmp_count w' = (tmp_count w + length ms)%nat
    /\ (_paths self = [] -> held = None ->
        held' = None
        /\ (forall p, is_Some (dict_get p (files w)) -> is_Some (dict_get p (files w')))
        /\ Forall (fun p => is_Some (dict_get (PyStr.path_join (pe_dir p) filename)
                                       (files w'))) new).
Proof.
  revert state path acc held self w.
  induction ms as [|m ms IH]; intros state path acc held self w; cbn [Inp.generate_loop].
  - intros [= <- _ <- _ <-]. exists []. rewrite app_nil_r.
    repeat split; try done; try constructor. all: cbn [length]; lia.
  - destruct (if existsb _ _ then _ else _) as [[self0 held0] w0] eqn:Hdrop.
    assert (tmp_count w0 = tmp_count w
            /\ (_paths self = [] -> self0 = self /\ held0 = held /\ w0 = w))
      as [Htmp0 Hfirst].
    { destruct (existsb _ _) eqn:Hknown.
      - pose proof (drop_paths_tmp_count (length (_paths self)) 0 m (_paths self) held w)
          as Ht.
        destruct (Inp.drop_paths _ _ _ _ _ _) as [[kept held1] w1].
        injection Hdrop as <- <- <-. split; [exact Ht|].
        intros Hnil. unfold Inp.mappings, Inp.paths in Hknown. by rewrite Hnil in Hknown.
      - injection Hdrop as <- <- <-. by split. }
    destruct (Inp.adjust self0 m (objects w0)) as [[[previous|x] self1] h1] eqn:Hadj;
      [|done].
    destruct (Inp.TemporaryDirectory _ (Inp.with_objects w0 h1)) as [dir w1] eqn:Hdir.
    destruct (Inp.write self1 filename dir None w1) as [[n|x] w2] eqn:Hw; [|done].
    intros Hloop.
    destruct (IH _ _ _ _ _ _ Hloop) as (new & -> & Hmap & Hexec & Htmp & Hrest).
    destruct (write_returns _ _ _ _ _ _ _ Hw) as (text & _ & _ & Hf2 & _ & Ht2).
    unfold Inp.TemporaryDirectory in Hdir. injection Hdir as <- <-.
    cbn [files tmp_count Inp.with_objects] in Hf2, Ht2.
    exists (MkPath m (mkdtemp ((fun p => (PyStr.rstrip ["/"%char] p ++ "/")%string) <$> path)
                        (tmp_count w0)) false :: new).
    split; [by rewrite <- app_assoc|]. split; [cbn [map pe_mapping]; by rewrite Hmap|].
    split; [by constructor|]. split; [rewrite Htmp, Ht2; cbn [length]; lia|].
    intros Hnil Hheld. destruct (Hfirst Hnil) as (-> & -> & ->).
    unfold Inp.adjust in Hadj. apply adjust_loop_keeps_paths in Hadj.
    destruct Hrest as (Hheld' & Hmono & Hfiles); [congruence|done|].
    split; [done|]. split.
    + intros p Hp. apply Hmono. rewrite Hf2. by do 2 apply dict_get_set_is_Some.
    + constructor; [|done]. cbn [pe_dir]. apply Hmono. rewrite Hf2.
      rewrite dict_get_set_eq. by eexists.
Qed.

(** X24: when [_generate] returns, it returns one entry for each mapping
    it was given, in order (the single empty mapping when none is given,
    each mapping merged with each mapping of the beam when there is one);
    no entry is marked as executed, and as many directories were drawn as
    entries returned.  When the sequence had no entry of an earlier
    materialization, each new directory holds a file of the given name and
    no earlier file is lost.  (Creating the directories and opening the
    files is taken to succeed.) *)
Theorem generate_one_entry_per_mapping self (ms : option (list mapping))
    (filename : string) (path : option string) w generated self' w' :
  Inp._generate self ms filename path w = (Returns generated, self', w') ->
  exists bms,
    Inp.beam_mappings self (objects w) = Returns bms
    /\ map pe_mapping generated
       = (let ms := match ms with None | Some [] => [[]] | Some l => l end in
          if (0 <? length bms)%nat
          then flat_map (fun a => map (fun b => Inp.merge a b) bms) ms
          else ms)
    /\ Forall (fun p => pe_executed p = false) generated
    /\ tmp_count w' = (tmp_count w + length generated)%nat
    /\ (_paths self = [] ->
        Forall (fun p => is_Some (dict_get (PyStr.path_join (pe_dir p) filename)
                                    (files w'))) generated
        /\ (forall p, is_Some (dict_get p (files w)) -> is_Some (dict_get p (files w')))).
Proof.
  intros Hgen.
  destruct (generate_does_not_restore _ _ _ _ _ _ _ _ Hgen)
    as (bms & state & held & w1 & Hb & Hloop & ->).
  apply generate_loop_entries in Hloop as (new & Hnew & Hmap & Hexec & Htmp & Hfirst).
  cbn [app] in Hnew. subst new. exists bms.
  split; [done|]. split; [done|]. split; [done|]. split.
  - assert (tmp_count (Inp.release held w1) = tmp_count w1) as -> by by destruct held.
    rewrite Htmp. f_equal. by rewrite <- Hmap, length_map.
  - intros Hnil. destruct (Hfirst Hnil eq_refl) as (-> & Hmono & Hfiles).
    cbn [Inp.release]. by split.
Qed.

Lemma adjust_loop_skips (items : list (key * value)) (iv : mapping) self h :
  Inp.adjust_loop items iv self h
  = Inp.adjust_loop
      (filter (fun kv => (2 <= length (Inp.key_parts kv.1))%nat) items) iv self h.
Proof.
  revert iv self h. induction items as [|[k v] items IH]; intros iv self h; [done|].
  destruct (decide (2 <= length (Inp.key_parts k))%nat) as [Hlong|Hshort].
  - rewrite filter_cons_True by done.
    cbn [Inp.adjust_loop].
    destruct (Inp.key_parts k) as [|a [|p [|q parts]]]; cbn in Hlong; try lia.
    + destruct (String.eqb a "ALL_LINE").
      * destruct (Inp.__setattr__ self p v h) as [[self1|x] h1]; [apply IH|done].
      * destruct (Inp.getattr self a h) as [e|x]; [|done].
        destruct (Cmd.getattr _ _) as [previous|x]; [|done].
        destruct (Cmd.__setattr__ _ _ _) as [c|x]; [apply IH|done].
    + done.
  - rewrite filter_cons_False by done.
    cbn [Inp.adjust_loop].
    destruct (Inp.key_parts k) as [|a [|p parts]]; cbn in Hshort; try lia; apply IH.
Qed.

Lemma split_go_no_dot (cur s : string) :
  Forall (fun a => a <> "."%char) (list_ascii_of_string s) ->
  PyStr.split_go "." 0 cur s = [(cur ++ s)%string].
Proof.
  revert cur. induction s as [|a s IH]; intros cur Hall.
  - cbn [PyStr.split_go]. by rewrite append_nil_r.
  - cbn [list_ascii_of_string] in Hall. apply Forall_cons in Hall as [Ha Hall].
    cbn [PyStr.split_go String.prefix].
    destruct (Ascii.ascii_dec "." a) as [Heq|_]; [by subst a|].
    rewrite IH by done. by rewrite append_assoc.
Qed.

(** X25: [adjust] looks only at the keys that have two parts at least: a
    text without a dot, which is its own single part, or a tuple of fewer
    than two texts is passed over wherever it stands, so that a mapping of
    such keys only changes nothing and returns the empty map; a first key of
    three parts or more raises [AssertionError] with nothing changed. *)
Theorem adjust_needs_two_parts self (m : list (key * value)) h :
  Inp.adjust self m h
  = Inp.adjust self (filter (fun kv => (2 <= length (Inp.key_parts kv.1))%nat) m) h
  /\ (forall s, Forall (fun a => a <> "."%char) (list_ascii_of_string s) ->
        Inp.key_parts (KStr s) = [s])
  /\ (Forall (fun kv => (length (Inp.key_parts kv.1) <= 1)%nat) m ->
      Inp.adjust self m h = (Returns [], self, h))
  /\ (forall k v, (3 <= length (Inp.key_parts k))%nat ->
      Inp.adjust self ((k, v) :: m) h = (Raises AssertionError, self, h)).
Proof.
  unfold Inp.adjust. split; [apply adjust_loop_skips|]. split; [|split].
  - intros s Hs. cbn [Inp.key_parts]. unfold PyStr.split. by rewrite split_go_no_dot.
  - intros Hshort. rewrite adjust_loop_skips.
    assert (filter (fun kv : key * value => (2 <= length (Inp.key_parts kv.1))%nat) m = [])
      as ->; [|done].
    induction Hshort as [|kv m Hkv _ IH]; [done|].
    rewrite filter_cons_False by lia. exact IH.
  - intros k v Hk. cbn [Inp.adjust_loop].
    destruct (Inp.key_parts k) as [|a [|p [|q parts]]]; cbn in Hk; try lia. done.
Qed.
End materialization.

(** X24, witness: one mapping, one entry and one file. *)
Lemma generate_one_entry_per_mapping_witness :
  let run :=
    @Inp._generate Reference.units Reference.package Examples.beamline
      (Some [Examples.retag]) "zgoubi.dat" None Examples.fresh_world in
  map pe_mapping [MkPath Examples.retag "/tmp/tmp0" false] = [Examples.retag]
  /\ tmp_count run.2 = 1%nat
  /\ is_Some (dict_get "/tmp/tmp0/zgoubi.dat"%string (files run.2)).
Proof.
  intros run.
  assert (Hrun : @Inp._generate Reference.units Reference.package Examples.beamline
                   (Some [Examples.retag]) "zgoubi.dat" None Examples.fresh_world
                 = (Returns [MkPath Examples.retag "/tmp/tmp0" false], run.1.2, run.2))
    by (vm_compute; reflexivity).
  destruct (@generate_one_entry_per_mapping Reference.units Reference.package
              _ _ _ _ _ _ _ _ Hrun) as (bms & _ & Hmap & _ & Htmp & Hfirst).
  destruct (Hfirst eq_refl) as [Hfiles _].
  split; [reflexivity|]. split; [exact Htmp|].
  apply Forall_cons in Hfiles as [Hfile _]. exact Hfile.
Defined.

(** ** A kind that cannot be formatted *)

Section unformattable.
Context `{Units} `{Package}.
Implicit Types (h : gmap loc Command).
Local Open Scope string_scope.

Lemma mapM_raises {A B} (f : A -> outcome B) (xs : list A) (x : A) :
  x ∈ xs -> (exists e, f x = Raises e) -> exists e, mapM f xs = Raises e.
Proof.
  intros Hin [e He]. induction xs as [|y xs IH]; [by apply elem_of_nil in Hin|].
  cbn [mapM]. apply elem_of_cons in Hin as [<-|Hin].
  - rewrite He. by exists e.
  - destruct (f y) as [b|e']; cbn [obind]; [|by exists e'].
    destruct (IH Hin) as [e' ->]. by exists e'.
Qed.

(** X26: the format of [GasScattering] never returns: it raises
    [NameError] once the header is formatted, or what formatting the header
    raises.  Hence building the text of a sequence that holds such a command
    always raises, under every package that gives the kind this format. *)
Theorem gas_scattering_is_never_formatted (uuid name : string) (line : list loc) h :
  (forall c, exists x, Cmd.GasScattering__str__ c = Raises x)
  /\ (forall c header, Cmd.__str__ c = Returns header ->
        Cmd.GasScattering__str__ c = Raises (OtherException "NameError"))
  /\ ((forall c, cls_name (cmd_class c) = "GasScattering" ->
         str_override c = Some (Cmd.GasScattering__str__ c)) ->
      forall e, e ∈ line -> cls_name (cmd_class (h !!! e)) = "GasScattering" ->
      exists x, Inp.build uuid name line h = Raises x).
Proof.
  assert (forall c, exists x, Cmd.GasScattering__str__ c = Raises x) as Hnever.
  { intros c. unfold Cmd.GasScattering__str__.
    destruct (Cmd.__str__ c) as [header|x]; cbn [obind]; by eexists. }
  split; [exact Hnever|]. split.
  - intros c header Hc. unfold Cmd.GasScattering__str__. by rewrite Hc.
  - intros Hformat e Hin Hgas. unfold Inp.build.
    destruct (mapM_raises Inp.str_command
                (map (fun e => h !!! e) line
                 ++ (if (length line =? 0)%nat
                        || negb (isinstance (h !!! List.last line 0%nat)
                                   [cls_name Kinds.End])
                     then [Cmd.__init__ Kinds.End uuid "" "" [] []] else []))%list
                (h !!! e)) as [x Hx].
    + apply elem_of_app. left. apply list_elem_of_fmap. by exists e.
    + unfold Inp.str_command. rewrite (Hformat _ Hgas). apply Hnever.
    + exists x. by rewrite Hx.
Qed.
End unformattable.

(** X26, at work: under the formats of these sources, the text of a
    sequence that holds a [GasScattering] is not built. *)
Example gas_scattering_example :
  @Inp.build Reference.units Reference.formats_package
    "fedcba9876543210fedcba9876543210" "beamline" [0%nat; 2%nat; 1%nat]
    Examples.with_gas
  = Raises (OtherException "NameError").
Proof. vm_compute. reflexivity. Qed.
